(** * Intel HEX reader and writer (ihex.c): model and verification

    A shallow embedding of [checksum], [ihex_write] and [ihex_read] of
    src/ihex.c, followed by the properties of the encoder, the decoder and
    their composition.

    Conventions.
    - C [unsigned int] values are integers of [Z] kept in [0, 2^32) with the
      wrap-around written out ([uint32]); C [int] values are kept in
      [-2^31, 2^31) ([int32]).
    - Bytes ([unsigned char]) are integers of [Z] in [0, 256).
    - Text is a list of characters ([list ascii]); a C string is the part of
      a character array before its first NUL.
    - The FILE written by [ihex_write] is the text it produces (stream writes
      are taken to succeed); the FILE read by [ihex_read] is the text it
      holds. *)

From Stdlib Require Import ZArith List Ascii String Bool Lia Arith.
Import ListNotations.

#[local] Open Scope Z_scope.

(* ------------------------------------------------------------------ *)
(** ** Machine integers *)

Definition uint32 (z : Z) : Z := z mod 2 ^ 32.

Definition int32 (z : Z) : Z := (z + 2 ^ 31) mod 2 ^ 32 - 2 ^ 31.

(** [#define HI(x) (((x) & 0xff00) >> 8)] *)
Definition HI (x : Z) : Z := Z.shiftr (Z.land x 0xff00) 8.

(** [#define LO(x) ((x) & 0xff)] *)
Definition LO (x : Z) : Z := Z.land x 0xff.

(* ------------------------------------------------------------------ *)
(** ** Characters *)

Definition code (c : ascii) : Z := Z.of_N (N_of_ascii c).

Definition chr (z : Z) : ascii := ascii_of_N (Z.to_N z).

Definition NUL : ascii := chr 0.
Definition LF : ascii := chr 10.
Definition CR : ascii := chr 13.

Definition str (s : string) : list ascii := list_ascii_of_string s.

(** C's [isspace] in the "C" locale: space, and \t \n \v \f \r. *)
Definition isspace (c : ascii) : bool :=
  (code c =? 32) || ((9 <=? code c) && (code c <=? 13)).

(** Value of a hexadecimal digit, either case. *)
Definition hexval (c : ascii) : option Z :=
  let n := code c in
  if (48 <=? n) && (n <=? 57) then Some (n - 48)
  else if (65 <=? n) && (n <=? 70) then Some (n - 55)
  else if (97 <=? n) && (n <=? 102) then Some (n - 87)
  else None.

(** The upper-case digit printf's [%X] writes for a nibble. *)
Definition hexdigit (v : Z) : ascii :=
  if v <? 10 then chr (48 + v) else chr (55 + v).

(* ------------------------------------------------------------------ *)
(** ** printf: the conversion [%0wX] of an unsigned 32-bit value

    The eight nibbles of the value, most significant first, without the
    leading zero nibbles that are not needed to reach [w] digits (at least one
    digit is always written). *)

Definition nibbles8 (v : Z) : list Z :=
  map (fun k => Z.land (Z.shiftr v (4 * k)) 15) [7; 6; 5; 4; 3; 2; 1; 0].

Fixpoint strip0 (w : nat) (ds : list Z) : list Z :=
  match ds with
  | d :: ds' =>
      if (d =? 0) && (w <? List.length ds)%nat then strip0 w ds' else ds
  | [] => []
  end.

Definition fmt_X (w : nat) (v : Z) : list ascii :=
  map hexdigit (strip0 (Nat.max w 1) (nibbles8 (uint32 v))).

(* ------------------------------------------------------------------ *)
(** ** sscanf: the conversion [%wx]

    ISO C 7.21.6.2: white space is skipped, then the longest prefix of at
    most [w] characters that has the shape of an optionally signed
    hexadecimal integer (optional [0x]/[0X] prefix) is consumed and converted
    as [strtoul] does (a minus sign negates in unsigned arithmetic).  The
    conversion fails when the input ends before any character of the item, or
    when the item holds no digit.  [scan_x] returns the converted value and
    the unread rest of the input. *)

Fixpoint skip_space (s : list ascii) : list ascii :=
  match s with
  | c :: r => if isspace c then skip_space r else s
  | [] => []
  end.

(** At most [w] hexadecimal digits: accumulated value, number of digits read,
    rest of the input. *)
Fixpoint scan_digits (w : nat) (acc : Z) (n : nat) (s : list ascii)
  : Z * nat * list ascii :=
  match w, s with
  | S w', c :: r =>
      match hexval c with
      | Some d => scan_digits w' (16 * acc + d) (S n) r
      | None => (acc, n, s)
      end
  | _, _ => (acc, n, s)
  end.

Definition is_x (c : ascii) : bool := (code c =? 120) || (code c =? 88).

(** The unsigned part of the item: optional [0x] prefix, then digits.  A
    prefix that no digit follows inside the width is a matching failure, as
    the standard has it; the GNU C library converts such an item to 0 and
    goes on.  The two readings differ on such input only. *)
Definition scan_unsigned (w : nat) (s : list ascii) : option (Z * list ascii) :=
  match w, s with
  | S (S w'), c0 :: cx :: r =>
      if (code c0 =? 48) && is_x cx then
        match scan_digits w' 0 0 r with
        | (_, O, _) => None
        | (v, _, rest) => Some (v, rest)
        end
      else
        match scan_digits w 0 0 s with
        | (_, O, _) => None
        | (v, _, rest) => Some (v, rest)
        end
  | _, _ =>
      match scan_digits w 0 0 s with
      | (_, O, _) => None
      | (v, _, rest) => Some (v, rest)
      end
  end.

Definition scan_x (w : nat) (s : list ascii) : option (Z * list ascii) :=
  match skip_space s with
  | [] => None
  | c :: r =>
      if code c =? 45 then
        match scan_unsigned (Nat.pred w) r with
        | Some (v, rest) => Some (uint32 (- v), rest)
        | None => None
        end
      else if code c =? 43 then scan_unsigned (Nat.pred w) r
      else scan_unsigned w (c :: r)
  end.

(* ------------------------------------------------------------------ *)
(** ** checksum (ihex.c, lines 32-41)

    [buf] is the array the pointer argument designates; [length] bytes of it
    are summed (the model sums the bytes the list holds when it is shorter).
    The [int] accumulator wraps. *)

Definition checksum (buf : list Z) (length : Z)
    (chunk_len chunk_addr chunk_type : Z) : Z :=
  let sum := int32 (chunk_len + LO chunk_addr + HI chunk_addr + chunk_type) in
  let sum :=
    fold_left (fun sum b => int32 (sum + b)) (firstn (Z.to_nat length) buf) sum in
  let complement := int32 (Z.lnot sum + 1) in
  Z.land complement 0xff.

(* ------------------------------------------------------------------ *)
(** ** ihex_write (ihex.c, lines 126-190)

    One [record] per group of [fprintf] calls that writes one line; it keeps
    the arguments the calls are given.  [render] applies the format strings. *)

Inductive record : Type :=
| ELA (cur_ela : Z) (sum : Z)
    (* fprintf(pFile, ":02000004%04X%02X\n", cur_ela, checksum(ela_bytes,2,2,0,4)) *)
| Data (chunk_len chunk_start : Z) (bytes : list Z) (sum : Z)
    (* fprintf(pFile, ":%02X%04X00", chunk_len, chunk_start & 0xffff);
       fprintf(pFile, "%02X", buf[i]) for each byte of the chunk;
       fprintf(pFile, "%02X\n", checksum(...)) *)
| EOF.
    (* fprintf(pFile, ":00000001FF\n") *)

Definition render (r : record) : list ascii :=
  match r with
  | ELA cur_ela sum =>
      str ":02000004" ++ fmt_X 4 cur_ela ++ fmt_X 2 sum ++ [LF]
  | Data chunk_len chunk_start bytes sum =>
      str ":" ++ fmt_X 2 chunk_len ++ fmt_X 4 (Z.land chunk_start 0xffff)
        ++ str "00" ++ flat_map (fmt_X 2) bytes ++ fmt_X 2 sum ++ [LF]
  | EOF => str ":00000001FF" ++ [LF]
  end.

(** The bytes [buf[lo]] ... [buf[lo + n - 1]]. *)
Definition slice (buf : list Z) (lo n : Z) : list Z :=
  firstn (Z.to_nat n) (skipn (Z.to_nat lo) buf).

(** The [while (chunk_start < end)] loop.  [fuel] bounds the number of
    iterations; [None] means the bound was too small. *)
Fixpoint write_loop (fuel : nat) (buf : list Z) (start end_ : Z)
    (cur_ela chunk_start : Z) : option (list record) :=
  if chunk_start <? end_ then
    match fuel with
    | O => None
    | S fuel' =>
        let chunk_len := uint32 (end_ - chunk_start) in
        let chunk_len := if chunk_len >? 32 then 32 else chunk_len in
        let chunk_len :=
          if Z.land chunk_start 0xffff + chunk_len >? 0xffff
          then 0x10000 - Z.land chunk_start 0xffff
          else chunk_len in
        let page := Z.shiftr chunk_start 16 in
        let ela :=
          if uint32 cur_ela =? page then []
          else [ELA page (checksum [HI page; LO page] 2 2 0 4)] in
        let cur_ela := if uint32 cur_ela =? page then cur_ela else page in
        let data :=
          Data chunk_len chunk_start
            (slice buf (uint32 (chunk_start - start)) chunk_len)
            (checksum (skipn (Z.to_nat (uint32 (chunk_start - start))) buf)
               chunk_len chunk_len (int32 chunk_start) 0) in
        match
          write_loop fuel' buf start end_ cur_ela (uint32 (chunk_start + chunk_len))
        with
        | Some rest => Some (ela ++ data :: rest)
        | None => None
        end
    end
  else Some [EOF].

(** The records [ihex_write] writes, in order. *)
Definition ihex_write_records (buf : list Z) (start end_ : Z)
  : option (list record) :=
  let cur_ela := if end_ >? 65535 then -1 else 0 in
  write_loop (Z.to_nat (end_ - start)) buf start end_ cur_ela start.

(** The text [ihex_write] leaves in the stream when it returns 0. *)
Definition ihex_write (buf : list Z) (start end_ : Z) : option (list ascii) :=
  match ihex_write_records buf start end_ with
  | Some recs => Some (flat_map render recs)
  | None => None
  end.

(* ------------------------------------------------------------------ *)
(** ** ihex_read (ihex.c, lines 43-124) *)

(** The C string held at the start of a character array: the characters
    before the first NUL. *)
Fixpoint cstr (a : list ascii) : list ascii :=
  match a with
  | c :: r => if code c =? 0 then [] else c :: cstr r
  | [] => []
  end.

Definition strlen (a : list ascii) : Z := Z.of_nat (List.length (cstr a)).

(** [&a[i]] *)
Definition at_ (a : list ascii) (i : Z) : list ascii := skipn (Z.to_nat i) a.

(** [l] with element [n] replaced by [v]. *)
Fixpoint upd {A : Type} (n : nat) (v : A) (l : list A) {struct l} : list A :=
  match l with
  | [] => []
  | x :: r =>
      match n with
      | O => v :: r
      | S n' => x :: upd n' v r
      end
  end.

(** The characters one [fgets] call takes from the stream: at most [n], up
    to and including the first newline. *)
Fixpoint fgets_chars (n : nat) (stream : list ascii)
  : list ascii * list ascii :=
  match n, stream with
  | S n', c :: rest =>
      if code c =? 10 then ([c], rest)
      else let (l, r) := fgets_chars n' rest in (c :: l, r)
  | _, _ => ([], stream)
  end.

(** [fgets(line, size, pFile)]: [None] at end of file; otherwise the array
    with the characters read and a NUL stored at its start (what lies behind
    them is kept), and the rest of the stream. *)
Definition fgets (line : list ascii) (size : nat) (stream : list ascii)
  : option (list ascii * list ascii) :=
  match stream with
  | [] => None
  | _ :: _ =>
      let (chars, rest) := fgets_chars (Nat.pred size) stream in
      Some (chars ++ NUL :: skipn (S (List.length chars)) line, rest)
  end.

(** [sscanf(s, ":%02x%04x%02x", &chunk_len, &chunk_addr, &chunk_type) == 3] *)
Definition scan_header (s : list ascii) : option (Z * Z * Z) :=
  match s with
  | c :: s1 =>
      if code c =? 58 then
        match scan_x 2 s1 with
        | Some (chunk_len, s2) =>
            match scan_x 4 s2 with
            | Some (chunk_addr, s3) =>
                match scan_x 2 s3 with
                | Some (chunk_type, _) => Some (chunk_len, chunk_addr, chunk_type)
                | None => None
                end
            | None => None
            end
        | None => None
        end
      else None
  | [] => None
  end.

(** The messages written to stderr before [return(-1)]. *)
Inductive error : Type :=
| ParseError (line_no : Z)
    (* "Error while parsing IHEX at line %d" *)
| ParseByteError (line_no i : Z)
    (* "Error while parsing IHEX at line %d byte %d" *)
| AddressError (chunk_addr line_no : Z)
    (* "Address %04x is out of range at line %d" *)
| AddressLengthError (chunk_addr chunk_len line_no : Z).
    (* "Address %04x + %d is out of range at line %d" *)

(** One executed assignment [buf[chunk_addr + offset - start + (i - 9) / 2] = byte],
    with the values of the variables it was executed with. *)
Record store_event : Type := mk_event {
  ev_addr : Z;      (* chunk_addr *)
  ev_offset : Z;    (* offset *)
  ev_len : Z;       (* chunk_len *)
  ev_index : Z;     (* the index stored to *)
  ev_byte : Z       (* the byte stored *)
}.

(** The destination array, the variable [greatest_addr], and the stores
    executed so far, oldest first. *)
Record wstate : Type := mk_wstate {
  buf : list Z;
  greatest_addr : Z;
  trace : list store_event
}.

(** [buf[idx] = v].  A store outside the array leaves the array as it is
    (the byte lands in memory that is not the caller's array); the trace of
    the decoder records it all the same. *)
Definition store (idx v : Z) (b : list Z) : list Z :=
  if idx <? Z.of_nat (List.length b) then upd (Z.to_nat idx) v b else b.

Inductive res (A : Type) : Type :=
| Ok (a : A)
| Err (e : error) (t : list store_event)
| NoFuel.
Arguments Ok {A} a.
Arguments Err {A} e t.
Arguments NoFuel {A}.

(** The loop [for (i = 9; i < strlen(line) - 1; i += 2)], entered at [i].
    The bound [strlen(line) - 1] is a [size_t]; it is written in [Z], since
    the string is not empty where the loop is reached ([scan_header_strlen]
    below).  [fuel] bounds the number of iterations. *)
Fixpoint data_loop (fuel : nat) (start end_ : Z) (line : list ascii)
    (line_no chunk_len chunk_addr chunk_type offset : Z)
    (i : Z) (s : wstate) : res wstate :=
  if i <? strlen line - 1 then
    match fuel with
    | O => NoFuel
    | S fuel' =>
        match scan_x 2 (cstr (at_ line i)) with
        | None => Err (ParseByteError line_no i) (trace s)
        | Some (byte, _) =>
            if negb (chunk_type =? 0) then Ok s
            else if (i - 9) / 2 >=? chunk_len then Ok s
            else if uint32 (chunk_addr + offset) <? start then
              Err (AddressError chunk_addr line_no) (trace s)
            else if uint32 (chunk_addr + offset + chunk_len) >? end_ then
              Err (AddressLengthError chunk_addr chunk_len line_no) (trace s)
            else
              let greatest_addr :=
                if uint32 (chunk_addr + offset + chunk_len) >? greatest_addr s
                then uint32 (chunk_addr + offset + chunk_len)
                else greatest_addr s in
              let idx := uint32 (chunk_addr + offset - start + (i - 9) / 2) in
              data_loop fuel' start end_ line line_no chunk_len chunk_addr
                chunk_type offset (i + 2)
                (mk_wstate (store idx (byte mod 256) (buf s)) greatest_addr
                   (trace s ++ [mk_event chunk_addr offset chunk_len idx (byte mod 256)]))
        end
    end
  else Ok s.

(** The two [if (chunk_type == ...)] blocks that update [offset]; [None] when
    a [sscanf(&line[9], "%04x", ...)] does not return 1. *)
Definition ext_offset (line : list ascii) (chunk_type offset : Z) : option Z :=
  match
    (if chunk_type =? 2 then
       match scan_x 4 (cstr (at_ line 9)) with
       | Some (esa, _) => Some (uint32 (esa * 16))
       | None => None
       end
     else Some offset)
  with
  | None => None
  | Some offset =>
      if chunk_type =? 4 then
        match scan_x 4 (cstr (at_ line 9)) with
        | Some (ela, _) => Some (uint32 (ela * 65536))
        | None => None
        end
      else Some offset
  end.

(** [if (line[strlen(line)] == '\r') line[strlen(line)] = 0;] *)
Definition strip_cr (line : list ascii) : list ascii :=
  if code (nth (Z.to_nat (strlen line)) line NUL) =? 13
  then upd (Z.to_nat (strlen line)) NUL line
  else line.

(** What a call of [ihex_read] ends with. *)
Inductive outcome : Type :=
| Returned (ret : Z) (buf : list Z) (t : list store_event)
    (* return(greatest_addr - start), the array as the stores left it *)
| Failed (e : error) (t : list store_event)
    (* free(buf), a message on stderr, return(-1) *)
| Fuel.
    (* the model's iteration bound was too small *)

(** The loop [while (fgets(line, sizeof(line), pFile))]. *)
Fixpoint read_loop (fuel : nat) (start end_ : Z) (stream line : list ascii)
    (line_no offset : Z) (s : wstate) : outcome :=
  match fgets line 523 stream with
  | None =>
      Returned (int32 (uint32 (greatest_addr s - start))) (buf s) (trace s)
  | Some (line, stream) =>
      match fuel with
      | O => Fuel
      | S fuel' =>
          let line_no := uint32 (line_no + 1) in
          let line := strip_cr line in
          match scan_header (cstr line) with
          | None => Failed (ParseError line_no) (trace s)
          | Some (chunk_len, chunk_addr, chunk_type) =>
              match ext_offset line chunk_type offset with
              | None => Failed (ParseError line_no) (trace s)
              | Some offset =>
                  match
                    data_loop (List.length line) start end_ line line_no
                      chunk_len chunk_addr chunk_type offset 9 s
                  with
                  | Ok s => read_loop fuel' start end_ stream line line_no offset s
                  | Err e t => Failed e t
                  | NoFuel => Fuel
                  end
              end
          end
      end
  end.

(** [ihex_read(pFile, buf, start, end)], where [file] is the text of the
    file and [line] the content of the function's static array [line] when it
    is called ([line_init] at the first call). *)
Definition ihex_read (line file : list ascii) (buf : list Z) (start end_ : Z)
  : outcome :=
  read_loop (List.length file) start end_ file line 0 0 (mk_wstate buf 0 []).

Definition line_init : list ascii := repeat NUL 523.

(** The value the C function returns. *)
Definition return_value (o : outcome) : option Z :=
  match o with
  | Returned ret _ _ => Some ret
  | Failed _ _ => Some (-1)
  | Fuel => None
  end.

(* ------------------------------------------------------------------ *)
(** ** Lines of the wire format [:LLAAAATTDD...DDCC], as characters

    A [wire] is one well-formed line: eight hexadecimal digits of header,
    the payload as pairs of hexadecimal digits, and the two digits of the
    checksum field.  The digits may be of either case.  The values the
    fields denote are [w_len], [w_addr], [w_type] and [w_bytes]. *)

Definition is_hex (c : ascii) : bool :=
  match hexval c with Some _ => true | None => false end.

Definition digit (c : ascii) : Z :=
  match hexval c with Some d => d | None => 0 end.

Definition hexnum (cs : list ascii) : Z :=
  fold_left (fun acc c => 16 * acc + digit c) cs 0.

Definition pair_chars (p : ascii * ascii) : list ascii := [fst p; snd p].

Definition pair_hex (p : ascii * ascii) : bool := is_hex (fst p) && is_hex (snd p).

Record wire : Type := mk_wire {
  w_hdr : list ascii;
  w_data : list (ascii * ascii);
  w_sum : ascii * ascii
}.

Definition wire_text (w : wire) : list ascii :=
  chr 58 :: w_hdr w ++ flat_map pair_chars (w_data w) ++ pair_chars (w_sum w) ++ [LF].

Definition w_len (w : wire) : Z := hexnum (firstn 2 (w_hdr w)).
Definition w_addr (w : wire) : Z := hexnum (firstn 4 (skipn 2 (w_hdr w))).
Definition w_type (w : wire) : Z := hexnum (skipn 6 (w_hdr w)).
Definition w_bytes (w : wire) : list Z := map (fun p => hexnum (pair_chars p)) (w_data w).

(** Well-formed: eight header digits, every payload and checksum character a
    digit, and as many payload bytes as the length field says. *)
Definition wire_ok (w : wire) : bool :=
  (List.length (w_hdr w) =? 8)%nat
  && forallb is_hex (w_hdr w)
  && forallb pair_hex (w_data w)
  && pair_hex (w_sum w)
  && (w_len w =? Z.of_nat (List.length (w_data w))).

(** An Extended Segment or Linear Address line carries its two payload bytes. *)
Definition ext_ok (w : wire) : bool :=
  if (w_type w =? 2) || (w_type w =? 4) then 2 <=? w_len w else true.

(** The stores of one Data line whose range checks passed: byte [k] of the
    payload goes to index [chunk_addr + offset - start + k]. *)
Fixpoint store_chunk (start chunk_len chunk_addr offset : Z) (k : Z)
    (bytes : list Z) (s : wstate) : wstate :=
  match bytes with
  | [] => s
  | b :: r =>
      let top := uint32 (chunk_addr + offset + chunk_len) in
      let idx := uint32 (chunk_addr + offset - start + k) in
      store_chunk start chunk_len chunk_addr offset (k + 1) r
        (mk_wstate (store idx b (buf s))
           (if top >? greatest_addr s then top else greatest_addr s)
           (trace s ++ [mk_event chunk_addr offset chunk_len idx b]))
  end.

(** What the decoder does with one well-formed line: the new [offset] and
    state, or the error it stops with. *)
Definition wire_step (start end_ line_no : Z) (w : wire) (offset : Z) (s : wstate)
  : res (Z * wstate) :=
  let ext := hexnum (flat_map pair_chars (firstn 2 (w_data w))) in
  if w_type w =? 0 then
    match w_bytes w with
    | [] => Ok (offset, s)
    | _ :: _ =>
        if uint32 (w_addr w + offset) <? start then
          Err (AddressError (w_addr w) line_no) (trace s)
        else if uint32 (w_addr w + offset + w_len w) >? end_ then
          Err (AddressLengthError (w_addr w) (w_len w) line_no) (trace s)
        else
          Ok (offset, store_chunk start (w_len w) (w_addr w) offset 0 (w_bytes w) s)
    end
  else if w_type w =? 2 then Ok (uint32 (ext * 16), s)
  else if w_type w =? 4 then Ok (uint32 (ext * 65536), s)
  else Ok (offset, s).

(** The decoder on a sequence of well-formed lines. *)
Fixpoint decode_wires (start end_ : Z) (ws : list wire) (line_no offset : Z)
    (s : wstate) : outcome :=
  match ws with
  | [] => Returned (int32 (uint32 (greatest_addr s - start))) (buf s) (trace s)
  | w :: r =>
      match wire_step start end_ (uint32 (line_no + 1)) w offset s with
      | Ok (offset, s) => decode_wires start end_ r (uint32 (line_no + 1)) offset s
      | Err e t => Failed e t
      | NoFuel => Fuel
      end
  end.

(* ------------------------------------------------------------------ *)
(** ** Views of the encoder's records *)

(** The fields a record shows on its line: length, address, type, payload
    bytes and checksum byte. *)
Definition rec_len (r : record) : Z :=
  match r with ELA _ _ => 2 | Data chunk_len _ _ _ => chunk_len | EOF => 0 end.
Definition rec_addr (r : record) : Z :=
  match r with ELA _ _ => 0 | Data _ chunk_start _ _ => Z.land chunk_start 0xffff | EOF => 0 end.
Definition rec_type (r : record) : Z :=
  match r with ELA _ _ => 4 | Data _ _ _ _ => 0 | EOF => 1 end.
Definition rec_bytes (r : record) : list Z :=
  match r with
  | ELA cur_ela _ => [cur_ela / 256; cur_ela mod 256]
  | Data _ _ bytes _ => bytes
  | EOF => []
  end.
Definition rec_sum (r : record) : Z :=
  match r with ELA _ sum => sum | Data _ _ _ sum => sum | EOF => 0xFF end.

(** The length the loop body of [ihex_write] gives the chunk that starts at
    [chunk_start]. *)
Definition chunk_size (chunk_start end_ : Z) : Z :=
  let l := Z.min (end_ - chunk_start) 32 in
  if chunk_start mod 65536 + l >? 65535 then 65536 - chunk_start mod 65536 else l.

(** The records one iteration of the loop writes for the chunk at [cs], and
    the value it leaves in [cur_ela]. *)
Definition chunk_records (b : list Z) (start end_ cur cs : Z) : list record :=
  let len := chunk_size cs end_ in
  let page := cs / 65536 in
  (if uint32 cur =? page then []
   else [ELA page (checksum [HI page; LO page] 2 2 0 4)])
  ++ [Data len cs (slice b (cs - start) len)
        (checksum (skipn (Z.to_nat (cs - start)) b) len len (int32 cs) 0)].

Definition next_ela (cur cs : Z) : Z :=
  if uint32 cur =? cs / 65536 then cur else cs / 65536.

Definition sum_list (l : list Z) : Z := fold_right Z.add 0 l.

(** The sum-to-zero equation of a line. *)
Definition sums_to_zero (len addr type : Z) (bytes : list Z) (sum : Z) : Prop :=
  (len + addr mod 256 + addr / 256 + type + sum_list bytes + sum) mod 256 = 0.

Definition is_ela (r : record) : bool :=
  match r with ELA _ _ => true | _ => false end.

Definition page_of (a : Z) : Z := a / 65536.

(** Reading the records in order with the page of the last Extended Linear
    Address record ([cur], [None] before the first): every such record is
    followed at once by a Data record of the page it names, which is a page
    above the one before; a Data record that has none before it continues the
    page of the Data record before it. *)
Fixpoint ela_framed (cur : option Z) (recs : list record) : Prop :=
  match recs with
  | [] => True
  | ELA p _ :: rest =>
      match cur with Some q => q < p | None => True end
      /\ match rest with
         | Data _ chunk_start _ _ :: _ => page_of chunk_start = p
         | _ => False
         end
      /\ ela_framed (Some p) rest
  | Data _ chunk_start _ _ :: rest =>
      cur = Some (page_of chunk_start) /\ ela_framed cur rest
  | EOF :: rest => rest = []
  end.

Definition rec_sums_to_zero (r : record) : Prop :=
  sums_to_zero (rec_len r) (rec_addr r) (rec_type r) (rec_bytes r) (rec_sum r).

(** Every Data record: between 1 and 32 bytes, inside [start, end), and
    inside one 64KiB page. *)
Definition data_in_page (start end_ : Z) (r : record) : Prop :=
  match r with
  | Data chunk_len chunk_start bytes _ =>
      1 <= chunk_len <= 32
      /\ Z.of_nat (List.length bytes) <= chunk_len
      /\ start <= chunk_start /\ chunk_start + chunk_len <= end_
      /\ Z.land chunk_start 0xffff + chunk_len <= 65536
      /\ page_of chunk_start = page_of (chunk_start + chunk_len - 1)
  | _ => True
  end.

Definition ela_state (cur : Z) : option Z := if cur =? -1 then None else Some cur.

(** Text without NUL and without newline. *)
Definition plain (c : ascii) : bool := negb (code c =? 0) && negb (code c =? 10).

(** Text without NUL. *)
Definition nonul (l : list ascii) : bool := forallb (fun c => negb (code c =? 0)) l.

(** The tail of a line: payload pairs still to read, checksum field, newline. *)
Definition tail_of (cc : ascii * ascii) (pairs : list (ascii * ascii)) : list ascii :=
  flat_map pair_chars pairs ++ pair_chars cc ++ [LF].

Definition wires_ok (ws : list wire) : bool :=
  forallb (fun w => wire_ok w && ext_ok w) ws.

(** Two lines that differ in the checksum field only. *)
Definition same_but_sum (w1 w2 : wire) : Prop :=
  w_hdr w1 = w_hdr w2 /\ w_data w1 = w_data w2.

(** The two digits [%02X] writes for a byte. *)
Definition byte_pair (v : Z) : ascii * ascii := (hexdigit (v / 16), hexdigit (v mod 16)).

(** The line of a record, as a [wire]. *)
Definition wire_of (r : record) : wire :=
  match r with
  | ELA cur_ela sum =>
      mk_wire (str "02000004")
        [byte_pair (cur_ela / 256); byte_pair (cur_ela mod 256)] (byte_pair sum)
  | Data chunk_len chunk_start bytes sum =>
      mk_wire (fmt_X 2 chunk_len ++ fmt_X 4 (Z.land chunk_start 0xffff) ++ str "00")
        (map byte_pair bytes) (byte_pair sum)
  | EOF => mk_wire (str "00000001") [] (byte_pair 0xFF)
  end.

Definition is_byte (v : Z) : Prop := 0 <= v < 256.

(** The ranges the fields of a record must have for its line to be well formed. *)
Definition rec_good (r : record) : Prop :=
  match r with
  | ELA cur_ela sum => 0 <= cur_ela < 65536 /\ is_byte sum
  | Data chunk_len chunk_start bytes sum =>
      0 <= chunk_len < 256
      /\ Z.of_nat (List.length bytes) = chunk_len
      /\ Forall is_byte bytes /\ is_byte sum
  | EOF => True
  end.

(** The 16-bit value an Extended Segment or Linear Address line carries in
    its first two payload bytes, high byte first. *)
Definition ext_value (w : wire) : Z :=
  256 * nth 0 (w_bytes w) 0 + nth 1 (w_bytes w) 0.

(** The address-extension state after a line: set by the lines of type 02
    and 04, kept by every other line. *)
Definition next_offset (w : wire) (offset : Z) : Z :=
  if w_type w =? 2 then ext_value w * 16
  else if w_type w =? 4 then ext_value w * 65536
  else offset.

(** The running maximum, from [hi], of address + offset + length over the
    lines of [ws] that [counted] selects, each sum taken through [top]; the
    offset is the one the lines before have set. *)
Fixpoint highest (top : Z -> Z) (counted : wire -> bool) (ws : list wire)
    (offset hi : Z) : Z :=
  match ws with
  | [] => hi
  | w :: r =>
      highest top counted r (next_offset w offset)
        (if counted w then Z.max hi (top (w_addr w + offset + w_len w)) else hi)
  end.

(** A Data line. *)
Definition is_data (w : wire) : bool := w_type w =? 0.

(** A Data line that carries at least one byte. *)
Definition data_with_bytes (w : wire) : bool := (w_type w =? 0) && (1 <=? w_len w).

(** The tracker in the words of the specification: the maximum over all Data
    lines of a decode pass, in integers, starting from 0. *)
Definition spec_highest (ws : list wire) : Z := highest (fun z => z) is_data ws 0 0.

(** The maximum over the Data lines that carry at least one byte: in
    integers, and with each sum reduced modulo 2^32. *)
Definition highest_seen (ws : list wire) : Z :=
  highest (fun z => z) data_with_bytes ws 0 0.

Definition highest_seen32 (ws : list wire) : Z :=
  highest uint32 data_with_bytes ws 0 0.

(** A text given by its lines, each ended by a newline. *)
Definition lines (l : list string) : list ascii := flat_map (fun x => str x ++ [LF]) l.

(** The same with carriage return and newline as line ending. *)
Definition crlf_lines (l : list string) : list ascii :=
  flat_map (fun x => str x ++ [CR; LF]) l.

(** The text of a sequence of well-formed lines. *)
Definition wires_text (ws : list wire) : list ascii := flat_map wire_text ws.

(** No Extended Linear Address record among [recs]. *)
Definition no_ela (recs : list record) : Prop :=
  forallb (fun r => negb (is_ela r)) recs = true.

(** A store that stays inside the caller's window of [end_ - start] bytes. *)
Definition in_window (start end_ : Z) (e : store_event) : Prop :=
  0 <= ev_index e < end_ - start.

(** The stores an outcome went through. *)
Definition outcome_trace (o : outcome) : list store_event :=
  match o with
  | Returned _ _ t => t
  | Failed _ t => t
  | Fuel => []
  end.

(** A store executed after both range checks passed, for byte [k] of a line. *)
Definition checked (start end_ : Z) (e : store_event) : Prop :=
  0 <= ev_addr e /\ 0 <= ev_offset e
  /\ start <= uint32 (ev_addr e + ev_offset e)
  /\ uint32 (ev_addr e + ev_offset e + ev_len e) <= end_
  /\ exists k, 0 <= k < ev_len e
               /\ ev_index e = uint32 (ev_addr e + ev_offset e - start + k).

(* ------------------------------------------------------------------ *)
(** ** Further views of records and lines *)

(** The Data records of the encoder as address spans: start and length. *)
Fixpoint data_spans (recs : list record) : list (Z * Z) :=
  match recs with
  | [] => []
  | Data chunk_len chunk_start _ _ :: rest => (chunk_start, chunk_len) :: data_spans rest
  | _ :: rest => data_spans rest
  end.

(** The bytes the Data records carry, in order. *)
Fixpoint data_bytes (recs : list record) : list Z :=
  match recs with
  | [] => []
  | Data _ _ bytes _ :: rest => bytes ++ data_bytes rest
  | _ :: rest => data_bytes rest
  end.

(** The spans follow one another without gap or overlap from [from] to [to]. *)
Fixpoint tiles (from to : Z) (spans : list (Z * Z)) : Prop :=
  match spans with
  | [] => from = to
  | (a, n) :: rest => a = from /\ 0 < n /\ tiles (from + n) to rest
  end.

(** A character [ihex_write] can write: colon, newline, a decimal digit or
    an upper-case letter A to F. *)
Definition out_char (c : ascii) : bool :=
  (code c =? 58) || (code c =? 10)
  || ((48 <=? code c) && (code c <=? 57))
  || ((65 <=? code c) && (code c <=? 70)).

(** The state of the read loop after a sequence of well-formed lines: line
    number, offset, and array, maximum and stores; or the error one of them
    ends with. *)
Fixpoint run_wires (start end_ : Z) (ws : list wire) (line_no offset : Z)
    (s : wstate) : res (Z * Z * wstate) :=
  match ws with
  | [] => Ok (line_no, offset, s)
  | w :: r =>
      match wire_step start end_ (uint32 (line_no + 1)) w offset s with
      | Ok (offset, s) => run_wires start end_ r (uint32 (line_no + 1)) offset s
      | Err e t => Err e t
      | NoFuel => NoFuel
      end
  end.

(** The destination of a decode into the window that starts at [rstart],
    when the bytes of [b] for the addresses from [start] up to [cs] have been
    stored. *)
Definition partly (b dst : list Z) (start rstart cs : Z) : list Z :=
  firstn (Z.to_nat (start - rstart)) dst
  ++ firstn (Z.to_nat (cs - start)) b
  ++ skipn (Z.to_nat (cs - rstart)) dst.

(** A well-formed line without its line ending. *)
Definition wire_body (w : wire) : list ascii :=
  chr 58 :: w_hdr w ++ flat_map pair_chars (w_data w) ++ pair_chars (w_sum w).

(** A well-formed line that ends with carriage return and newline. *)
Definition wire_text_crlf (w : wire) : list ascii := wire_body w ++ [CR; LF].

(** The tail of a line in the array [line]: payload pairs still to read,
    checksum field, and the characters [term] that follow it. *)
Definition tail_with (cc : ascii * ascii) (term : list ascii)
    (pairs : list (ascii * ascii)) : list ascii :=
  flat_map pair_chars pairs ++ pair_chars cc ++ term.

(** A Data line cut off after some of its payload bytes: header, the pairs
    that are there, newline; no checksum field. *)
Definition short_text (w : wire) : list ascii :=
  chr 58 :: w_hdr w ++ flat_map pair_chars (w_data w) ++ [LF].

(** Header and payload digits of a line, without the condition on the number
    of payload bytes. *)
Definition digits_ok (w : wire) : bool :=
  (List.length (w_hdr w) =? 8)%nat
  && forallb is_hex (w_hdr w)
  && forallb pair_hex (w_data w).

(** The lower-case form of an upper-case hexadecimal letter; any other
    character is left as it is. *)
Definition lower (c : ascii) : ascii :=
  if (65 <=? code c) && (code c <=? 70) then chr (code c + 32) else c.

(** A pair of digits and a line with every letter in lower case. *)
Definition lower_pair (p : ascii * ascii) : ascii * ascii :=
  (lower (fst p), lower (snd p)).

Definition wire_lower (w : wire) : wire :=
  mk_wire (map lower (w_hdr w)) (map lower_pair (w_data w)) (lower_pair (w_sum w)).

(* ================================================================== *)
(** * Properties *)

(* ------------------------------------------------------------------ *)
(** ** Machine integers *)

Lemma uint32_small (z : Z) : 0 <= z < 2 ^ 32 -> uint32 z = z.
Proof. intros H. unfold uint32. now apply Z.mod_small. Qed.

Lemma uint32_range (z : Z) : 0 <= uint32 z < 2 ^ 32.
Proof. unfold uint32. apply Z.mod_pos_bound. lia. Qed.

Lemma int32_mod256 (z : Z) : int32 z mod 256 = z mod 256.
Proof.
  unfold int32.
  rewrite (Z.mod_eq (z + 2 ^ 31) (2 ^ 32)) by lia.
  replace (z + 2 ^ 31 - 2 ^ 32 * ((z + 2 ^ 31) / 2 ^ 32) - 2 ^ 31)
    with (z + (- (2 ^ 24 * ((z + 2 ^ 31) / 2 ^ 32))) * 256) by lia.
  apply Z.mod_add. lia.
Qed.

Lemma int32_small (z : Z) : - 2 ^ 31 <= z < 2 ^ 31 -> int32 z = z.
Proof. intros H. unfold int32. rewrite Z.mod_small; lia. Qed.

Lemma land_ff (z : Z) : Z.land z 0xff = z mod 256.
Proof. change 0xff with (Z.ones 8). rewrite Z.land_ones by lia. reflexivity. Qed.

Lemma land_ffff (z : Z) : Z.land z 0xffff = z mod 65536.
Proof. change 0xffff with (Z.ones 16). rewrite Z.land_ones by lia. reflexivity. Qed.

Lemma shiftr_16 (z : Z) : Z.shiftr z 16 = z / 65536.
Proof. rewrite Z.shiftr_div_pow2 by lia. reflexivity. Qed.

Lemma LO_mod (x : Z) : LO x = x mod 256.
Proof. apply land_ff. Qed.

Lemma HI_mod (x : Z) : HI x = (x / 256) mod 256.
Proof.
  unfold HI. rewrite Z.shiftr_land.
  change (Z.shiftr 0xff00 8) with 0xff.
  rewrite land_ff, Z.shiftr_div_pow2 by lia. reflexivity.
Qed.

(* ------------------------------------------------------------------ *)
(** ** checksum *)

Lemma checksum_fold_mod (l : list Z) (s : Z) :
  fold_left (fun sum b => int32 (sum + b)) l s mod 256 = (s + sum_list l) mod 256.
Proof.
  revert s. induction l as [| b l IH]; intros s; simpl.
  - now rewrite Z.add_0_r.
  - rewrite IH. rewrite Zplus_mod, int32_mod256, <- Zplus_mod.
    f_equal. lia.
Qed.

Lemma checksum_value (b : list Z) (length chunk_len chunk_addr chunk_type : Z) :
  checksum b length chunk_len chunk_addr chunk_type
  = (- (chunk_len + LO chunk_addr + HI chunk_addr + chunk_type
        + sum_list (firstn (Z.to_nat length) b))) mod 256.
Proof.
  unfold checksum. rewrite land_ff, int32_mod256.
  set (f := fold_left _ _ _).
  replace (Z.lnot f + 1) with (- f) by (unfold Z.lnot; lia).
  rewrite <- (Z.sub_0_l f), Zminus_mod. subst f.
  rewrite checksum_fold_mod.
  rewrite (Zplus_mod (int32 _)), int32_mod256, <- Zplus_mod.
  rewrite <- Zminus_mod. reflexivity.
Qed.

Lemma checksum_range (b : list Z) (length chunk_len chunk_addr chunk_type : Z) :
  0 <= checksum b length chunk_len chunk_addr chunk_type < 256.
Proof. rewrite checksum_value. apply Z.mod_pos_bound. lia. Qed.

Lemma checksum_sum (b : list Z) (length chunk_len chunk_addr chunk_type : Z) :
  (chunk_len + LO chunk_addr + HI chunk_addr + chunk_type
   + sum_list (firstn (Z.to_nat length) b)
   + checksum b length chunk_len chunk_addr chunk_type) mod 256 = 0.
Proof.
  rewrite checksum_value.
  set (t := chunk_len + _ + _ + _ + _).
  rewrite Zplus_mod_idemp_r. replace (t + - t) with 0 by lia. reflexivity.
Qed.

(* ------------------------------------------------------------------ *)
(** ** The chunking loop of ihex_write *)

Lemma chunk_size_bounds (cs end_ : Z) :
  cs < end_ ->
  1 <= chunk_size cs end_ <= 32
  /\ cs + chunk_size cs end_ <= end_
  /\ cs mod 65536 + chunk_size cs end_ <= 65536.
Proof.
  intros H. unfold chunk_size.
  pose proof (Z.mod_pos_bound cs 65536 ltac:(lia)) as Hm.
  destruct (cs mod 65536 + Z.min (end_ - cs) 32 >? 65535) eqn:E; lia.
Qed.

Section WriteLoop.

Variables (b : list Z) (start end_ : Z).
Hypothesis start_nonneg : 0 <= start.
Hypothesis end_u32 : end_ < 2 ^ 32.

Lemma write_loop_done (fuel : nat) (cur cs : Z) :
  end_ <= cs -> write_loop fuel b start end_ cur cs = Some [EOF].
Proof.
  intros H. destruct fuel; simpl; destruct (cs <? end_) eqn:E; try reflexivity; lia.
Qed.

Lemma write_loop_step (fuel : nat) (cur cs : Z) :
  start <= cs < end_ ->
  write_loop (S fuel) b start end_ cur cs
  = match write_loop fuel b start end_ (next_ela cur cs) (cs + chunk_size cs end_) with
    | Some rest => Some (chunk_records b start end_ cur cs ++ rest)
    | None => None
    end.
Proof.
  intros H.
  destruct (chunk_size_bounds cs end_ ltac:(lia)) as (Hl & He & Hp).
  cbn [write_loop].
  replace (cs <? end_) with true by (symmetry; apply Z.ltb_lt; lia).
  rewrite land_ffff, shiftr_16.
  rewrite !(uint32_small (end_ - cs)) by lia.
  rewrite !(uint32_small (cs - start)) by lia.
  assert (Hsz : (if cs mod 65536 + (if end_ - cs >? 32 then 32 else end_ - cs) >? 65535
                 then 65536 - cs mod 65536
                 else if end_ - cs >? 32 then 32 else end_ - cs) = chunk_size cs end_).
  { unfold chunk_size.
    replace (if end_ - cs >? 32 then 32 else end_ - cs) with (Z.min (end_ - cs) 32)
      by (destruct (end_ - cs >? 32) eqn:E; lia).
    reflexivity. }
  change (Z.pos 65535) with 65535 in *.
  rewrite Hsz. rewrite (uint32_small (cs + _)) by lia.
  unfold next_ela, chunk_records.
  destruct (write_loop fuel b start end_ _ _); [| reflexivity].
  rewrite <- app_assoc. reflexivity.
Qed.

Variable P : Z -> Z -> list record -> Prop.
Hypothesis P_done : forall cur cs, end_ <= cs -> P cur cs [EOF].
Hypothesis P_step : forall cur cs rest,
  start <= cs < end_ ->
  P (next_ela cur cs) (cs + chunk_size cs end_) rest ->
  P cur cs (chunk_records b start end_ cur cs ++ rest).

Lemma write_loop_ind (fuel : nat) (cur cs : Z) :
  start <= cs ->
  (Z.to_nat (end_ - cs) <= fuel)%nat ->
  exists recs, write_loop fuel b start end_ cur cs = Some recs /\ P cur cs recs.
Proof.
  revert cur cs. induction fuel as [| fuel IH]; intros cur cs Hs Hf.
  - exists [EOF]. split; [apply write_loop_done | apply P_done]; lia.
  - destruct (Z_lt_le_dec cs end_) as [Hlt | Hge].
    + destruct (chunk_size_bounds cs end_ Hlt) as (Hl & He & Hp).
      rewrite write_loop_step by lia.
      destruct (IH (next_ela cur cs) (cs + chunk_size cs end_)) as (rest & Hw & HP);
        [lia | lia |].
      rewrite Hw. eexists. split; [reflexivity |]. apply P_step; [lia | exact HP].
    + exists [EOF]. split; [apply write_loop_done | apply P_done]; lia.
Qed.

End WriteLoop.

Lemma LO_int32 (z : Z) : LO (int32 z) = (z mod 65536) mod 256.
Proof.
  rewrite LO_mod, int32_mod256.
  Z.div_mod_to_equations. lia.
Qed.

Lemma HI_int32 (z : Z) : HI (int32 z) = (z mod 65536) / 256.
Proof.
  rewrite HI_mod. unfold int32.
  Z.div_mod_to_equations. lia.
Qed.

Lemma ela_sums_to_zero (page : Z) :
  0 <= page < 65536 ->
  rec_sums_to_zero (ELA page (checksum [HI page; LO page] 2 2 0 4)).
Proof.
  intros H. unfold rec_sums_to_zero, sums_to_zero. cbn [rec_len rec_addr rec_type rec_bytes rec_sum].
  pose proof (checksum_sum [HI page; LO page] 2 2 0 4) as Hc.
  change (firstn (Z.to_nat 2) [HI page; LO page]) with [HI page; LO page] in Hc.
  set (ck := checksum _ _ _ _ _) in *. clearbody ck.
  rewrite !HI_mod, !LO_mod in Hc.
  rewrite (Z.mod_small (page / 256)) in Hc by (Z.div_mod_to_equations; lia).
  exact Hc.
Qed.

Lemma data_sums_to_zero (b : list Z) (lo len cs : Z) :
  rec_sums_to_zero
    (Data len cs (slice b lo len)
       (checksum (skipn (Z.to_nat lo) b) len len (int32 cs) 0)).
Proof.
  unfold rec_sums_to_zero, sums_to_zero. cbn [rec_len rec_addr rec_type rec_bytes rec_sum].
  pose proof (checksum_sum (skipn (Z.to_nat lo) b) len len (int32 cs) 0) as Hc.
  rewrite LO_int32, HI_int32 in Hc. rewrite land_ffff. exact Hc.
Qed.

Lemma eof_sums_to_zero : rec_sums_to_zero EOF.
Proof. reflexivity. Qed.

Lemma write_records_sums (b : list Z) (start end_ : Z) :
  0 <= start -> end_ < 2 ^ 32 ->
  exists recs,
    ihex_write_records b start end_ = Some recs
    /\ Forall rec_sums_to_zero recs.
Proof.
  intros Hs He. unfold ihex_write_records.
  apply (write_loop_ind b start end_ Hs He
           (fun _ _ recs => Forall rec_sums_to_zero recs)).
  - intros. repeat constructor.
  - intros cur cs rest Hcs IH. unfold chunk_records.
    apply Forall_app. split; [| exact IH].
    apply Forall_app. split.
    + destruct (uint32 cur =? cs / 65536); constructor; [| constructor].
      apply ela_sums_to_zero. Z.div_mod_to_equations. lia.
    + constructor; [| constructor]. apply data_sums_to_zero.
  - lia.
  - lia.
Qed.

Lemma write_records_chunks (b : list Z) (start end_ : Z) :
  0 <= start -> end_ < 2 ^ 32 ->
  exists recs,
    ihex_write_records b start end_ = Some recs
    /\ Forall (data_in_page start end_) recs.
Proof.
  intros Hs He. unfold ihex_write_records.
  apply (write_loop_ind b start end_ Hs He
           (fun _ _ recs => Forall (data_in_page start end_) recs)).
  - intros. repeat constructor.
  - intros cur cs rest Hcs IH. unfold chunk_records.
    apply Forall_app. split; [| exact IH].
    apply Forall_app. split.
    + destruct (uint32 cur =? cs / 65536); repeat constructor.
    + constructor; [| constructor]. cbn [data_in_page].
      destruct (chunk_size_bounds cs end_ ltac:(lia)) as (Hl & Hle & Hp).
      rewrite land_ffff. unfold page_of.
      repeat split; try lia.
      * unfold slice. rewrite length_firstn. lia.
      * Z.div_mod_to_equations. lia.
  - lia.
  - lia.
Qed.

Lemma write_loop_framed (b : list Z) (start end_ : Z) (fuel : nat) (cur cs : Z) :
  0 <= start -> end_ < 2 ^ 32 ->
  start <= cs -> (Z.to_nat (end_ - cs) <= fuel)%nat ->
  cur = -1 \/ 0 <= cur <= cs / 65536 ->
  exists recs,
    write_loop fuel b start end_ cur cs = Some recs
    /\ ela_framed (ela_state cur) recs.
Proof.
  intros Hs He Hcs Hf Hcur.
  destruct (write_loop_ind b start end_ Hs He
           (fun cur cs recs => cur = -1 \/ 0 <= cur <= cs / 65536 ->
                               ela_framed (ela_state cur) recs)
           ) with (fuel := fuel) (cur := cur) (cs := cs) as (recs & Hw & HP); try assumption.
  - intros. reflexivity.
  - clear Hcur Hf Hcs. intros cur1 cs1 rest Hcs IH Hcur.  unfold chunk_records, next_ela in *.
    assert (Hpage : 0 <= cs1 / 65536 < 65536) by (Z.div_mod_to_equations; lia).
    destruct (uint32 cur1 =? cs1 / 65536) eqn:E.
    + apply Z.eqb_eq in E.
      assert (cur1 = cs1 / 65536).
      { destruct Hcur as [-> | Hc]; [change (uint32 (-1)) with 4294967295 in E; lia |].
        rewrite uint32_small in E by lia. exact E. }
      subst cur1. cbn [app ela_framed].
      assert (Hst : ela_state (cs1 / 65536) = Some (cs1 / 65536)).
      { unfold ela_state. destruct (cs1 / 65536 =? -1) eqn:E1; [lia | reflexivity]. }
      rewrite Hst in *. split; [reflexivity |].
      apply IH. right. destruct (chunk_size_bounds cs1 end_ ltac:(lia)).
      Z.div_mod_to_equations. lia.
    + apply Z.eqb_neq in E. cbn [app ela_framed].
      assert (Hst : ela_state (cs1 / 65536) = Some (cs1 / 65536)).
      { unfold ela_state. destruct (cs1 / 65536 =? -1) eqn:E1; [lia | reflexivity]. }
      rewrite Hst in IH.
      repeat split.
      * unfold ela_state. destruct (cur1 =? -1) eqn:E1; [exact I |].
        destruct Hcur as [-> | Hc]; [discriminate |].
        rewrite uint32_small in E by lia. lia.
      * apply IH. right. destruct (chunk_size_bounds cs1 end_ ltac:(lia)).
        Z.div_mod_to_equations. lia.
  - exists recs. split; [exact Hw | apply HP; exact Hcur].
Qed.

(* ------------------------------------------------------------------ *)
(** ** Characters and the two conversions *)

Lemma code_range (c : ascii) : 0 <= code c < 256.
Proof.
  unfold code. pose proof (N_ascii_bounded c) as H. lia.
Qed.

Lemma code_chr (z : Z) : 0 <= z < 256 -> code (chr z) = z.
Proof.
  intros H. unfold code, chr. rewrite N_ascii_embedding by lia. lia.
Qed.

Lemma chr_code (c : ascii) : chr (code c) = c.
Proof. unfold code, chr. rewrite N2Z.id. apply ascii_N_embedding. Qed.

Lemma hexval_hexdigit (v : Z) : 0 <= v < 16 -> hexval (hexdigit v) = Some v.
Proof.
  intros H.
  assert (Hv : v = 0 \/ v = 1 \/ v = 2 \/ v = 3 \/ v = 4 \/ v = 5 \/ v = 6 \/ v = 7
               \/ v = 8 \/ v = 9 \/ v = 10 \/ v = 11 \/ v = 12 \/ v = 13 \/ v = 14
               \/ v = 15) by lia.
  repeat (destruct Hv as [-> | Hv]; [reflexivity |]). subst v. reflexivity.
Qed.

Lemma is_hex_code (c : ascii) :
  is_hex c = true ->
  48 <= code c <= 57 \/ 65 <= code c <= 70 \/ 97 <= code c <= 102.
Proof.
  unfold is_hex, hexval. intros H.
  destruct ((48 <=? code c) && (code c <=? 57)) eqn:E1; [lia |].
  destruct ((65 <=? code c) && (code c <=? 70)) eqn:E2; [lia |].
  destruct ((97 <=? code c) && (code c <=? 102)) eqn:E3; [lia | discriminate].
Qed.

Lemma is_hex_hexdigit (v : Z) : 0 <= v < 16 -> is_hex (hexdigit v) = true.
Proof. intros H. unfold is_hex. now rewrite hexval_hexdigit. Qed.

Lemma digit_range (c : ascii) : 0 <= digit c < 16.
Proof.
  unfold digit, hexval.
  destruct ((48 <=? code c) && (code c <=? 57)) eqn:E1; [lia |].
  destruct ((65 <=? code c) && (code c <=? 70)) eqn:E2; [lia |].
  destruct ((97 <=? code c) && (code c <=? 102)) eqn:E3; lia.
Qed.

Lemma hexval_digit (c : ascii) : is_hex c = true -> hexval c = Some (digit c).
Proof. unfold is_hex, digit. destruct (hexval c); [reflexivity | discriminate]. Qed.

Lemma is_hex_not_space (c : ascii) : is_hex c = true -> isspace c = false.
Proof. intros H. apply is_hex_code in H. unfold isspace. lia. Qed.

Lemma is_hex_not_x (c : ascii) : is_hex c = true -> is_x c = false.
Proof. intros H. apply is_hex_code in H. unfold is_x. lia. Qed.

Lemma scan_digits_hex (ds rest : list ascii) (acc : Z) (n : nat) :
  forallb is_hex ds = true ->
  scan_digits (List.length ds) acc n (ds ++ rest)
  = (fold_left (fun a c => 16 * a + digit c) ds acc, (n + List.length ds)%nat, rest).
Proof.
  revert acc n. induction ds as [| d ds IH]; intros acc n H.
  - simpl. rewrite Nat.add_0_r. destruct rest; reflexivity.
  - simpl in H. apply andb_prop in H as [Hd Hds].
    cbn [List.length app scan_digits fold_left].
    rewrite (hexval_digit d Hd). rewrite IH by exact Hds.
    f_equal. f_equal. lia.
Qed.

Lemma scan_unsigned_hex (ds rest : list ascii) :
  ds <> [] ->
  forallb is_hex ds = true ->
  scan_unsigned (List.length ds) (ds ++ rest) = Some (hexnum ds, rest).
Proof.
  intros Hne H.
  assert (Hd : match scan_digits (List.length ds) 0 0 (ds ++ rest) with
               | (_, O, _) => None
               | (v, _, r) => Some (v, r)
               end = Some (hexnum ds, rest)).
  { rewrite scan_digits_hex by exact H. destruct ds; [congruence | reflexivity]. }
  destruct ds as [| c0 [| cx ds]]; [congruence | exact Hd |].
  cbn [List.length app scan_unsigned] in *.
  simpl in H. apply andb_prop in H as [_ H]. apply andb_prop in H as [Hx _].
  rewrite (is_hex_not_x cx Hx), andb_false_r. exact Hd.
Qed.

Lemma scan_x_hex (ds rest : list ascii) :
  ds <> [] ->
  forallb is_hex ds = true ->
  scan_x (List.length ds) (ds ++ rest) = Some (hexnum ds, rest).
Proof.
  intros Hne H. unfold scan_x.
  destruct ds as [| c ds]; [congruence |].
  assert (Hc : is_hex c = true) by (simpl in H; now apply andb_prop in H).
  cbn [app skip_space]. rewrite (is_hex_not_space c Hc).
  pose proof (is_hex_code c Hc) as Hr.
  replace (code c =? 45) with false by lia.
  replace (code c =? 43) with false by lia.
  apply (scan_unsigned_hex (c :: ds) rest); [congruence | exact H].
Qed.

Lemma hexnum_pair (a b : ascii) : hexnum [a; b] = 16 * digit a + digit b.
Proof. unfold hexnum. simpl. lia. Qed.

Lemma hexnum_pair_range (a b : ascii) : 0 <= hexnum [a; b] < 256.
Proof.
  rewrite hexnum_pair. pose proof (digit_range a). pose proof (digit_range b). lia.
Qed.

(** printf's [%02X] of a byte and [%04X] of a 16-bit value. *)
Lemma nibble_land (v k : Z) : 0 <= k -> Z.land (Z.shiftr v (4 * k)) 15 = (v / 2 ^ (4 * k)) mod 16.
Proof.
  intros H. change 15 with (Z.ones 4). rewrite Z.land_ones by lia.
  rewrite Z.shiftr_div_pow2 by lia. reflexivity.
Qed.

Lemma strip0_zero (w : nat) (ds : list Z) :
  (w <= List.length ds)%nat -> strip0 w (0 :: ds) = strip0 w ds.
Proof.
  intros H. cbn [strip0 List.length]. change (0 =? 0) with true.
  replace (w <? S (List.length ds))%nat with true; [reflexivity |].
  symmetry. apply Nat.ltb_lt. lia.
Qed.

Lemma strip0_stop (w : nat) (ds : list Z) :
  (List.length ds <= w)%nat -> strip0 w ds = ds.
Proof.
  intros H. destruct ds as [| d ds]; [reflexivity |].
  cbn [strip0]. replace (w <? List.length (d :: ds))%nat with false.
  - now rewrite andb_false_r.
  - symmetry. apply Nat.ltb_ge. exact H.
Qed.

Lemma fmt_X_2 (v : Z) :
  0 <= v < 256 -> fmt_X 2 v = [hexdigit (v / 16); hexdigit (v mod 16)].
Proof.
  intros H. unfold fmt_X, nibbles8. rewrite uint32_small by lia.
  cbn [map]. rewrite !nibble_land by lia.
  change (2 ^ (4 * 7)) with 268435456. change (2 ^ (4 * 6)) with 16777216.
  change (2 ^ (4 * 5)) with 1048576. change (2 ^ (4 * 4)) with 65536.
  change (2 ^ (4 * 3)) with 4096. change (2 ^ (4 * 2)) with 256.
  change (2 ^ (4 * 1)) with 16. change (2 ^ (4 * 0)) with 1.
  rewrite (Z.div_small v 268435456), (Z.div_small v 16777216),
    (Z.div_small v 1048576), (Z.div_small v 65536), (Z.div_small v 4096),
    (Z.div_small v 256) by lia.
  rewrite Z.div_1_r.
  rewrite (Z.mod_small (v / 16) 16) by (Z.div_mod_to_equations; lia).
  change (0 mod 16) with 0. change (Nat.max 2 1) with 2%nat.
  rewrite !strip0_zero by (cbn [List.length]; lia).
  rewrite strip0_stop by (cbn [List.length]; lia).
  reflexivity.
Qed.

Lemma fmt_X_4 (v : Z) :
  0 <= v < 65536 -> fmt_X 4 v = fmt_X 2 (v / 256) ++ fmt_X 2 (v mod 256).
Proof.
  intros H.
  rewrite !fmt_X_2 by (Z.div_mod_to_equations; lia).
  unfold fmt_X, nibbles8. rewrite uint32_small by lia.
  cbn [map]. rewrite !nibble_land by lia.
  change (2 ^ (4 * 7)) with 268435456. change (2 ^ (4 * 6)) with 16777216.
  change (2 ^ (4 * 5)) with 1048576. change (2 ^ (4 * 4)) with 65536.
  change (2 ^ (4 * 3)) with 4096. change (2 ^ (4 * 2)) with 256.
  change (2 ^ (4 * 1)) with 16. change (2 ^ (4 * 0)) with 1.
  rewrite (Z.div_small v 268435456), (Z.div_small v 16777216),
    (Z.div_small v 1048576), (Z.div_small v 65536) by lia.
  rewrite Z.div_1_r.
  change (0 mod 16) with 0. change (Nat.max 4 1) with 4%nat.
  rewrite !strip0_zero by (cbn [List.length]; lia).
  rewrite strip0_stop by (cbn [List.length]; lia).
  cbn [map app].
  replace ((v / 4096) mod 16) with (v / 256 / 16) by (Z.div_mod_to_equations; lia).
  replace ((v / 16) mod 16) with (v mod 256 / 16) by (Z.div_mod_to_equations; lia).
  replace (v mod 16) with ((v mod 256) mod 16) by (Z.div_mod_to_equations; lia).
  reflexivity.
Qed.

(* ------------------------------------------------------------------ *)
(** ** The line array: fgets, strlen and the carriage-return test *)

(** The character at index [strlen(line)] is the terminating NUL, so the
    test [line[strlen(line)] == '\r'] never holds. *)
Lemma nth_strlen_nul (a : list ascii) :
  code (nth (List.length (cstr a)) a NUL) = 0.
Proof.
  induction a as [| c r IH]; [reflexivity |].
  cbn [cstr]. destruct (code c =? 0) eqn:E.
  - cbn [List.length nth]. lia.
  - cbn [List.length nth]. exact IH.
Qed.

Lemma strip_cr_id (line : list ascii) : strip_cr line = line.
Proof.
  unfold strip_cr, strlen. rewrite Nat2Z.id, nth_strlen_nul. reflexivity.
Qed.

Lemma is_hex_plain (c : ascii) : is_hex c = true -> plain c = true.
Proof. intros H. apply is_hex_code in H. unfold plain. lia. Qed.

Lemma cstr_app_nul (w stale : list ascii) :
  nonul w = true ->
  cstr (w ++ NUL :: stale) = w.
Proof.
  induction w as [| c w IH]; intros H.
  - reflexivity.
  - simpl in H. apply andb_prop in H as [Hc Hw].
    cbn [app cstr]. destruct (code c =? 0); [discriminate |].
    now rewrite IH.
Qed.

Lemma fgets_chars_line (n : nat) (l rest : list ascii) :
  forallb plain l = true ->
  (List.length l < n)%nat ->
  fgets_chars n (l ++ LF :: rest) = (l ++ [LF], rest).
Proof.
  revert n. induction l as [| c l IH]; intros n H Hn.
  - destruct n; [lia |]. reflexivity.
  - simpl in H. apply andb_prop in H as [Hc Hl].
    destruct n; [simpl in Hn; lia |].
    cbn [app fgets_chars].
    replace (code c =? 10) with false by (unfold plain in Hc; lia).
    rewrite IH; [reflexivity | exact Hl | simpl in Hn; lia].
Qed.

Lemma fgets_line (line l rest : list ascii) :
  forallb plain l = true ->
  (List.length l < 522)%nat ->
  fgets line 523 (l ++ LF :: rest)
  = Some ((l ++ [LF]) ++ NUL :: skipn (S (List.length (l ++ [LF]))) line, rest).
Proof.
  intros H Hn. unfold fgets.
  change (Nat.pred 523) with 522%nat.
  rewrite fgets_chars_line by assumption.
  destruct l; reflexivity.
Qed.

Lemma plain_no_nul (l : list ascii) :
  forallb plain l = true -> nonul l = true.
Proof.
  induction l as [| c l IH]; [reflexivity |]. simpl. intros H.
  apply andb_prop in H as [Hc Hl]. rewrite IH by exact Hl.
  unfold plain in Hc. lia.
Qed.

(** In an array that holds the NUL-free text [pre ++ suf] and then a NUL, the
    string at index [length pre] is [suf]. *)
Lemma cstr_at (pre suf stale : list ascii) (i : Z) :
  i = Z.of_nat (List.length pre) ->
  nonul suf = true ->
  cstr (at_ ((pre ++ suf) ++ NUL :: stale) i) = suf.
Proof.
  intros -> H. unfold at_. rewrite Nat2Z.id, <- app_assoc.
  rewrite skipn_app, skipn_all, Nat.sub_diag. cbn [app skipn].
  now apply cstr_app_nul.
Qed.

Lemma strlen_app_nul (w stale : list ascii) :
  nonul w = true ->
  strlen (w ++ NUL :: stale) = Z.of_nat (List.length w).
Proof. intros H. unfold strlen. now rewrite cstr_app_nul. Qed.

(* ------------------------------------------------------------------ *)
(** ** The decoder on one well-formed line *)

Lemma nonul_app (a b : list ascii) : nonul (a ++ b) = nonul a && nonul b.
Proof. apply forallb_app. Qed.

Lemma hexes_plain (l : list ascii) :
  forallb is_hex l = true -> forallb plain l = true.
Proof.
  induction l as [| c l IH]; [reflexivity |]. simpl. intros H.
  apply andb_prop in H as [Hc Hl]. now rewrite (is_hex_plain c Hc), IH.
Qed.

Lemma pairs_hexes (ps : list (ascii * ascii)) :
  forallb pair_hex ps = true -> forallb is_hex (flat_map pair_chars ps) = true.
Proof.
  induction ps as [| [a b] ps IH]; [reflexivity |]. simpl. intros H.
  apply andb_prop in H as [Hp Hps]. unfold pair_hex in Hp. simpl in Hp.
  apply andb_prop in Hp as [Ha Hb]. now rewrite Ha, Hb, IH.
Qed.

Lemma pair_hexes (p : ascii * ascii) :
  pair_hex p = true -> forallb is_hex (pair_chars p) = true.
Proof.
  destruct p as [a b]. unfold pair_hex. simpl. intros H.
  apply andb_prop in H as [Ha Hb]. now rewrite Ha, Hb.
Qed.

Lemma length_pairs (ps : list (ascii * ascii)) :
  List.length (flat_map pair_chars ps) = (2 * List.length ps)%nat.
Proof. induction ps as [| p ps IH]; simpl; lia. Qed.

Section DataLoop.

Variables (start end_ line_no chunk_len chunk_addr offset : Z).
Variables (cc : ascii * ascii) (stale : list ascii).
Hypothesis cc_hex : pair_hex cc = true.

Lemma tail_nonul (pairs : list (ascii * ascii)) :
  forallb pair_hex pairs = true -> nonul (tail_of cc pairs) = true.
Proof.
  intros H. unfold tail_of. rewrite !nonul_app.
  rewrite (plain_no_nul _ (hexes_plain _ (pairs_hexes _ H))).
  rewrite (plain_no_nul _ (hexes_plain _ (pair_hexes _ cc_hex))).
  reflexivity.
Qed.

Lemma tail_length (pairs : list (ascii * ascii)) :
  List.length (tail_of cc pairs) = (2 * List.length pairs + 3)%nat.
Proof.
  unfold tail_of. rewrite !length_app, length_pairs.
  destruct cc. simpl. lia.
Qed.

(** The first conversion [%02x] on a tail reads its first two digits. *)
Lemma scan_tail (pairs : list (ascii * ascii)) :
  forallb pair_hex pairs = true ->
  exists rest,
    scan_x 2 (tail_of cc pairs)
    = Some (hexnum (pair_chars (hd cc pairs)), rest).
Proof.
  intros H. unfold tail_of. destruct pairs as [| p ps].
  - cbn [flat_map app hd]. exists [LF].
    apply (scan_x_hex (pair_chars cc) [LF]).
    + destruct cc; discriminate.
    + now apply pair_hexes.
  - cbn [flat_map hd]. rewrite <- app_assoc. eexists.
    simpl in H. apply andb_prop in H as [Hp _].
    apply (scan_x_hex (pair_chars p)).
    + destruct p; discriminate.
    + now apply pair_hexes.
Qed.

(** A Data line whose range checks pass: every payload byte is stored, then
    the checksum field ends the loop. *)
Lemma data_loop_chunk (pairs : list (ascii * ascii)) :
  forall (pre : list ascii) (k : Z) (fuel : nat) (s : wstate) (line : list ascii),
    line = (pre ++ tail_of cc pairs) ++ NUL :: stale ->
    forallb pair_hex pairs = true ->
    nonul pre = true ->
    Z.of_nat (List.length pre) = 9 + 2 * k -> 0 <= k ->
    chunk_len = k + Z.of_nat (List.length pairs) ->
    (List.length pairs < fuel)%nat ->
    (uint32 (chunk_addr + offset) <? start) = false ->
    (uint32 (chunk_addr + offset + chunk_len) >? end_) = false ->
    data_loop fuel start end_ line line_no chunk_len chunk_addr 0 offset (9 + 2 * k) s
    = Ok (store_chunk start chunk_len chunk_addr offset k
            (map (fun p => hexnum (pair_chars p)) pairs) s).
Proof.
  induction pairs as [| p ps IH]; intros pre k fuel s line HL Hps Hpre Hlen Hk Hcl Hf Hlo Hhi.
  - destruct fuel as [| fuel]; [simpl in Hf; lia |].
    cbn [data_loop map store_chunk].
    assert (Hstr : strlen line = 9 + 2 * k + 3).
    { rewrite HL, strlen_app_nul.
      - rewrite length_app, tail_length. simpl List.length. lia.
      - rewrite nonul_app, Hpre. now apply tail_nonul. }
    rewrite Hstr.
    replace (9 + 2 * k <? 9 + 2 * k + 3 - 1) with true by lia.
    rewrite HL, (cstr_at pre (tail_of cc []) stale) by (try lia; now apply tail_nonul).
    destruct (scan_tail [] eq_refl) as (rest & ->).
    cbn [negb]. change (0 =? 0) with true. cbn [negb].
    replace ((9 + 2 * k - 9) / 2) with k by (Z.div_mod_to_equations; lia).
    replace (k >=? chunk_len) with true by (simpl in Hcl; lia).
    reflexivity.
  - destruct fuel as [| fuel]; [simpl in Hf; lia |].
    simpl in Hps. apply andb_prop in Hps as [Hp Hps].
    cbn [data_loop map store_chunk].
    assert (Hstr : strlen line = 9 + 2 * k + 2 * Z.of_nat (List.length (p :: ps)) + 3).
    { rewrite HL, strlen_app_nul.
      - rewrite length_app, tail_length. lia.
      - rewrite nonul_app, Hpre. apply tail_nonul. simpl. now rewrite Hp, Hps. }
    rewrite Hstr.
    replace (9 + 2 * k <? 9 + 2 * k + 2 * Z.of_nat (List.length (p :: ps)) + 3 - 1)
      with true by lia.
    rewrite HL at 1.
    rewrite (cstr_at pre (tail_of cc (p :: ps)) stale)
      by (try lia; apply tail_nonul; simpl; now rewrite Hp, Hps).
    destruct (scan_tail (p :: ps)) as (rest & ->); [simpl; now rewrite Hp, Hps |].
    cbn [hd]. change (0 =? 0) with true. cbn [negb].
    replace ((9 + 2 * k - 9) / 2) with k by (Z.div_mod_to_equations; lia).
    replace (k >=? chunk_len) with false by (cbn [List.length] in Hcl; lia).
    rewrite Hlo, Hhi.
    assert (Hb : hexnum (pair_chars p) mod 256 = hexnum (pair_chars p)).
    { destruct p as [a b]. apply Z.mod_small. apply hexnum_pair_range. }
    rewrite Hb.
    replace (9 + 2 * k + 2) with (9 + 2 * (k + 1)) by lia.
    apply (IH (pre ++ pair_chars p)).
    + rewrite HL. unfold tail_of. cbn [flat_map]. now rewrite <- !app_assoc.
    + exact Hps.
    + rewrite nonul_app, Hpre. apply plain_no_nul, hexes_plain. now apply pair_hexes.
    + rewrite length_app. destruct p. simpl List.length. lia.
    + lia.
    + cbn [List.length] in Hcl. lia.
    + simpl in Hf. lia.
    + exact Hlo.
    + exact Hhi.
Qed.

End DataLoop.

Lemma scan_x_2 (a b : ascii) (rest : list ascii) :
  is_hex a = true -> is_hex b = true ->
  scan_x 2 (a :: b :: rest) = Some (hexnum [a; b], rest).
Proof.
  intros Ha Hb. apply (scan_x_hex [a; b] rest); [discriminate |].
  simpl. now rewrite Ha, Hb.
Qed.

Lemma scan_x_4 (a b c d : ascii) (rest : list ascii) :
  is_hex a = true -> is_hex b = true -> is_hex c = true -> is_hex d = true ->
  scan_x 4 (a :: b :: c :: d :: rest) = Some (hexnum [a; b; c; d], rest).
Proof.
  intros Ha Hb Hc Hd. apply (scan_x_hex [a; b; c; d] rest); [discriminate |].
  simpl. now rewrite Ha, Hb, Hc, Hd.
Qed.

(** The first iteration of the loop on a well-formed line. *)
Lemma data_loop_first (start end_ line_no chunk_len chunk_addr chunk_type offset : Z)
    (cc : ascii * ascii) (stale pre line : list ascii)
    (pairs : list (ascii * ascii)) (fuel : nat) (s : wstate) :
  pair_hex cc = true ->
  forallb pair_hex pairs = true ->
  line = (pre ++ tail_of cc pairs) ++ NUL :: stale ->
  nonul pre = true ->
  List.length pre = 9%nat ->
  data_loop (S fuel) start end_ line line_no chunk_len chunk_addr chunk_type offset 9 s
  = if negb (chunk_type =? 0) then Ok s
    else if 0 >=? chunk_len then Ok s
    else if uint32 (chunk_addr + offset) <? start then
      Err (AddressError chunk_addr line_no) (trace s)
    else if uint32 (chunk_addr + offset + chunk_len) >? end_ then
      Err (AddressLengthError chunk_addr chunk_len line_no) (trace s)
    else
      let b := hexnum (pair_chars (hd cc pairs)) in
      let top := uint32 (chunk_addr + offset + chunk_len) in
      let idx := uint32 (chunk_addr + offset - start + 0) in
      data_loop fuel start end_ line line_no chunk_len chunk_addr chunk_type offset 11
        (mk_wstate (store idx b (buf s))
           (if top >? greatest_addr s then top else greatest_addr s)
           (trace s ++ [mk_event chunk_addr offset chunk_len idx b])).
Proof.
  intros Hcc Hps HL Hpre Hlen.
  cbn [data_loop].
  assert (Hstr : strlen line = 9 + 2 * Z.of_nat (List.length pairs) + 3).
  { rewrite HL, strlen_app_nul.
    - rewrite length_app, (tail_length cc Hcc), Hlen. lia.
    - rewrite nonul_app, Hpre. now apply tail_nonul. }
  rewrite Hstr.
  replace (9 <? 9 + 2 * Z.of_nat (List.length pairs) + 3 - 1) with true by lia.
  rewrite HL at 1.
  rewrite (cstr_at pre (tail_of cc pairs) stale) by (try lia; now apply tail_nonul).
  destruct (scan_tail cc Hcc pairs Hps) as (rest & ->).
  change ((9 - 9) / 2) with 0.
  assert (Hb : hexnum (pair_chars (hd cc pairs)) mod 256 = hexnum (pair_chars (hd cc pairs))).
  { destruct (hd cc pairs) as [a b]. apply Z.mod_small. apply hexnum_pair_range. }
  rewrite Hb. reflexivity.
Qed.

Lemma length_8 {A : Type} (l : list A) :
  List.length l = 8%nat ->
  exists a b c d e f g h, l = [a; b; c; d; e; f; g; h].
Proof.
  intros H.
  do 8 (destruct l as [| ? l]; [discriminate |]).
  destruct l; [| discriminate]. repeat eexists.
Qed.

Lemma wire_ok_inv (w : wire) :
  wire_ok w = true ->
  List.length (w_hdr w) = 8%nat
  /\ forallb is_hex (w_hdr w) = true
  /\ forallb pair_hex (w_data w) = true
  /\ pair_hex (w_sum w) = true
  /\ w_len w = Z.of_nat (List.length (w_data w)).
Proof.
  unfold wire_ok. intros H.
  repeat (apply andb_prop in H as [H ?]).
  repeat split; try assumption.
  - now apply Nat.eqb_eq.
  - now apply Z.eqb_eq.
Qed.

Lemma w_len_range (w : wire) : wire_ok w = true -> 0 <= w_len w < 256.
Proof.
  intros H. apply wire_ok_inv in H as (Hl & _).
  destruct (length_8 _ Hl) as (a & b & c & d & e & f & g & h & Hh).
  unfold w_len. rewrite Hh. cbn [firstn]. apply hexnum_pair_range.
Qed.

Lemma wire_text_split (w : wire) :
  wire_text w = (chr 58 :: w_hdr w) ++ tail_of (w_sum w) (w_data w).
Proof. reflexivity. Qed.

Lemma wire_text_body (w : wire) :
  wire_text w
  = (chr 58 :: w_hdr w ++ flat_map pair_chars (w_data w) ++ pair_chars (w_sum w)) ++ [LF].
Proof.
  unfold wire_text. cbn [app]. f_equal. now rewrite <- !app_assoc.
Qed.

Lemma fgets_wire (line : list ascii) (w : wire) (rest : list ascii) :
  wire_ok w = true ->
  fgets line 523 (wire_text w ++ rest)
  = Some (wire_text w ++ NUL :: skipn (S (List.length (wire_text w))) line, rest).
Proof.
  intros H. pose proof (w_len_range w H) as Hr.
  apply wire_ok_inv in H as (Hl & Hh & Hd & Hs & Hn).
  rewrite wire_text_body.
  match goal with |- context [(?b ++ [LF]) ++ rest] => set (body := b) end.
  replace ((body ++ [LF]) ++ rest) with (body ++ LF :: rest)
    by (now rewrite <- app_assoc).
  apply fgets_line; subst body.
  - cbn [forallb]. change (plain (chr 58)) with true. cbn [andb].
    rewrite !forallb_app.
    rewrite (hexes_plain _ Hh), (hexes_plain _ (pairs_hexes _ Hd)),
      (hexes_plain _ (pair_hexes _ Hs)). reflexivity.
  - cbn [List.length]. rewrite !length_app, length_pairs, Hl.
    destruct (w_sum w). cbn [pair_chars List.length]. lia.
Qed.

Lemma scan_header_wire (w : wire) :
  wire_ok w = true ->
  scan_header (wire_text w) = Some (w_len w, w_addr w, w_type w).
Proof.
  intros H. apply wire_ok_inv in H as (Hl & Hh & _).
  destruct (length_8 _ Hl) as (a & b & c & d & e & f & g & h & Hhdr).
  unfold wire_text, w_len, w_addr, w_type. rewrite Hhdr in *.
  cbn [forallb] in Hh.
  repeat (apply andb_prop in Hh as [? Hh]).
  cbn [app scan_header firstn skipn].
  change (code (chr 58) =? 58) with true. cbv iota.
  rewrite scan_x_2 by assumption.
  rewrite scan_x_4 by assumption.
  rewrite scan_x_2 by assumption.
  reflexivity.
Qed.

Lemma wire_text_nonul (w : wire) : wire_ok w = true -> nonul (wire_text w) = true.
Proof.
  intros H. apply wire_ok_inv in H as (Hl & Hh & Hd & Hs & Hn).
  rewrite wire_text_split, nonul_app.
  rewrite (tail_nonul _ Hs _ Hd), andb_true_r.
  change (nonul (chr 58 :: w_hdr w)) with (true && nonul (w_hdr w)).
  apply plain_no_nul, hexes_plain, Hh.
Qed.

Lemma at_9_wire (w : wire) (stale : list ascii) :
  wire_ok w = true ->
  cstr (at_ (wire_text w ++ NUL :: stale) 9) = tail_of (w_sum w) (w_data w).
Proof.
  intros H. apply wire_ok_inv in H as (Hl & Hh & Hd & Hs & Hn).
  rewrite wire_text_split. apply cstr_at.
  - cbn [List.length]. rewrite Hl. reflexivity.
  - now apply tail_nonul.
Qed.

Lemma ext_offset_wire (w : wire) (stale : list ascii) (offset : Z) :
  wire_ok w = true -> ext_ok w = true ->
  ext_offset (wire_text w ++ NUL :: stale) (w_type w) offset
  = Some (let ext := hexnum (flat_map pair_chars (firstn 2 (w_data w))) in
          if w_type w =? 2 then uint32 (ext * 16)
          else if w_type w =? 4 then uint32 (ext * 65536)
          else offset).
Proof.
  intros H He. unfold ext_offset. rewrite (at_9_wire w stale H).
  unfold ext_ok in He.
  apply wire_ok_inv in H as (Hl & Hh & Hd & Hs & Hn).
  destruct (w_type w =? 2) eqn:E2; [| destruct (w_type w =? 4) eqn:E4; [| reflexivity]].
  - cbn [orb] in He. apply Z.leb_le in He.
    destruct (w_data w) as [| [a1 a2] [| [b1 b2] ps]]; try (cbn [List.length] in Hn; lia).
    cbn [forallb] in Hd.
    apply andb_prop in Hd as [Ha Hd]. apply andb_prop in Hd as [Hb _].
    apply andb_prop in Ha as [Ha1 Ha2]. apply andb_prop in Hb as [Hb1 Hb2].
    cbn [fst snd] in *.
    unfold tail_of. cbn [flat_map pair_chars fst snd app firstn].
    rewrite scan_x_4 by assumption.
    replace (w_type w) with 2 by (symmetry; now apply Z.eqb_eq).
    reflexivity.
  - rewrite orb_true_r in He. apply Z.leb_le in He.
    destruct (w_data w) as [| [a1 a2] [| [b1 b2] ps]]; try (cbn [List.length] in Hn; lia).
    cbn [forallb] in Hd.
    apply andb_prop in Hd as [Ha Hd]. apply andb_prop in Hd as [Hb _].
    apply andb_prop in Ha as [Ha1 Ha2]. apply andb_prop in Hb as [Hb1 Hb2].
    cbn [fst snd] in *.
    unfold tail_of. cbn [flat_map pair_chars fst snd app firstn].
    rewrite scan_x_4 by assumption.
    reflexivity.
Qed.

Lemma read_loop_unfold (fuel : nat) (start end_ : Z) (stream line : list ascii)
    (line_no offset : Z) (s : wstate) :
  read_loop (S fuel) start end_ stream line line_no offset s
  = match fgets line 523 stream with
    | None => Returned (int32 (uint32 (greatest_addr s - start))) (buf s) (trace s)
    | Some (line, stream) =>
        let line_no := uint32 (line_no + 1) in
        let line := strip_cr line in
        match scan_header (cstr line) with
        | None => Failed (ParseError line_no) (trace s)
        | Some (chunk_len, chunk_addr, chunk_type) =>
            match ext_offset line chunk_type offset with
            | None => Failed (ParseError line_no) (trace s)
            | Some offset =>
                match
                  data_loop (List.length line) start end_ line line_no
                    chunk_len chunk_addr chunk_type offset 9 s
                with
                | Ok s => read_loop fuel start end_ stream line line_no offset s
                | Err e t => Failed e t
                | NoFuel => Fuel
                end
            end
        end
    end.
Proof. reflexivity. Qed.

(** One well-formed line: [read_loop] does what [wire_step] says, whatever
    the array [line] held before. *)
Lemma read_loop_wire (start end_ : Z) (w : wire) (fuel : nat)
    (rest line : list ascii) (line_no offset : Z) (s : wstate) :
  wire_ok w = true -> ext_ok w = true ->
  read_loop (S fuel) start end_ (wire_text w ++ rest) line line_no offset s
  = match wire_step start end_ (uint32 (line_no + 1)) w offset s with
    | Ok (offset, s) =>
        read_loop fuel start end_ rest
          (wire_text w ++ NUL :: skipn (S (List.length (wire_text w))) line)
          (uint32 (line_no + 1)) offset s
    | Err e t => Failed e t
    | NoFuel => Fuel
    end.
Proof.
  intros H He.
  rewrite read_loop_unfold, (fgets_wire line w rest H).
  cbv zeta. rewrite strip_cr_id.
  set (stale := skipn _ line).
  rewrite (cstr_app_nul _ stale (wire_text_nonul w H)).
  rewrite (scan_header_wire w H).
  rewrite (ext_offset_wire w stale offset H He). cbv zeta.
  pose proof (wire_ok_inv w H) as (Hl & Hh & Hd & Hs & Hn).
  assert (Hfuel : exists n, List.length (wire_text w ++ NUL :: stale) = S n
                            /\ (List.length (w_data w) <= n)%nat).
  { rewrite length_app, wire_text_split, length_app, (tail_length _ Hs).
    cbn [List.length]. eexists. split; [rewrite Nat.add_succ_r; reflexivity | lia]. }
  destruct Hfuel as (n & -> & Hn').
  assert (HL : wire_text w ++ NUL :: stale
               = ((chr 58 :: w_hdr w) ++ tail_of (w_sum w) (w_data w)) ++ NUL :: stale)
    by reflexivity.
  assert (Hpre : nonul (chr 58 :: w_hdr w) = true).
  { change (nonul (chr 58 :: w_hdr w)) with (true && nonul (w_hdr w)).
    apply plain_no_nul, hexes_plain, Hh. }
  assert (Hplen : List.length (chr 58 :: w_hdr w) = 9%nat)
    by (cbn [List.length]; now rewrite Hl).
  unfold wire_step.
  destruct (w_type w =? 0) eqn:E0.
  - (* Data *)
    replace (w_type w =? 2) with false by (apply Z.eqb_eq in E0; lia).
    replace (w_type w =? 4) with false by (apply Z.eqb_eq in E0; lia).
    replace (w_type w) with 0 by (symmetry; now apply Z.eqb_eq).
    destruct (w_bytes w) as [| b0 bs] eqn:Eb.
    + rewrite (data_loop_first _ _ _ _ _ _ _ _ _ _ _ _ _ _ Hs Hd HL Hpre Hplen).
      change (0 =? 0) with true. cbn [negb].
      assert (w_len w = 0).
      { rewrite Hn. unfold w_bytes in Eb. destruct (w_data w); [reflexivity | discriminate]. }
      replace (0 >=? w_len w) with true by lia. reflexivity.
    + assert (Hpos : 1 <= w_len w).
      { rewrite Hn. unfold w_bytes in Eb. destruct (w_data w); [discriminate |].
        cbn [List.length]. lia. }
      destruct (uint32 (w_addr w + offset) <? start) eqn:Elo.
      { rewrite (data_loop_first _ _ _ _ _ _ _ _ _ _ _ _ _ _ Hs Hd HL Hpre Hplen).
        change (0 =? 0) with true. cbn [negb].
        replace (0 >=? w_len w) with false by lia. rewrite Elo. reflexivity. }
      destruct (uint32 (w_addr w + offset + w_len w) >? end_) eqn:Ehi.
      { rewrite (data_loop_first _ _ _ _ _ _ _ _ _ _ _ _ _ _ Hs Hd HL Hpre Hplen).
        change (0 =? 0) with true. cbn [negb].
        replace (0 >=? w_len w) with false by lia. rewrite Elo, Ehi. reflexivity. }
      change 9 with (9 + 2 * 0).
      rewrite (data_loop_chunk start end_ (uint32 (line_no + 1)) (w_len w) (w_addr w)
                 offset (w_sum w) stale Hs (w_data w) (chr 58 :: w_hdr w) 0 (S n) s
                 _ HL Hd Hpre); try assumption; try lia;
        try (rewrite Hplen; reflexivity).
      rewrite <- Eb. reflexivity.
  - (* any other type *)
    rewrite (data_loop_first _ _ _ _ _ _ _ _ _ _ _ _ _ _ Hs Hd HL Hpre Hplen).
    rewrite E0. cbn [negb].
    destruct (w_type w =? 2); [reflexivity |].
    destruct (w_type w =? 4); reflexivity.
Qed.

(* ------------------------------------------------------------------ *)
(** ** The decoder on a text of well-formed lines *)

Lemma wires_length (ws : list wire) :
  (List.length ws <= List.length (flat_map wire_text ws))%nat.
Proof.
  induction ws as [| w ws IH]; [simpl; lia |].
  cbn [flat_map]. rewrite length_app. unfold wire_text at 1.
  cbn [List.length]. lia.
Qed.

Lemma read_loop_wires (start end_ : Z) (ws : list wire) :
  wires_ok ws = true ->
  forall (fuel : nat) (line : list ascii) (line_no offset : Z) (s : wstate),
    (List.length ws <= fuel)%nat ->
    read_loop fuel start end_ (flat_map wire_text ws) line line_no offset s
    = decode_wires start end_ ws line_no offset s.
Proof.
  induction ws as [| w ws IH]; intros H fuel line line_no offset s Hf.
  - destruct fuel; reflexivity.
  - destruct fuel as [| fuel]; [simpl in Hf; lia |].
    cbn [wires_ok forallb] in H. apply andb_prop in H as [Hw Hws].
    apply andb_prop in Hw as [Hok Hext].
    cbn [flat_map decode_wires].
    rewrite (read_loop_wire start end_ w fuel _ line line_no offset s Hok Hext).
    destruct (wire_step start end_ (uint32 (line_no + 1)) w offset s) as [[o s'] | e t |];
      try reflexivity.
    apply IH; [exact Hws | simpl in Hf; lia].
Qed.

Lemma ihex_read_wires (line : list ascii) (ws : list wire) (b : list Z) (start end_ : Z) :
  wires_ok ws = true ->
  ihex_read line (flat_map wire_text ws) b start end_
  = decode_wires start end_ ws 0 0 (mk_wstate b 0 []).
Proof.
  intros H. unfold ihex_read. apply read_loop_wires; [exact H | apply wires_length].
Qed.

Lemma wire_step_same (start end_ line_no : Z) (w1 w2 : wire) (offset : Z) (s : wstate) :
  same_but_sum w1 w2 ->
  wire_step start end_ line_no w1 offset s = wire_step start end_ line_no w2 offset s.
Proof.
  intros [Hh Hd]. unfold wire_step, w_type, w_addr, w_len, w_bytes.
  now rewrite Hh, Hd.
Qed.

Lemma decode_wires_same (start end_ : Z) (ws1 ws2 : list wire) :
  Forall2 same_but_sum ws1 ws2 ->
  forall (line_no offset : Z) (s : wstate),
    decode_wires start end_ ws1 line_no offset s
    = decode_wires start end_ ws2 line_no offset s.
Proof.
  induction 1 as [| w1 w2 ws1 ws2 Hw _ IH]; intros line_no offset s; [reflexivity |].
  cbn [decode_wires]. rewrite (wire_step_same _ _ _ w1 w2 _ _ Hw).
  destruct (wire_step start end_ (uint32 (line_no + 1)) w2 offset s) as [[o s'] | e t |];
    try reflexivity.
  apply IH.
Qed.

(* ------------------------------------------------------------------ *)
(** ** The lines the encoder writes are well-formed lines *)

Lemma fmt_X_2_pair (v : Z) : is_byte v -> fmt_X 2 v = pair_chars (byte_pair v).
Proof. intros H. now rewrite fmt_X_2. Qed.

Lemma digit_hexdigit (v : Z) : 0 <= v < 16 -> digit (hexdigit v) = v.
Proof. intros H. unfold digit. now rewrite hexval_hexdigit. Qed.

Lemma hexnum_byte_pair (v : Z) : is_byte v -> hexnum (pair_chars (byte_pair v)) = v.
Proof.
  intros H. unfold byte_pair, pair_chars. cbn [fst snd].
  rewrite hexnum_pair, !digit_hexdigit; unfold is_byte in H; Z.div_mod_to_equations; lia.
Qed.

Lemma pair_hex_byte_pair (v : Z) : is_byte v -> pair_hex (byte_pair v) = true.
Proof.
  intros H. unfold pair_hex, byte_pair. cbn [fst snd].
  rewrite !is_hex_hexdigit; [reflexivity | |]; unfold is_byte in H;
    Z.div_mod_to_equations; lia.
Qed.

Lemma bytes_pairs_hex (bytes : list Z) :
  Forall is_byte bytes -> forallb pair_hex (map byte_pair bytes) = true.
Proof.
  induction 1 as [| v l Hv _ IH]; [reflexivity |].
  cbn [map forallb]. now rewrite pair_hex_byte_pair, IH.
Qed.

Lemma bytes_pairs_val (bytes : list Z) :
  Forall is_byte bytes ->
  map (fun p => hexnum (pair_chars p)) (map byte_pair bytes) = bytes.
Proof.
  induction 1 as [| v l Hv _ IH]; [reflexivity |].
  cbn [map]. now rewrite hexnum_byte_pair, IH.
Qed.

Lemma bytes_pairs_text (bytes : list Z) :
  Forall is_byte bytes ->
  flat_map (fmt_X 2) bytes = flat_map pair_chars (map byte_pair bytes).
Proof.
  induction 1 as [| v l Hv _ IH]; [reflexivity |].
  cbn [map flat_map]. now rewrite fmt_X_2_pair, IH.
Qed.

Lemma hexnum_4 (a b c d : ascii) :
  hexnum [a; b; c; d] = 4096 * digit a + 256 * digit b + 16 * digit c + digit d.
Proof. unfold hexnum. cbn [fold_left]. lia. Qed.

Lemma hexnum_two_pairs (v : Z) :
  0 <= v < 65536 ->
  hexnum (pair_chars (byte_pair (v / 256)) ++ pair_chars (byte_pair (v mod 256))) = v.
Proof.
  intros H. unfold byte_pair, pair_chars. cbn [fst snd app].
  rewrite hexnum_4, !digit_hexdigit; Z.div_mod_to_equations; lia.
Qed.

Lemma render_wire (r : record) : rec_good r -> render r = wire_text (wire_of r).
Proof.
  destruct r as [cur sum | len cs bytes sum |]; cbn [rec_good render wire_of].
  - intros (Hc & Hs). unfold wire_text. cbn [w_hdr w_data w_sum flat_map].
    rewrite fmt_X_4 by exact Hc.
    rewrite !fmt_X_2_pair by (unfold is_byte in *; try assumption; Z.div_mod_to_equations; lia).
    change (str ":02000004") with (chr 58 :: str "02000004").
    cbn [app]. now rewrite <- !app_assoc.
  - intros (Hl & Hn & Hb & Hs). unfold wire_text. cbn [w_hdr w_data w_sum].
    rewrite bytes_pairs_text by exact Hb.
    rewrite (fmt_X_2_pair sum) by exact Hs.
    change (str ":") with [chr 58]. cbn [app]. now rewrite <- !app_assoc.
  - intros _. reflexivity.
Qed.

Lemma wire_of_fields (r : record) :
  rec_good r ->
  w_len (wire_of r) = rec_len r
  /\ w_addr (wire_of r) = rec_addr r
  /\ w_type (wire_of r) = rec_type r
  /\ w_bytes (wire_of r) = rec_bytes r.
Proof.
  destruct r as [cur sum | len cs bytes sum |]; cbn [rec_good wire_of].
  - intros (Hc & Hs). repeat split; try reflexivity.
    unfold w_bytes. cbn [w_data map rec_bytes].
    rewrite !hexnum_byte_pair; [reflexivity | |]; unfold is_byte;
      Z.div_mod_to_equations; lia.
  - intros (Hl & Hn & Hb & Hs).
    assert (Ha : 0 <= Z.land cs 0xffff < 65536)
      by (rewrite land_ffff; apply Z.mod_pos_bound; lia).
    unfold w_len, w_addr, w_type, w_bytes. cbn [w_hdr w_data rec_len rec_addr rec_type rec_bytes].
    rewrite fmt_X_4 by exact Ha.
    rewrite !fmt_X_2_pair by (unfold is_byte; try assumption; Z.div_mod_to_equations; lia).
    unfold pair_chars at 1 2 3. cbn [app firstn skipn].
    repeat split.
    + apply (hexnum_byte_pair len). exact Hl.
    + apply (hexnum_two_pairs _ Ha).
    + now apply bytes_pairs_val.
  - intros _. repeat split; reflexivity.
Qed.

Lemma wire_of_ok (r : record) :
  rec_good r -> wire_ok (wire_of r) = true /\ ext_ok (wire_of r) = true.
Proof.
  intros H. pose proof (wire_of_fields r H) as (Hl & Ha & Ht & Hb).
  split.
  - unfold wire_ok. rewrite Hl.
    destruct r as [cur sum | len cs bytes sum |]; cbn [rec_good wire_of] in *.
    + destruct H as (Hc & Hs). cbn [w_hdr w_data w_sum rec_len forallb].
      rewrite !pair_hex_byte_pair by (unfold is_byte in *; try assumption; Z.div_mod_to_equations; lia).
      reflexivity.
    + destruct H as (Hlen & Hn & Hby & Hs).
      assert (Hadr : 0 <= Z.land cs 0xffff < 65536)
        by (rewrite land_ffff; apply Z.mod_pos_bound; lia).
      cbn [w_hdr w_data w_sum rec_len].
      rewrite fmt_X_4 by exact Hadr.
      rewrite !fmt_X_2 by (try assumption; Z.div_mod_to_equations; lia).
      cbn [app List.length forallb Nat.eqb].
      rewrite !is_hex_hexdigit by (Z.div_mod_to_equations; lia).
      change (is_hex "0") with true.
      rewrite (bytes_pairs_hex _ Hby), (pair_hex_byte_pair _ Hs), length_map.
      cbn [andb]. apply Z.eqb_eq. lia.
    + reflexivity.
  - unfold ext_ok. rewrite Hl, Ht. destruct r; reflexivity.
Qed.

(* ------------------------------------------------------------------ *)
(** ** Stores into the destination array *)

Lemma upd_length {A : Type} (n : nat) (v : A) (l : list A) :
  List.length (upd n v l) = List.length l.
Proof.
  revert n. induction l as [| x l IH]; intros n; [reflexivity |].
  destruct n; cbn [upd List.length]; [reflexivity | now rewrite IH].
Qed.

Lemma firstn_upd {A : Type} (n : nat) (v : A) (l : list A) :
  (n < List.length l)%nat -> firstn (S n) (upd n v l) = firstn n l ++ [v].
Proof.
  revert n. induction l as [| x l IH]; intros n H; [simpl in H; lia |].
  destruct n as [| n]; [reflexivity |].
  cbn [upd]. rewrite (firstn_cons (S n)), IH by (simpl in H; lia). reflexivity.
Qed.

Lemma skipn_cons_inv {A : Type} (n : nat) (l : list A) (x : A) (r : list A) :
  skipn n l = x :: r ->
  firstn (S n) l = firstn n l ++ [x] /\ skipn (S n) l = r.
Proof.
  revert l. induction n as [| n IH]; intros l H.
  - cbn [skipn] in H. subst l. split; reflexivity.
  - destruct l as [| y l]; [discriminate |].
    cbn [skipn] in H. destruct (IH l H) as [Hf Hs].
    split; [| exact Hs]. rewrite (firstn_cons (S n)), Hf. reflexivity.
Qed.

Lemma store_length (idx v : Z) (b : list Z) : List.length (store idx v b) = List.length b.
Proof. unfold store. destruct (idx <? _); [apply upd_length | reflexivity]. Qed.

Section StoreChunk.

Variables (start chunk_len chunk_addr offset : Z) (src : list Z).

Lemma store_chunk_length (bytes : list Z) :
  forall (k : Z) (s : wstate),
    List.length (buf (store_chunk start chunk_len chunk_addr offset k bytes s))
    = List.length (buf s).
Proof.
  induction bytes as [| v r IH]; intros k s; [reflexivity |].
  cbn [store_chunk]. rewrite IH. cbn [buf]. apply store_length.
Qed.

Lemma store_chunk_greatest (bytes : list Z) :
  forall (k : Z) (s : wstate),
    greatest_addr (store_chunk start chunk_len chunk_addr offset k bytes s)
    = match bytes with
      | [] => greatest_addr s
      | _ :: _ => Z.max (greatest_addr s) (uint32 (chunk_addr + offset + chunk_len))
      end.
Proof.
  induction bytes as [| v r IH]; intros k s; [reflexivity |].
  cbn [store_chunk]. rewrite IH. cbn [greatest_addr].
  set (top := uint32 _). set (g := greatest_addr s).
  destruct r; destruct (top >? g) eqn:E; lia.
Qed.

(** Storing the bytes that [src] holds from index [n] on extends the prefix
    on which the array agrees with [src]. *)
Lemma store_chunk_prefix (bytes : list Z) :
  forall (k : Z) (s : wstate) (n : nat),
    Z.of_nat n = chunk_addr + offset - start + k ->
    Z.of_nat (List.length (buf s)) < 2 ^ 32 ->
    (n + List.length bytes <= List.length (buf s))%nat ->
    firstn n (buf s) = firstn n src ->
    firstn (List.length bytes) (skipn n src) = bytes ->
    (n + List.length bytes <= List.length src)%nat ->
    firstn (n + List.length bytes)
      (buf (store_chunk start chunk_len chunk_addr offset k bytes s))
    = firstn (n + List.length bytes) src.
Proof.
  induction bytes as [| v r IH]; intros k s n Hn H32 Hlen Hpre Hsrc Hsl.
  - cbn [store_chunk List.length]. now rewrite Nat.add_0_r.
  - cbn [store_chunk].
    cbn [List.length] in *.
    destruct (skipn n src) as [| x rest] eqn:Esk.
    { exfalso. assert (List.length (skipn n src) = 0%nat) by now rewrite Esk.
      rewrite length_skipn in H. lia. }
    cbn [firstn] in Hsrc. injection Hsrc as -> Hr.
    destruct (skipn_cons_inv n src v rest Esk) as [Hf Hs].
    replace (n + S (List.length r))%nat with (S n + List.length r)%nat by lia.
    apply (IH (k + 1)).
    + lia.
    + cbn [buf]. now rewrite store_length.
    + cbn [buf]. rewrite store_length. lia.
    + cbn [buf]. unfold store.
      rewrite uint32_small by lia.
      replace (chunk_addr + offset - start + k <? Z.of_nat (List.length (buf s)))
        with true by lia.
      rewrite <- Hn, Nat2Z.id, firstn_upd by lia.
      rewrite Hf, Hpre. reflexivity.
    + rewrite Hs. exact Hr.
    + lia.
Qed.

End StoreChunk.

(* ------------------------------------------------------------------ *)
(** ** Decoding what the encoder wrote *)

Lemma wire_step_eof (start end_ line_no offset : Z) (s : wstate) :
  wire_step start end_ line_no (wire_of EOF) offset s = Ok (offset, s).
Proof. reflexivity. Qed.

Lemma wire_step_ela (start end_ line_no offset page sum : Z) (s : wstate) :
  0 <= page < 65536 ->
  wire_step start end_ line_no (wire_of (ELA page sum)) offset s
  = Ok (page * 65536, s).
Proof.
  intros H. unfold wire_step.
  change (w_type (wire_of (ELA page sum))) with 4.
  change (4 =? 0) with false. change (4 =? 2) with false. change (4 =? 4) with true.
  cbv iota. cbn [wire_of w_data firstn flat_map].
  rewrite app_nil_r, hexnum_two_pairs by exact H.
  rewrite uint32_small by lia. reflexivity.
Qed.

Lemma slice_length (b : list Z) (lo n : Z) :
  0 <= lo -> 0 <= n -> lo + n <= Z.of_nat (List.length b) ->
  Z.of_nat (List.length (slice b lo n)) = n.
Proof.
  intros Hlo Hn H. unfold slice. rewrite length_firstn, length_skipn. lia.
Qed.

Lemma Forall_firstn_keep {A : Type} (P : A -> Prop) (n : nat) (l : list A) :
  Forall P l -> Forall P (firstn n l).
Proof.
  intros H. revert n. induction H as [| x l Hx _ IH]; intros [| n]; cbn [firstn];
    constructor; auto.
Qed.

Lemma Forall_skipn_keep {A : Type} (P : A -> Prop) (n : nat) (l : list A) :
  Forall P l -> Forall P (skipn n l).
Proof.
  intros H. revert n. induction H as [| x l Hx Hl IH]; intros [| n]; cbn [skipn];
    auto.
Qed.

Lemma slice_bytes (b : list Z) (lo n : Z) :
  Forall is_byte b -> Forall is_byte (slice b lo n).
Proof.
  intros H. unfold slice. now apply Forall_firstn_keep, Forall_skipn_keep.
Qed.

Section Roundtrip.

Variables (b : list Z) (start end_ : Z).
Hypothesis start_nonneg : 0 <= start.
Hypothesis end_u32 : end_ < 2 ^ 32.
Hypothesis b_length : Z.of_nat (List.length b) = end_ - start.
Hypothesis b_bytes : Forall is_byte b.

Lemma chunk_records_good (cur cs : Z) :
  start <= cs < end_ -> Forall rec_good (chunk_records b start end_ cur cs).
Proof.
  intros Hcs. unfold chunk_records.
  destruct (chunk_size_bounds cs end_ ltac:(lia)) as (Hl & Hle & Hp).
  apply Forall_app. split.
  - destruct (uint32 cur =? cs / 65536); constructor; [| constructor].
    cbn [rec_good]. split; [Z.div_mod_to_equations; lia | apply checksum_range].
  - constructor; [| constructor]. cbn [rec_good].
    repeat split; try lia.
    + apply slice_length; lia.
    + now apply slice_bytes.
    + apply checksum_range.
    + apply checksum_range.
Qed.

Lemma write_records_good :
  exists recs,
    ihex_write_records b start end_ = Some recs /\ Forall rec_good recs.
Proof.
  unfold ihex_write_records.
  apply (write_loop_ind b start end_ start_nonneg end_u32
           (fun _ _ recs => Forall rec_good recs)).
  - intros. repeat constructor.
  - intros cur cs rest Hcs IH. apply Forall_app. split; [| exact IH].
    now apply chunk_records_good.
  - lia.
  - lia.
Qed.

(** The chunk at [cs], decoded with the right [offset], extends the part of
    the destination that agrees with the source. *)
Lemma wire_step_data (line_no cs : Z) (s : wstate) :
  start <= cs < end_ ->
  let len := chunk_size cs end_ in
  let r := Data len cs (slice b (cs - start) len)
             (checksum (skipn (Z.to_nat (cs - start)) b) len len (int32 cs) 0) in
  wire_step start end_ line_no (wire_of r) (cs / 65536 * 65536) s
  = Ok (cs / 65536 * 65536,
        store_chunk start len (cs mod 65536) (cs / 65536 * 65536) 0
          (slice b (cs - start) len) s).
Proof.
  intros Hcs len r.
  destruct (chunk_size_bounds cs end_ ltac:(lia)) as (Hl & Hle & Hp). fold len in Hl, Hle, Hp.
  assert (Hgood : rec_good r).
  { pose proof (chunk_records_good 0 cs Hcs) as H. unfold chunk_records in H.
    apply Forall_app in H as [_ H]. now inversion H. }
  destruct (wire_of_fields r Hgood) as (Hlen & Haddr & Htype & Hbytes).
  unfold wire_step. rewrite Htype, Hbytes, Hlen, Haddr.
  cbn [r rec_type rec_bytes rec_len rec_addr]. change (0 =? 0) with true. cbv iota.
  rewrite land_ffff.
  assert (Hcsd : cs mod 65536 + cs / 65536 * 65536 = cs) by (Z.div_mod_to_equations; lia).
  rewrite Hcsd.
  rewrite !uint32_small by lia.
  replace (cs <? start) with false by lia.
  replace (cs + len >? end_) with false by lia.
  destruct (slice b (cs - start) len) eqn:E; [| reflexivity].
  exfalso. pose proof (slice_length b (cs - start) len) as Hs.
  rewrite E in Hs. simpl in Hs. lia.
Qed.

Lemma decode_written (fuel : nat) (cur cs : Z) :
  start < end_ ->
  start <= cs -> (Z.to_nat (end_ - cs) <= fuel)%nat ->
  exists recs,
    write_loop fuel b start end_ cur cs = Some recs
    /\ forall (line_no offset : Z) (s : wstate),
         cs <= end_ ->
         (uint32 cur = cs / 65536 -> offset = cs / 65536 * 65536) ->
         List.length (buf s) = List.length b ->
         firstn (Z.to_nat (cs - start)) (buf s) = firstn (Z.to_nat (cs - start)) b ->
         greatest_addr s <= cs ->
         (start < cs -> greatest_addr s = cs) ->
         exists t,
           decode_wires start end_ (map wire_of recs) line_no offset s
           = Returned (int32 (end_ - start)) b t.
Proof.
  intros Hse Hcs Hf.
  apply (write_loop_ind b start end_ start_nonneg end_u32
           (fun cur cs recs =>
              forall (line_no offset : Z) (s : wstate),
                cs <= end_ ->
                (uint32 cur = cs / 65536 -> offset = cs / 65536 * 65536) ->
                List.length (buf s) = List.length b ->
                firstn (Z.to_nat (cs - start)) (buf s) = firstn (Z.to_nat (cs - start)) b ->
                greatest_addr s <= cs ->
                (start < cs -> greatest_addr s = cs) ->
                exists t,
                  decode_wires start end_ (map wire_of recs) line_no offset s
                  = Returned (int32 (end_ - start)) b t)); try assumption.
  - (* the loop is over *)
    clear cur cs Hcs Hf. intros cur cs Hge line_no offset s Hle _ Hlen Hpre _ Hg.
    assert (cs = end_) by lia. subst cs.
    cbn [map decode_wires]. rewrite wire_step_eof.
    exists (trace s). rewrite Hg by lia. rewrite uint32_small by lia.
    f_equal.
    rewrite <- (firstn_all (buf s)), <- (firstn_all b), Hlen.
    replace (List.length b) with (Z.to_nat (end_ - start)) by lia.
    exact Hpre.
  - (* one chunk *)
    clear cur cs Hcs Hf. intros cur cs rest Hcs IH line_no offset s Hle Hoff Hlen Hpre Hgle Hg.
    destruct (chunk_size_bounds cs end_ ltac:(lia)) as (Hl & Hle' & Hp).
    assert (Hpage : 0 <= cs / 65536 < 65536) by (Z.div_mod_to_equations; lia).
    set (len := chunk_size cs end_) in *.
    set (page := cs / 65536) in *.
    (* after an Extended Linear Address line, if any, [offset] is right *)
    assert (Hdata : forall line_no offset s0,
               offset = page * 65536 ->
               List.length (buf s0) = List.length b ->
               firstn (Z.to_nat (cs - start)) (buf s0) = firstn (Z.to_nat (cs - start)) b ->
               greatest_addr s0 <= cs ->
               exists t,
                 decode_wires start end_
                   (wire_of (Data len cs (slice b (cs - start) len)
                      (checksum (skipn (Z.to_nat (cs - start)) b) len len (int32 cs) 0))
                    :: map wire_of rest) line_no offset s0
                 = Returned (int32 (end_ - start)) b t).
    { clear line_no offset s Hoff Hlen Hpre Hgle Hg.
      intros line_no offset s -> Hlen Hpre Hgle.
      cbn [decode_wires].
      pose proof (wire_step_data (uint32 (line_no + 1)) cs s Hcs) as Hws.
      cbv zeta in Hws. fold len in Hws. fold page in Hws. rewrite Hws. clear Hws.
      set (bytes := slice b (cs - start) len).
      assert (Hbl : Z.of_nat (List.length bytes) = len) by (apply slice_length; lia).
      set (s' := store_chunk _ _ _ _ _ _ _).
      apply IH.
      - lia.
      - unfold next_ela. fold page. intros Hn.
        assert (uint32 page = page) by (apply uint32_small; lia).
        destruct (uint32 cur =? page) eqn:E; [apply Z.eqb_eq in E |]; lia.
      - unfold s'. now rewrite store_chunk_length.
      - replace (Z.to_nat (cs + len - start))
          with (Z.to_nat (cs - start) + List.length bytes)%nat by lia.
        apply store_chunk_prefix.
        + unfold page. Z.div_mod_to_equations. lia.
        + lia.
        + lia.
        + exact Hpre.
        + replace (List.length bytes) with (Z.to_nat len) by lia. reflexivity.
        + lia.
      - unfold s'. rewrite store_chunk_greatest.
        assert (Htop : uint32 (cs mod 65536 + page * 65536 + len) = cs + len).
        { rewrite uint32_small; unfold page; Z.div_mod_to_equations; lia. }
        destruct bytes; [simpl in Hbl; lia |]. rewrite Htop. lia.
      - intros _. unfold s'. rewrite store_chunk_greatest.
        assert (Htop : uint32 (cs mod 65536 + page * 65536 + len) = cs + len).
        { rewrite uint32_small; unfold page; Z.div_mod_to_equations; lia. }
        destruct bytes; [simpl in Hbl; lia |]. rewrite Htop. lia. }
    unfold chunk_records. fold len. fold page.
    destruct (uint32 cur =? page) eqn:E.
    + apply Z.eqb_eq in E. cbn [app map].
      apply Hdata; auto.
    + cbn [app map decode_wires].
      rewrite wire_step_ela by exact Hpage.
      apply Hdata; auto.
Qed.

End Roundtrip.

(* ------------------------------------------------------------------ *)
(** ** The variable greatest_addr *)

Lemma int32_uint32 (z : Z) : int32 (uint32 z) = int32 z.
Proof.
  unfold int32, uint32. rewrite Zplus_mod_idemp_l. reflexivity.
Qed.

Lemma w_addr_range (w : wire) : wire_ok w = true -> 0 <= w_addr w < 65536.
Proof.
  intros H. apply wire_ok_inv in H as (Hl & _).
  destruct (length_8 _ Hl) as (a & b & c & d & e & f & g & h & Hh).
  unfold w_addr. rewrite Hh. cbn [firstn skipn]. rewrite hexnum_4.
  pose proof (digit_range c). pose proof (digit_range d).
  pose proof (digit_range e). pose proof (digit_range f). lia.
Qed.

(** The four digits at column 9 of a line with two payload bytes are the
    value of these two bytes. *)
Lemma ext_value_digits (w : wire) :
  wire_ok w = true -> 2 <= w_len w ->
  hexnum (flat_map pair_chars (firstn 2 (w_data w))) = ext_value w
  /\ 0 <= ext_value w < 65536.
Proof.
  intros Hok Hlen. pose proof (wire_ok_inv w Hok) as (_ & _ & _ & _ & Hn).
  unfold ext_value, w_bytes.
  destruct (w_data w) as [| [a1 a2] [| [b1 b2] ps]]; try (cbn [List.length] in Hn; lia).
  cbn [firstn flat_map app map nth]. unfold pair_chars. cbn [fst snd app].
  rewrite hexnum_4, !hexnum_pair.
  pose proof (digit_range a1). pose proof (digit_range a2).
  pose proof (digit_range b1). pose proof (digit_range b2). lia.
Qed.

Lemma next_offset_range (w : wire) (offset : Z) :
  wire_ok w = true -> ext_ok w = true -> 0 <= offset < 2 ^ 32 ->
  0 <= next_offset w offset < 2 ^ 32.
Proof.
  intros Hok Hext Ho. unfold next_offset. unfold ext_ok in Hext.
  destruct (w_type w =? 2) eqn:E2.
  - cbn [orb] in Hext. destruct (ext_value_digits w Hok ltac:(lia)) as (_ & Hr). lia.
  - destruct (w_type w =? 4) eqn:E4; [| exact Ho].
    cbn [orb] in Hext. destruct (ext_value_digits w Hok ltac:(lia)) as (_ & Hr). lia.
Qed.

(** One line of the file: the offset and the maximum the decoder goes on
    with. *)
Lemma wire_step_highest (start end_ line_no : Z) (w : wire) (offset offset' : Z)
    (s s' : wstate) :
  wire_ok w = true -> ext_ok w = true ->
  wire_step start end_ line_no w offset s = Ok (offset', s') ->
  offset' = next_offset w offset
  /\ greatest_addr s'
     = (if data_with_bytes w
        then Z.max (greatest_addr s) (uint32 (w_addr w + offset + w_len w))
        else greatest_addr s).
Proof.
  intros Hok Hext H. pose proof (wire_ok_inv w Hok) as (_ & _ & _ & _ & Hn).
  unfold wire_step in H. unfold next_offset, data_with_bytes.
  unfold ext_ok in Hext.
  destruct (w_type w =? 0) eqn:E0.
  - replace (w_type w =? 2) with false by lia.
    replace (w_type w =? 4) with false by lia. cbn [andb].
    assert (Hbl : List.length (w_bytes w) = List.length (w_data w))
      by (unfold w_bytes; apply length_map).
    destruct (w_bytes w) as [| b0 bs] eqn:Eb.
    + injection H as <- <-. cbn [List.length] in Hbl.
      replace (1 <=? w_len w) with false by lia. split; reflexivity.
    + cbn [List.length] in Hbl. replace (1 <=? w_len w) with true by lia.
      destruct (uint32 (w_addr w + offset) <? start); [discriminate |].
      destruct (uint32 (w_addr w + offset + w_len w) >? end_); [discriminate |].
      injection H as <- <-. split; [reflexivity |].
      apply (store_chunk_greatest start (w_len w) (w_addr w) offset (b0 :: bs) 0 s).
  - cbn [andb]. destruct (w_type w =? 2) eqn:E2.
    + cbn [orb] in Hext. destruct (ext_value_digits w Hok ltac:(lia)) as (Hv & Hr).
      rewrite Hv in H. injection H as <- <-.
      split; [apply uint32_small; lia | reflexivity].
    + destruct (w_type w =? 4) eqn:E4.
      * cbn [orb] in Hext. destruct (ext_value_digits w Hok ltac:(lia)) as (Hv & Hr).
        rewrite Hv in H. injection H as <- <-.
        split; [apply uint32_small; lia | reflexivity].
      * injection H as <- <-. split; reflexivity.
Qed.

Lemma decode_wires_highest (start end_ : Z) (ws : list wire) :
  wires_ok ws = true ->
  forall (line_no offset : Z) (s : wstate) (ret : Z) (b : list Z) (t : list store_event),
    decode_wires start end_ ws line_no offset s = Returned ret b t ->
    ret = int32 (highest uint32 data_with_bytes ws offset (greatest_addr s) - start).
Proof.
  induction ws as [| w ws IH]; intros Hok line_no offset s ret b t H.
  - cbn [decode_wires] in H. injection H as <- _ _. cbn [highest]. apply int32_uint32.
  - unfold wires_ok in Hok. cbn [forallb] in Hok.
    apply andb_prop in Hok as [Hw Hws]. apply andb_prop in Hw as [Hw He].
    cbn [decode_wires] in H.
    destruct (wire_step start end_ (uint32 (line_no + 1)) w offset s)
      as [[o s'] | e t' |] eqn:E; try discriminate.
    destruct (wire_step_highest _ _ _ _ _ _ _ _ Hw He E) as (-> & Hg).
    cbn [highest]. rewrite <- Hg. eapply IH; [exact Hws | exact H].
Qed.

Lemma highest_ge (top : Z -> Z) (counted : wire -> bool) (ws : list wire) :
  forall offset hi : Z, hi <= highest top counted ws offset hi.
Proof.
  induction ws as [| w ws IH]; intros offset hi; cbn [highest]; [lia |].
  etransitivity; [| apply IH]. destruct (counted w); lia.
Qed.

(** Without a sum that reaches 2^32, the reduction modulo 2^32 changes
    nothing. *)
Lemma highest_no_wrap (ws : list wire) :
  wires_ok ws = true ->
  forall offset hi : Z,
    0 <= offset < 2 ^ 32 -> 0 <= hi ->
    highest (fun z => z) data_with_bytes ws offset hi < 2 ^ 32 ->
    highest uint32 data_with_bytes ws offset hi
    = highest (fun z => z) data_with_bytes ws offset hi.
Proof.
  induction ws as [| w ws IH]; intros Hok offset hi Ho Hhi H; [reflexivity |].
  unfold wires_ok in Hok. cbn [forallb] in Hok.
  apply andb_prop in Hok as [Hw Hws]. apply andb_prop in Hw as [Hw He].
  cbn [highest] in *.
  pose proof (w_addr_range w Hw). pose proof (w_len_range w Hw).
  pose proof (next_offset_range w offset Hw He Ho) as Hn.
  destruct (data_with_bytes w).
  - pose proof (highest_ge (fun z => z) data_with_bytes ws (next_offset w offset)
                  (Z.max hi (w_addr w + offset + w_len w))) as Hge.
    rewrite (uint32_small (w_addr w + offset + w_len w)) by lia.
    apply IH; [exact Hws | exact Hn | lia | exact H].
  - apply IH; [exact Hws | exact Hn | exact Hhi | exact H].
Qed.

Lemma highest_none (top : Z -> Z) (counted : wire -> bool) (ws : list wire) :
  Forall (fun w => counted w = false) ws ->
  forall offset hi : Z, highest top counted ws offset hi = hi.
Proof.
  induction 1 as [| w ws Hw _ IH]; intros offset hi; [reflexivity |].
  cbn [highest]. rewrite Hw. apply IH.
Qed.

(* ------------------------------------------------------------------ *)
(** ** The iteration bounds of the model are large enough *)

Lemma cstr_length (a : list ascii) : (List.length (cstr a) <= List.length a)%nat.
Proof.
  induction a as [| c r IH]; [simpl; lia |].
  cbn [cstr]. destruct (code c =? 0); cbn [List.length]; lia.
Qed.

Lemma data_loop_fuel (start end_ : Z) (line : list ascii)
    (line_no chunk_len chunk_addr chunk_type offset : Z) (fuel : nat) :
  forall (i : Z) (s : wstate),
    strlen line - i <= Z.of_nat fuel ->
    0 <= i ->
    data_loop fuel start end_ line line_no chunk_len chunk_addr chunk_type offset i s
    <> NoFuel.
Proof.
  induction fuel as [| fuel IH]; intros i s Hf Hi.
  - cbn [data_loop]. destruct (i <? strlen line - 1) eqn:E; [lia | discriminate].
  - cbn [data_loop]. destruct (i <? strlen line - 1); [| discriminate].
    destruct (scan_x 2 (cstr (at_ line i))) as [[byte rest] |]; [| discriminate].
    destruct (negb (chunk_type =? 0)); [discriminate |].
    destruct ((i - 9) / 2 >=? chunk_len); [discriminate |].
    destruct (uint32 (chunk_addr + offset) <? start); [discriminate |].
    destruct (uint32 (chunk_addr + offset + chunk_len) >? end_); [discriminate |].
    apply IH; lia.
Qed.

Lemma fgets_chars_rest (n : nat) :
  forall stream : list ascii,
    (List.length (snd (fgets_chars n stream)) <= List.length stream)%nat.
Proof.
  induction n as [| n IH]; intros stream.
  - destruct stream; cbn [fgets_chars snd]; lia.
  - destruct stream as [| c r]; [cbn [fgets_chars snd]; lia |].
    cbn [fgets_chars]. destruct (code c =? 10); [cbn [snd List.length]; lia |].
    specialize (IH r). destruct (fgets_chars n r) as [l rr].
    cbn [snd List.length] in *. lia.
Qed.

Lemma fgets_chars_shorter (n : nat) (stream : list ascii) :
  stream <> [] ->
  (List.length (snd (fgets_chars (S n) stream)) < List.length stream)%nat.
Proof.
  intros Hne. destruct stream as [| c r]; [congruence |].
  cbn [fgets_chars]. destruct (code c =? 10); [cbn [snd List.length]; lia |].
  pose proof (fgets_chars_rest n r) as H. destruct (fgets_chars n r) as [l rr].
  cbn [snd List.length] in *. lia.
Qed.

Lemma fgets_shorter (line stream line' rest : list ascii) :
  fgets line 523 stream = Some (line', rest) ->
  (List.length rest < List.length stream)%nat.
Proof.
  unfold fgets. destruct stream as [| c r]; [discriminate |].
  change (Nat.pred 523) with (S 521).
  pose proof (fgets_chars_shorter 521 (c :: r) ltac:(congruence)) as H.
  destruct (fgets_chars (S 521) (c :: r)) as [l rr]. cbn [snd] in H.
  intros E. injection E as _ <-. exact H.
Qed.

Lemma read_loop_fuel (start end_ : Z) (fuel : nat) :
  forall (stream line : list ascii) (line_no offset : Z) (s : wstate),
    (List.length stream <= fuel)%nat ->
    read_loop fuel start end_ stream line line_no offset s <> Fuel.
Proof.
  induction fuel as [| fuel IH]; intros stream line line_no offset s Hf.
  - destruct stream; [discriminate | simpl in Hf; lia].
  - rewrite read_loop_unfold.
    destruct (fgets line 523 stream) as [[l r] |] eqn:Eg; [| discriminate].
    cbv zeta.
    destruct (scan_header (cstr (strip_cr l))) as [[[len addr] type] |]; [| discriminate].
    destruct (ext_offset (strip_cr l) type offset) as [off |]; [| discriminate].
    destruct (data_loop _ _ _ _ _ _ _ _ _ _ s) as [s' | e t' |] eqn:E; try discriminate.
    + apply IH. apply fgets_shorter in Eg. lia.
    + exfalso. revert E. apply data_loop_fuel; [| lia].
      unfold strlen. pose proof (cstr_length (strip_cr l)). lia.
Qed.

(** [ihex_read] always ends, with a return value or with an error. *)
Lemma ihex_read_total (line file : list ascii) (b : list Z) (start end_ : Z) :
  ihex_read line file b start end_ <> Fuel.
Proof. unfold ihex_read. apply read_loop_fuel. lia. Qed.

(* ------------------------------------------------------------------ *)
(** ** The header conversion needs a non-empty string *)

(** [strlen(line) - 1] is computed in [size_t]; it cannot wrap where the loop
    is reached, since the header conversions fail on the empty string. *)
Lemma scan_header_strlen (line : list ascii) (h : Z * Z * Z) :
  scan_header (cstr line) = Some h -> 1 <= strlen line.
Proof.
  unfold strlen. destruct (cstr line); [discriminate |].
  intros _. cbn [List.length]. lia.
Qed.

(* ------------------------------------------------------------------ *)
(** ** Extended Linear Address records of the encoder *)

Lemma write_records_no_ela (b : list Z) (start end_ : Z) :
  0 <= start -> end_ <= 65535 ->
  exists recs, ihex_write_records b start end_ = Some recs /\ no_ela recs.
Proof.
  intros Hs He. unfold ihex_write_records.
  replace (end_ >? 65535) with false by lia.
  destruct (write_loop_ind b start end_ Hs ltac:(lia)
              (fun cur _ recs => cur = 0 -> no_ela recs))
    with (fuel := Z.to_nat (end_ - start)) (cur := 0) (cs := start)
    as (recs & Hw & HP).
  - intros. reflexivity.
  - intros cur cs rest Hcs IH ->. unfold chunk_records, next_ela in *.
    replace (cs / 65536) with 0 in * by (Z.div_mod_to_equations; lia).
    change (uint32 0 =? 0) with true in *. cbv iota in *.
    unfold no_ela in *. cbn [app forallb is_ela negb andb]. now apply IH.
  - lia.
  - lia.
  - exists recs. split; [exact Hw | now apply HP].
Qed.

Lemma write_records_framed (b : list Z) (start end_ : Z) :
  0 <= start -> 65535 < end_ -> end_ < 2 ^ 32 ->
  exists recs, ihex_write_records b start end_ = Some recs /\ ela_framed None recs.
Proof.
  intros Hs Hlo He. unfold ihex_write_records.
  replace (end_ >? 65535) with true by lia.
  apply (write_loop_framed b start end_ _ (-1) start); try lia.
Qed.

(* ------------------------------------------------------------------ *)
(** ** What the two range checks do guarantee *)

Lemma hexval_nonneg (c : ascii) (d : Z) : hexval c = Some d -> 0 <= d.
Proof.
  unfold hexval.
  destruct ((48 <=? code c) && (code c <=? 57)) eqn:E1; [intros [= <-]; lia |].
  destruct ((65 <=? code c) && (code c <=? 70)) eqn:E2; [intros [= <-]; lia |].
  destruct ((97 <=? code c) && (code c <=? 102)) eqn:E3; [intros [= <-]; lia |].
  discriminate.
Qed.

Lemma scan_digits_nonneg (w : nat) :
  forall (acc : Z) (n : nat) (s : list ascii),
    0 <= acc -> 0 <= fst (fst (scan_digits w acc n s)).
Proof.
  induction w as [| w IH]; intros acc n s H; [destruct s; exact H |].
  destruct s as [| c r]; [exact H |].
  cbn [scan_digits]. destruct (hexval c) as [d |] eqn:E; [| exact H].
  apply IH. apply hexval_nonneg in E. lia.
Qed.

Lemma scan_unsigned_nonneg (w : nat) (s rest : list ascii) (v : Z) :
  scan_unsigned w s = Some (v, rest) -> 0 <= v.
Proof.
  assert (G : forall w' s',
             match scan_digits w' 0 0 s' with
             | (_, O, _) => None
             | (v', _, r') => Some (v', r')
             end = Some (v, rest) -> 0 <= v).
  { intros w' s'. pose proof (scan_digits_nonneg w' 0 0 s' ltac:(lia)) as H.
    destruct (scan_digits w' 0 0 s') as [[v' m] r']. cbn [fst] in H.
    destruct m; [discriminate |]. now intros [= <- _]. }
  unfold scan_unsigned.
  destruct w as [| [| w]]; [apply G | apply G |].
  destruct s as [| c0 [| cx r]]; [apply G | apply G |].
  destruct ((code c0 =? 48) && is_x cx); apply G.
Qed.

Lemma scan_x_nonneg (w : nat) (s rest : list ascii) (v : Z) :
  scan_x w s = Some (v, rest) -> 0 <= v.
Proof.
  unfold scan_x. destruct (skip_space s) as [| c r]; [discriminate |].
  destruct (code c =? 45).
  - destruct (scan_unsigned (Nat.pred w) r) as [[v' r'] |]; [| discriminate].
    intros [= <- _]. apply uint32_range.
  - destruct (code c =? 43); apply scan_unsigned_nonneg.
Qed.

Lemma scan_header_nonneg (s : list ascii) (len addr type : Z) :
  scan_header s = Some (len, addr, type) -> 0 <= len /\ 0 <= addr /\ 0 <= type.
Proof.
  unfold scan_header. destruct s as [| c s1]; [discriminate |].
  destruct (code c =? 58); [| discriminate].
  destruct (scan_x 2 s1) as [[l s2] |] eqn:E1; [| discriminate].
  destruct (scan_x 4 s2) as [[a s3] |] eqn:E2; [| discriminate].
  destruct (scan_x 2 s3) as [[t s4] |] eqn:E3; [| discriminate].
  intros [= <- <- <-].
  apply scan_x_nonneg in E1, E2, E3. auto.
Qed.

Lemma ext_offset_nonneg (line : list ascii) (type offset off : Z) :
  0 <= offset -> ext_offset line type offset = Some off -> 0 <= off.
Proof.
  intros H. unfold ext_offset.
  destruct (scan_x 4 (cstr (at_ line 9))) as [[v r] |];
    destruct (type =? 2); destruct (type =? 4); cbv beta iota;
    intros E; try discriminate; injection E as <-;
    try apply uint32_range; exact H.
Qed.

Lemma data_loop_checked (start end_ : Z) (line : list ascii)
    (line_no chunk_len chunk_addr chunk_type offset : Z) (fuel : nat) :
  0 <= chunk_addr -> 0 <= offset ->
  forall (i : Z) (s : wstate),
    9 <= i ->
    Forall (checked start end_) (trace s) ->
    match
      data_loop fuel start end_ line line_no chunk_len chunk_addr chunk_type offset i s
    with
    | Ok s' => Forall (checked start end_) (trace s')
    | Err _ t => Forall (checked start end_) t
    | NoFuel => True
    end.
Proof.
  intros Ha Ho. induction fuel as [| fuel IH]; intros i s Hi Hs.
  - cbn [data_loop]. destruct (i <? strlen line - 1); [exact I | exact Hs].
  - cbn [data_loop]. destruct (i <? strlen line - 1); [| exact Hs].
    destruct (scan_x 2 (cstr (at_ line i))) as [[byte rest] |]; [| exact Hs].
    destruct (negb (chunk_type =? 0)); [exact Hs |].
    destruct ((i - 9) / 2 >=? chunk_len) eqn:Ek; [exact Hs |].
    destruct (uint32 (chunk_addr + offset) <? start) eqn:Elo; [exact Hs |].
    destruct (uint32 (chunk_addr + offset + chunk_len) >? end_) eqn:Ehi; [exact Hs |].
    apply IH; [lia |]. cbn [trace].
    apply Forall_app. split; [exact Hs |]. constructor; [| constructor].
    unfold checked. cbn [ev_addr ev_offset ev_len ev_index].
    repeat split; try lia.
    exists ((i - 9) / 2). split; [| reflexivity].
    split; [Z.div_mod_to_equations; lia | lia].
Qed.

Lemma read_loop_checked (start end_ : Z) (fuel : nat) :
  forall (stream line : list ascii) (line_no offset : Z) (s : wstate),
    0 <= offset ->
    Forall (checked start end_) (trace s) ->
    Forall (checked start end_)
      (outcome_trace (read_loop fuel start end_ stream line line_no offset s)).
Proof.
  induction fuel as [| fuel IH]; intros stream line line_no offset s Ho Hs.
  - cbn [read_loop]. destruct (fgets line 523 stream) as [[l r] |]; [constructor | exact Hs].
  - rewrite read_loop_unfold.
    destruct (fgets line 523 stream) as [[l r] |]; [| exact Hs].
    cbv zeta.
    destruct (scan_header (cstr (strip_cr l))) as [[[len addr] type] |] eqn:Eh; [| exact Hs].
    destruct (ext_offset (strip_cr l) type offset) as [off |] eqn:Eo; [| exact Hs].
    apply scan_header_nonneg in Eh as (_ & Haddr & _).
    apply ext_offset_nonneg in Eo; [| exact Ho].
    pose proof (data_loop_checked start end_ (strip_cr l) (uint32 (line_no + 1))
                  len addr type off (List.length (strip_cr l)) Haddr Eo 9 s
                  ltac:(lia) Hs) as Hd.
    destruct (data_loop _ _ _ _ _ _ _ _ _ _ s) as [s' | e t' |].
    + now apply IH.
    + exact Hd.
    + constructor.
Qed.

(** Every store [ihex_read] executes came after both range checks; when the
    sum [chunk_addr + offset + chunk_len] did not wrap, the store is inside
    the window. *)
Lemma stores_checked (line file : list ascii) (b : list Z) (start end_ : Z) :
  Forall (checked start end_) (outcome_trace (ihex_read line file b start end_)).
Proof. unfold ihex_read. apply read_loop_checked; [lia | constructor]. Qed.

Lemma checked_in_window (start end_ : Z) (e : store_event) :
  0 <= start ->
  checked start end_ e ->
  ev_addr e + ev_offset e + ev_len e < 2 ^ 32 ->
  in_window start end_ e.
Proof.
  intros Hs (Ha & Ho & Hlo & Hhi & k & Hk & Hi) Hw. unfold in_window.
  rewrite uint32_small in Hlo by lia.
  rewrite uint32_small in Hhi by lia.
  rewrite Hi, uint32_small by lia. lia.
Qed.

(** On a well-formed Data line with at least one byte, a range check that
    fails (in the decoder's 32-bit arithmetic) ends the decode with the
    address error, before any byte of the line is stored. *)
Lemma range_check_rejects (start end_ : Z) (w : wire) (fuel : nat)
    (rest line : list ascii) (line_no offset : Z) (s : wstate) :
  wire_ok w = true -> w_type w = 0 -> 1 <= w_len w ->
  uint32 (w_addr w + offset) < start \/ uint32 (w_addr w + offset + w_len w) > end_ ->
  exists e,
    read_loop (S fuel) start end_ (wire_text w ++ rest) line line_no offset s
    = Failed e (trace s)
    /\ (e = AddressError (w_addr w) (uint32 (line_no + 1))
        \/ e = AddressLengthError (w_addr w) (w_len w) (uint32 (line_no + 1))).
Proof.
  intros Hok Ht Hl Hr.
  assert (Hext : ext_ok w = true) by (unfold ext_ok; now rewrite Ht).
  rewrite (read_loop_wire start end_ w fuel rest line line_no offset s Hok Hext).
  unfold wire_step. rewrite Ht. change (0 =? 0) with true. cbv iota.
  destruct (w_bytes w) as [| b0 bs] eqn:Eb.
  { exfalso. apply wire_ok_inv in Hok as (_ & _ & _ & _ & Hn).
    unfold w_bytes in Eb. destruct (w_data w); [simpl in Hn; lia | discriminate]. }
  destruct (uint32 (w_addr w + offset) <? start) eqn:Elo.
  - eexists. split; [reflexivity | now left].
  - destruct (uint32 (w_addr w + offset + w_len w) >? end_) eqn:Ehi.
    + eexists. split; [reflexivity | now right].
    + lia.
Qed.

(* ================================================================== *)
(** * The claims *)

(** C1. Round trip: for every range with [start < end] and every byte
    content, [ihex_write] produces a text, and [ihex_read] on that text with
    the same [start] and [end] and a destination of the same size succeeds
    (it returns [end - start], converted to [int]) and leaves the original
    bytes in the destination.  Nothing is assumed about page boundaries
    inside the range, nor about what the static array [line] held. *)
Theorem write_read_roundtrip (line : list ascii) (b dst : list Z) (start end_ : Z) :
  0 <= start -> start < end_ -> end_ < 2 ^ 32 ->
  Z.of_nat (List.length b) = end_ - start ->
  Forall is_byte b ->
  List.length dst = List.length b ->
  exists text t,
    ihex_write b start end_ = Some text
    /\ ihex_read line text dst start end_ = Returned (int32 (end_ - start)) b t.
Proof.
  intros Hs Hlt He Hlen Hb Hd.
  destruct (write_records_good b start end_ Hs He Hlen Hb) as (recs & Hw & Hgood).
  destruct (decode_written b start end_ Hs He Hlen Hb
              (Z.to_nat (end_ - start)) (if end_ >? 65535 then -1 else 0) start
              Hlt ltac:(lia) ltac:(lia)) as (recs' & Hw' & Hdec).
  unfold ihex_write_records in Hw. rewrite Hw in Hw'. injection Hw' as <-.
  assert (Htext : flat_map render recs = flat_map wire_text (map wire_of recs)).
  { clear Hw Hdec. induction Hgood as [| r l Hr _ IH]; [reflexivity |].
    cbn [flat_map map]. now rewrite IH, render_wire. }
  assert (Hok : wires_ok (map wire_of recs) = true).
  { clear Hw Hdec Htext. induction Hgood as [| r l Hr _ IH]; [reflexivity |].
    cbn [map wires_ok forallb]. destruct (wire_of_ok r Hr) as [-> ->].
    exact IH. }
  destruct (Hdec 0 0 (mk_wstate dst 0 [])) as (t & Ht).
  - lia.
  - intros Hc. destruct (end_ >? 65535) eqn:E.
    + change (uint32 (-1)) with 4294967295 in Hc. Z.div_mod_to_equations. lia.
    + Z.div_mod_to_equations. lia.
  - exact Hd.
  - now rewrite Z.sub_diag.
  - cbn [greatest_addr]. lia.
  - lia.
  - exists (flat_map render recs), t. split.
    + unfold ihex_write, ihex_write_records. now rewrite Hw.
    + rewrite Htext, ihex_read_wires by exact Hok. exact Ht.
Qed.

Lemma write_read_roundtrip_witness :
  exists text t,
    ihex_write [0x11; 0x22; 0x33] 0 3 = Some text
    /\ ihex_read line_init text [0; 0; 0] 0 3
       = Returned (int32 (3 - 0)) [0x11; 0x22; 0x33] t.
Proof.
  apply (write_read_roundtrip line_init [0x11; 0x22; 0x33] [0; 0; 0] 0 3);
    [lia | lia | lia | reflexivity | | reflexivity].
  repeat constructor; unfold is_byte; lia.
Defined.

(** C2 (amended).  The buffer [0x11, 0x22, 0x33] with start 0 and end 3 is
    encoded as the two lines [:0300000011223397] and [:00000001FF]: the
    checksum byte is 0x97.  Decoding that text with start 0 and end 3 writes
    [0x11, 0x22, 0x33] and returns 3, and so does decoding the text of the
    claim, whose checksum field reads CB. *)
Theorem example_encoding_decoding (line : list ascii) (d0 d1 d2 : Z) :
  ihex_write [0x11; 0x22; 0x33] 0 3
  = Some (lines [":0300000011223397"; ":00000001FF"]%string)
  /\ (exists t,
        ihex_read line (lines [":0300000011223397"; ":00000001FF"]%string)
          [d0; d1; d2] 0 3
        = Returned 3 [0x11; 0x22; 0x33] t)
  /\ (exists t,
        ihex_read line (lines [":03000000112233CB"; ":00000001FF"]%string)
          [d0; d1; d2] 0 3
        = Returned 3 [0x11; 0x22; 0x33] t).
Proof.
  split; [vm_compute; reflexivity |].
  split; eexists; vm_compute; reflexivity.
Qed.

(** C2, as stated, fails: the encoder does not write the checksum CB. *)
Lemma example_checksum_not_CB :
  ihex_write [0x11; 0x22; 0x33] 0 3
  <> Some (lines [":03000000112233CB"; ":00000001FF"]%string).
Proof. vm_compute. discriminate. Qed.

(** C3.  [checksum] returns a byte that makes length, the two address bytes,
    type, data bytes and checksum add up to 0 modulo 256; and every record
    [ihex_write] emits (Extended Linear Address, Data, End-Of-File) satisfies
    that equation. *)
Theorem checksum_sums_to_zero :
  (forall (b : list Z) (length chunk_len chunk_addr chunk_type : Z),
     0 <= chunk_addr < 65536 ->
     is_byte (checksum b length chunk_len chunk_addr chunk_type)
     /\ sums_to_zero chunk_len chunk_addr chunk_type
          (firstn (Z.to_nat length) b)
          (checksum b length chunk_len chunk_addr chunk_type))
  /\ (forall (b : list Z) (start end_ : Z),
        0 <= start -> end_ < 2 ^ 32 ->
        exists recs,
          ihex_write_records b start end_ = Some recs
          /\ Forall rec_sums_to_zero recs).
Proof.
  split.
  - intros b length chunk_len chunk_addr chunk_type Ha. split.
    + apply checksum_range.
    + unfold sums_to_zero.
      pose proof (checksum_sum b length chunk_len chunk_addr chunk_type) as H.
      rewrite LO_mod, HI_mod in H.
      rewrite (Z.mod_small (chunk_addr / 256)) in H by (Z.div_mod_to_equations; lia).
      exact H.
  - apply write_records_sums.
Qed.

Lemma checksum_sums_to_zero_witness :
  (is_byte (checksum [0x11; 0x22; 0x33] 3 3 0 0)
   /\ sums_to_zero 3 0 0 (firstn (Z.to_nat 3) [0x11; 0x22; 0x33])
        (checksum [0x11; 0x22; 0x33] 3 3 0 0))
  /\ exists recs,
       ihex_write_records [0x11; 0x22; 0x33] 65536 65539 = Some recs
       /\ Forall rec_sums_to_zero recs.
Proof.
  split.
  - apply (proj1 checksum_sums_to_zero). lia.
  - apply (proj2 checksum_sums_to_zero); lia.
Defined.

(** C4.  The decoder's upper range check is computed in 32-bit arithmetic
    and misses a sum that wraps: with offset 0xFFFF0000 (line 1) the Data line
    at 0xFFFF with length 2 has absolute address 0xFFFFFFFF; address plus
    length exceeds [end = 1], yet the decode succeeds and both bytes of the
    line are stored. *)
Theorem range_check_wraps :
  ihex_read line_init (lines [":02000004FFFFFC"; ":02FFFF00AABB9B"]%string) [0] 0 1
  = Returned 1 [0xBB]
      [mk_event 0xFFFF 0xFFFF0000 2 0xFFFFFFFF 0xAA;
       mk_event 0xFFFF 0xFFFF0000 2 0 0xBB]
  /\ 0xFFFF + 0xFFFF0000 + 2 > 1.
Proof. split; [vm_compute; reflexivity | lia]. Qed.

(** C5 (amended).  When [end <= 65535] the encoder emits no Extended Linear
    Address record.  When [end > 65536] it emits exactly one such record
    immediately before the first Data record of each 64KiB page it writes
    into, the first page included, also when the whole range lies in one
    page. *)
Theorem ela_records_per_page (b : list Z) (start end_ : Z) :
  0 <= start -> start < end_ -> end_ < 2 ^ 32 ->
  exists recs,
    ihex_write_records b start end_ = Some recs
    /\ (end_ <= 65535 -> no_ela recs)
    /\ (65536 < end_ -> ela_framed None recs).
Proof.
  intros Hs Hlt He.
  destruct (Z_le_gt_dec end_ 65535) as [Hle | Hgt].
  - destruct (write_records_no_ela b start end_ Hs Hle) as (recs & Hw & Hn).
    exists recs. repeat split; [exact Hw | intros _; exact Hn | lia].
  - destruct (write_records_framed b start end_ Hs ltac:(lia) He) as (recs & Hw & Hf).
    exists recs. repeat split; [exact Hw | lia | intros _; exact Hf].
Qed.

Lemma ela_records_per_page_witness :
  exists recs,
    ihex_write_records (repeat 7 40%nat) 65530 65570 = Some recs
    /\ (65570 <= 65535 -> no_ela recs)
    /\ (65536 < 65570 -> ela_framed None recs).
Proof.
  apply (ela_records_per_page (repeat 7 40%nat) 65530 65570); lia.
Defined.

(** C5, as stated, fails: the range [65536, 65539) lies in one page (page 1),
    and the encoder emits an Extended Linear Address record for it. *)
Lemma ela_for_one_page_above_first :
  page_of 65536 = page_of (65539 - 1)
  /\ ihex_write_records [1; 2; 3] 65536 65539
     = Some [ELA 1 0xF9; Data 3 65536 [1; 2; 3] 0xF7; EOF].
Proof. split; vm_compute; reflexivity. Qed.

(** C6.  For every range with [start < end], every Data record the encoder
    emits has a length between 1 and 32, carries no more bytes than its
    length, lies inside [start, end), and does not cross a 64KiB page
    boundary: its 16-bit address plus its length is at most 65536, so its
    first and last byte are on the same page. *)
Theorem data_records_chunked (b : list Z) (start end_ : Z) :
  0 <= start -> start < end_ -> end_ < 2 ^ 32 ->
  exists recs,
    ihex_write_records b start end_ = Some recs
    /\ Forall (data_in_page start end_) recs.
Proof. intros Hs _ He. now apply write_records_chunks. Qed.

Lemma data_records_chunked_witness :
  exists recs,
    ihex_write_records (repeat 7 40%nat) 65530 65570 = Some recs
    /\ Forall (data_in_page 65530 65570) recs.
Proof.
  apply (data_records_chunked (repeat 7 40%nat) 65530 65570); lia.
Defined.

(** C7 (amended).  When [ihex_read] succeeds on a text of well-formed lines,
    the value it returns is, converted to [int], the maximum (starting from
    0) of address + offset + length over the Data lines of the text that
    carry at least one byte, minus [start]; the offset of a line is the one
    the Extended Segment and Linear Address lines before it have set.  Each
    sum enters the maximum modulo 2^32; when no sum reaches 2^32 the maximum
    is the one over the integers.  When no Data line carries a byte the
    value is [0 - start]. *)
Theorem read_returns_greatest (line : list ascii) (ws : list wire) (b b' : list Z)
    (start end_ ret : Z) (t : list store_event) :
  wires_ok ws = true ->
  ihex_read line (wires_text ws) b start end_ = Returned ret b' t ->
  ret = int32 (highest_seen32 ws - start)
  /\ (highest_seen ws < 2 ^ 32 -> ret = int32 (highest_seen ws - start))
  /\ (Forall (fun w => data_with_bytes w = false) ws -> ret = int32 (0 - start)).
Proof.
  intros Hok H. unfold wires_text in H. rewrite ihex_read_wires in H by exact Hok.
  apply (decode_wires_highest start end_ ws Hok) in H. cbn [greatest_addr] in H.
  fold (highest_seen32 ws) in H. split; [exact H |]. split.
  - intros Hw. rewrite H. unfold highest_seen32, highest_seen in *.
    rewrite highest_no_wrap by (try exact Hok; try exact Hw; lia). reflexivity.
  - intros Hn. rewrite H. unfold highest_seen32. now rewrite highest_none.
Qed.

Lemma read_returns_greatest_witness :
  exists b' t,
    ihex_read line_init
      (lines [":020000040001F9"; ":0300100011223387"; ":00002000E0"; ":00000001FF"]%string)
      (repeat 0 32%nat) 0x10000 0x10020
    = Returned 0x13 b' t
    /\ 0x13 = int32 (0x10013 - 0x10000).
Proof.
  eexists. eexists. split; [vm_compute; reflexivity |].
  apply (proj1 (proj2
    (read_returns_greatest line_init
       [mk_wire (str "02000004") [("0", "0"); ("0", "1")]%char ("F", "9")%char;
        mk_wire (str "03001000") [("1", "1"); ("2", "2"); ("3", "3")]%char
          ("8", "7")%char;
        mk_wire (str "00002000") [] ("E", "0")%char;
        mk_wire (str "00000001") [] ("F", "F")%char]
       (repeat 0 32%nat) _ 0x10000 0x10020 0x13 _
       ltac:(vm_compute; reflexivity) ltac:(vm_compute; reflexivity))));
    vm_compute; reflexivity.
Defined.

(** C7, as written.  The maximum is not taken over all Data lines.  A Data
    line without bytes does not count: the text [:00000800F8], a Data line
    of length 0 at address 8 inside the window [0, 16), gives 0 and not 8.
    And a sum that wraps enters the maximum reduced modulo 2^32: with offset
    0xFFFF0000 and the Data line of length 2 at 0xFFFF the value is 1 and
    not 4294967297. *)
Lemma greatest_not_over_all_data_lines :
  (wires_text [mk_wire (str "00000800") [] ("F", "8")%char]
   = lines [":00000800F8"]%string
   /\ spec_highest [mk_wire (str "00000800") [] ("F", "8")%char] = 8
   /\ ihex_read line_init (lines [":00000800F8"]%string) (repeat 0 16%nat) 0 16
      = Returned 0 (repeat 0 16%nat) [])
  /\ (wires_text [mk_wire (str "02000004") [("F", "F"); ("F", "F")]%char ("F", "C")%char;
                  mk_wire (str "02FFFF00") [("A", "A"); ("B", "B")]%char ("9", "B")%char]
      = lines [":02000004FFFFFC"; ":02FFFF00AABB9B"]%string
      /\ spec_highest
           [mk_wire (str "02000004") [("F", "F"); ("F", "F")]%char ("F", "C")%char;
            mk_wire (str "02FFFF00") [("A", "A"); ("B", "B")]%char ("9", "B")%char]
         = 4294967297
      /\ exists b' t,
           ihex_read line_init (lines [":02000004FFFFFC"; ":02FFFF00AABB9B"]%string)
             [0] 0 1
           = Returned 1 b' t).
Proof.
  split.
  - repeat split; vm_compute; reflexivity.
  - split; [vm_compute; reflexivity |]. split; [vm_compute; reflexivity |].
    eexists. eexists. vm_compute. reflexivity.
Qed.

(** C8.  The decoder never strips a carriage return: the character it tests,
    [line[strlen(line)]], is the terminating NUL.  The line [:0100000011]
    decodes (one byte stored, 1 returned) when it ends with a newline, and
    fails at byte 11 when it ends with carriage return and newline. *)
Theorem carriage_return_not_stripped :
  (forall line : list ascii, strip_cr line = line)
  /\ ihex_read line_init (lines [":0100000011"]%string) [0] 0 1
     = Returned 1 [0x11] [mk_event 0 0 1 0 0x11]
  /\ ihex_read line_init (crlf_lines [":0100000011"]%string) [0] 0 1
     = Failed (ParseByteError 1 11) [mk_event 0 0 1 0 0x11].
Proof.
  split; [apply strip_cr_id |]. split; vm_compute; reflexivity.
Qed.

(** C9 (amended).  Two texts of well-formed lines that differ only in the
    digits of the checksum fields decode to the same outcome (same
    destination, same return value, same error), provided every Extended
    Segment or Linear Address line carries its two payload bytes. *)
Theorem checksum_field_ignored (ws1 ws2 : list wire) (line : list ascii)
    (b : list Z) (start end_ : Z) :
  Forall2 same_but_sum ws1 ws2 ->
  wires_ok ws1 = true -> wires_ok ws2 = true ->
  ihex_read line (wires_text ws1) b start end_
  = ihex_read line (wires_text ws2) b start end_.
Proof.
  intros Hsame H1 H2. unfold wires_text.
  rewrite !ihex_read_wires by assumption.
  now apply decode_wires_same.
Qed.

Lemma checksum_field_ignored_witness :
  ihex_read line_init
    (wires_text [mk_wire (str "03000000")
                   [("1", "1"); ("2", "2"); ("3", "3")]%char ("9", "7")%char])
    [0; 0; 0] 0 3
  = ihex_read line_init
      (wires_text [mk_wire (str "03000000")
                     [("1", "1"); ("2", "2"); ("3", "3")]%char ("C", "B")%char])
      [0; 0; 0] 0 3.
Proof.
  apply checksum_field_ignored; [| reflexivity | reflexivity].
  repeat constructor.
Defined.

(** C9, as stated, fails: an Extended Linear Address line with no payload has
    its checksum field read as the address.  The two texts differ in that
    field only; one decode fails, the other stores a byte and returns 1. *)
Lemma checksum_field_read_as_address :
  same_but_sum (mk_wire (str "00000004") [] ("F", "F")%char)
               (mk_wire (str "00000004") [] ("0", "0")%char)
  /\ wire_ok (mk_wire (str "00000004") [] ("F", "F")%char) = true
  /\ wire_ok (mk_wire (str "00000004") [] ("0", "0")%char) = true
  /\ ihex_read line_init (lines [":00000004FF"; ":0100000011EE"]%string) [0] 0 1
     = Failed (AddressLengthError 0 1 2) []
  /\ ihex_read line_init (lines [":0000000400"; ":0100000011EE"]%string) [0] 0 1
     = Returned 1 [0x11] [mk_event 0 0 1 0 0x11].
Proof. repeat split; vm_compute; reflexivity. Qed.

(** C10.  A store can fall outside the caller's window: with the window
    [0xFFFFFFF0, 0xFFFFFFFF) of 15 bytes, the Data line at absolute address
    0xFFFFFFFF with length 2 passes both range checks (the sum wraps to 1)
    and its bytes are stored at indices 15 and 16. *)
Theorem store_outside_window :
  exists b t,
    ihex_read line_init (lines [":02000004FFFFFC"; ":02FFFF00AABB9B"]%string)
      (repeat 0 15%nat) 0xFFFFFFF0 0xFFFFFFFF
    = Returned 17 b t
    /\ Exists (fun e => ~ in_window 0xFFFFFFF0 0xFFFFFFFF e) t.
Proof.
  eexists. eexists. split; [vm_compute; reflexivity |].
  apply Exists_cons_hd. unfold in_window. cbn [ev_index]. lia.
Qed.

(* ================================================================== *)
(** * Further properties *)

(* ------------------------------------------------------------------ *)
(** ** Records and characters of the encoder *)

Lemma data_spans_app (l1 l2 : list record) :
  data_spans (l1 ++ l2) = data_spans l1 ++ data_spans l2.
Proof.
  induction l1 as [| r l1 IH]; [reflexivity |].
  destruct r; cbn [app data_spans]; now rewrite IH.
Qed.

Lemma data_bytes_app (l1 l2 : list record) :
  data_bytes (l1 ++ l2) = data_bytes l1 ++ data_bytes l2.
Proof.
  induction l1 as [| r l1 IH]; [reflexivity |].
  destruct r; cbn [app data_bytes]; rewrite IH; [reflexivity | | reflexivity].
  now rewrite app_assoc.
Qed.

Lemma chunk_records_spans (b : list Z) (start end_ cur cs : Z) :
  data_spans (chunk_records b start end_ cur cs) = [(cs, chunk_size cs end_)].
Proof.
  unfold chunk_records. destruct (uint32 cur =? cs / 65536); reflexivity.
Qed.

Lemma chunk_records_bytes (b : list Z) (start end_ cur cs : Z) :
  data_bytes (chunk_records b start end_ cur cs)
  = slice b (cs - start) (chunk_size cs end_).
Proof.
  unfold chunk_records. destruct (uint32 cur =? cs / 65536);
    cbn [app data_bytes]; now rewrite app_nil_r.
Qed.

Lemma slice_skipn (b : list Z) (lo n : Z) :
  0 <= lo -> 0 <= n ->
  slice b lo n ++ skipn (Z.to_nat (lo + n)) b = skipn (Z.to_nat lo) b.
Proof.
  intros Hlo Hn. unfold slice.
  replace (Z.to_nat (lo + n)) with (Z.to_nat n + Z.to_nat lo)%nat by lia.
  rewrite <- skipn_skipn. apply firstn_skipn.
Qed.

Lemma firstn_plus {A : Type} (n m : nat) (l : list A) :
  firstn n l ++ firstn m (skipn n l) = firstn (n + m) l.
Proof.
  revert l. induction n as [| n IH]; intros l; [reflexivity |].
  destruct l as [| x l]; [now destruct m |].
  cbn [firstn skipn app Nat.add]. now rewrite IH.
Qed.

Lemma slice_slice (b : list Z) (lo n m : Z) :
  0 <= lo -> 0 <= n -> 0 <= m ->
  slice b lo n ++ slice b (lo + n) m = slice b lo (n + m).
Proof.
  intros Hlo Hn Hm. unfold slice.
  replace (Z.to_nat (lo + n)) with (Z.to_nat n + Z.to_nat lo)%nat by lia.
  rewrite <- skipn_skipn, firstn_plus. f_equal. lia.
Qed.

Lemma write_records_tile (b : list Z) (start end_ : Z) :
  0 <= start -> start <= end_ -> end_ < 2 ^ 32 ->
  exists recs,
    ihex_write_records b start end_ = Some recs
    /\ tiles start end_ (data_spans recs)
    /\ data_bytes recs = firstn (Z.to_nat (end_ - start)) b.
Proof.
  intros Hs Hle He. unfold ihex_write_records.
  destruct (write_loop_ind b start end_ Hs He
              (fun _ cs recs =>
                 cs <= end_ ->
                 tiles cs end_ (data_spans recs)
                 /\ data_bytes recs = slice b (cs - start) (end_ - cs)))
    with (fuel := Z.to_nat (end_ - start))
         (cur := if end_ >? 65535 then -1 else 0) (cs := start)
    as (recs & Hw & HP).
  - intros cur cs Hge Hcs. assert (cs = end_) by lia. subst cs.
    split; [reflexivity |]. rewrite Z.sub_diag. reflexivity.
  - intros cur cs rest Hcs IH _.
    destruct (chunk_size_bounds cs end_ ltac:(lia)) as (Hl & Hle' & Hp).
    destruct (IH ltac:(lia)) as (Ht & Hb).
    rewrite data_spans_app, data_bytes_app, chunk_records_spans, chunk_records_bytes.
    split.
    + cbn [app tiles]. repeat split; [lia | exact Ht].
    + rewrite Hb.
      replace (cs + chunk_size cs end_ - start) with (cs - start + chunk_size cs end_) by lia.
      rewrite slice_slice by lia. f_equal. lia.
  - lia.
  - lia.
  - exists recs. destruct (HP Hle) as (Ht & Hb). repeat split; [exact Hw | exact Ht |].
    rewrite Hb, Z.sub_diag. reflexivity.
Qed.

Lemma out_char_hexdigit (v : Z) : 0 <= v < 16 -> out_char (hexdigit v) = true.
Proof.
  intros H.
  assert (Hv : v = 0 \/ v = 1 \/ v = 2 \/ v = 3 \/ v = 4 \/ v = 5 \/ v = 6 \/ v = 7
               \/ v = 8 \/ v = 9 \/ v = 10 \/ v = 11 \/ v = 12 \/ v = 13 \/ v = 14
               \/ v = 15) by lia.
  repeat (destruct Hv as [-> | Hv]; [reflexivity |]). subst v. reflexivity.
Qed.

Lemma out_char_fmt_X_2 (v : Z) : is_byte v -> forallb out_char (fmt_X 2 v) = true.
Proof.
  intros H. rewrite fmt_X_2 by exact H. cbn [forallb].
  rewrite !out_char_hexdigit by (unfold is_byte in H; Z.div_mod_to_equations; lia).
  reflexivity.
Qed.

Lemma out_char_fmt_X_4 (v : Z) : 0 <= v < 65536 -> forallb out_char (fmt_X 4 v) = true.
Proof.
  intros H. rewrite fmt_X_4 by exact H. rewrite forallb_app.
  rewrite !out_char_fmt_X_2 by (unfold is_byte; Z.div_mod_to_equations; lia).
  reflexivity.
Qed.

Lemma out_char_bytes (bytes : list Z) :
  Forall is_byte bytes -> forallb out_char (flat_map (fmt_X 2) bytes) = true.
Proof.
  induction 1 as [| v l Hv _ IH]; [reflexivity |].
  cbn [flat_map]. now rewrite forallb_app, out_char_fmt_X_2, IH.
Qed.

Lemma out_char_render (r : record) :
  rec_good r -> forallb out_char (render r) = true.
Proof.
  destruct r as [cur sum | len cs bytes sum |]; cbn [rec_good render].
  - intros (Hc & Hs). rewrite !forallb_app.
    rewrite out_char_fmt_X_4, out_char_fmt_X_2 by assumption. reflexivity.
  - intros (Hl & Hn & Hb & Hs). rewrite !forallb_app.
    rewrite (out_char_fmt_X_2 len) by exact Hl.
    rewrite out_char_fmt_X_4 by (rewrite land_ffff; apply Z.mod_pos_bound; lia).
    rewrite out_char_bytes, out_char_fmt_X_2 by assumption. reflexivity.
  - intros _. reflexivity.
Qed.

Lemma wire_text_length (w : wire) :
  wire_ok w = true ->
  List.length (wire_text w) = (12 + 2 * List.length (w_data w))%nat.
Proof.
  intros H. apply wire_ok_inv in H as (Hl & _ & _ & Hs & _).
  rewrite wire_text_split, length_app, (tail_length _ Hs).
  cbn [List.length]. rewrite Hl. lia.
Qed.

Lemma sum_list_app (l1 l2 : list Z) : sum_list (l1 ++ l2) = sum_list l1 + sum_list l2.
Proof.
  unfold sum_list. induction l1 as [| x l1 IH]; [reflexivity |].
  cbn [app fold_right]. rewrite IH. lia.
Qed.

Lemma render_wires (recs : list record) :
  Forall rec_good recs ->
  flat_map render recs = wires_text (map wire_of recs)
  /\ wires_ok (map wire_of recs) = true.
Proof.
  induction 1 as [| r l Hr _ [IH1 IH2]]; [split; reflexivity |].
  unfold wires_text in *. cbn [flat_map map wires_ok forallb].
  destruct (wire_of_ok r Hr) as [-> ->]. rewrite IH1, render_wire by exact Hr.
  split; [reflexivity | exact IH2].
Qed.

(** X1.  The Data records [ihex_write] emits cover the range exactly: the
    first starts at [start], each next one starts where the one before
    ended, the last ends at [end], none is empty; and the bytes they carry,
    in order, are the first [end - start] bytes of the buffer. *)
Theorem data_records_tile_range (b : list Z) (start end_ : Z) :
  0 <= start -> start <= end_ -> end_ < 2 ^ 32 ->
  exists recs,
    ihex_write_records b start end_ = Some recs
    /\ tiles start end_ (data_spans recs)
    /\ data_bytes recs = firstn (Z.to_nat (end_ - start)) b.
Proof. apply write_records_tile. Qed.

Lemma data_records_tile_range_witness :
  exists recs,
    ihex_write_records (repeat 7 40%nat) 65530 65570 = Some recs
    /\ tiles 65530 65570 (data_spans recs)
    /\ data_bytes recs = firstn (Z.to_nat (65570 - 65530)) (repeat 7 40%nat).
Proof. apply (data_records_tile_range (repeat 7 40%nat) 65530 65570); lia. Defined.

(** X2.  For a buffer of [end - start] bytes, the text [ihex_write] writes
    is a sequence of well-formed lines (a colon, eight header digits, as many
    payload bytes as the length field says, a checksum field, a newline),
    each of at most 76 characters, and it holds no character other than the
    colon, the newline, decimal digits and the upper-case letters A to F. *)
Theorem written_lines_well_formed (b : list Z) (start end_ : Z) :
  0 <= start -> end_ < 2 ^ 32 ->
  Z.of_nat (List.length b) = end_ - start ->
  Forall is_byte b ->
  exists text ws,
    ihex_write b start end_ = Some text
    /\ text = wires_text ws
    /\ wires_ok ws = true
    /\ Forall (fun w => (List.length (wire_text w) <= 76)%nat) ws
    /\ forallb out_char text = true.
Proof.
  intros Hs He Hlen Hb.
  destruct (write_records_good b start end_ Hs He Hlen Hb) as (recs & Hw & Hgood).
  destruct (write_records_chunks b start end_ Hs He) as (recs' & Hw' & Hch).
  rewrite Hw in Hw'. injection Hw' as <-.
  destruct (render_wires recs Hgood) as (Htext & Hok).
  exists (flat_map render recs), (map wire_of recs).
  repeat split; try assumption.
  - unfold ihex_write. now rewrite Hw.
  - clear Hw Htext Hok. apply Forall_map.
    induction Hgood as [| r l Hr _ IH]; [constructor |].
    inversion Hch as [| ? ? Hp Hch']; subst.
    constructor; [| now apply IH].
    rewrite wire_text_length by (now apply wire_of_ok).
    destruct r as [cur sum | len cs bytes sum |]; cbn [wire_of w_data List.length].
    + lia.
    + rewrite length_map. cbn [data_in_page] in Hp. lia.
    + lia.
  - clear Hw Htext Hok Hch. induction Hgood as [| r l Hr _ IH]; [reflexivity |].
    cbn [flat_map]. now rewrite forallb_app, out_char_render, IH.
Qed.

Lemma written_lines_well_formed_witness :
  exists text ws,
    ihex_write [0x11; 0x22; 0x33] 65536 65539 = Some text
    /\ text = wires_text ws
    /\ wires_ok ws = true
    /\ Forall (fun w => (List.length (wire_text w) <= 76)%nat) ws
    /\ forallb out_char text = true.
Proof.
  apply (written_lines_well_formed [0x11; 0x22; 0x33] 65536 65539);
    [lia | lia | reflexivity |].
  repeat constructor; unfold is_byte; lia.
Defined.

(** X3.  The End-Of-File record is the last record [ihex_write] emits and
    the only one of its kind; for an empty range ([end <= start]) it is the
    only record. *)
Theorem eof_record_last (b : list Z) (start end_ : Z) :
  0 <= start -> end_ < 2 ^ 32 ->
  exists body,
    ihex_write_records b start end_ = Some (body ++ [EOF])
    /\ Forall (fun r => r <> EOF) body
    /\ (end_ <= start -> body = []).
Proof.
  intros Hs He. unfold ihex_write_records.
  destruct (write_loop_ind b start end_ Hs He
              (fun _ cs recs =>
                 exists body, recs = body ++ [EOF]
                              /\ Forall (fun r => r <> EOF) body
                              /\ (end_ <= cs -> body = [])))
    with (fuel := Z.to_nat (end_ - start))
         (cur := if end_ >? 65535 then -1 else 0) (cs := start)
    as (recs & Hw & body & -> & Hb & He0).
  - intros cur cs Hge. exists []. repeat split; constructor.
  - intros cur cs rest Hcs (body & -> & Hb & _).
    exists (chunk_records b start end_ cur cs ++ body).
    repeat split; [now rewrite app_assoc | | lia].
    apply Forall_app. split; [| exact Hb].
    unfold chunk_records. destruct (uint32 cur =? cs / 65536);
      repeat constructor; discriminate.
  - lia.
  - lia.
  - exists body. repeat split; assumption.
Qed.

Lemma eof_record_last_witness :
  exists body,
    ihex_write_records [0x11; 0x22; 0x33] 0 3 = Some (body ++ [EOF])
    /\ Forall (fun r => r <> EOF) body
    /\ (3 <= 0 -> body = []).
Proof. apply (eof_record_last [0x11; 0x22; 0x33] 0 3); lia. Defined.

(** X4.  [checksum] tells apart two data sequences that differ in one byte:
    with the same length, address and type fields, replacing one byte by a
    different byte changes the checksum. *)
Theorem checksum_detects_byte_change (pre post : list Z) (x y : Z)
    (chunk_len chunk_addr chunk_type : Z) :
  is_byte x -> is_byte y -> x <> y ->
  checksum (pre ++ x :: post) (Z.of_nat (List.length (pre ++ x :: post)))
    chunk_len chunk_addr chunk_type
  <> checksum (pre ++ y :: post) (Z.of_nat (List.length (pre ++ y :: post)))
       chunk_len chunk_addr chunk_type.
Proof.
  intros Hx Hy Hxy. rewrite !checksum_value, !Nat2Z.id, !firstn_all.
  rewrite !sum_list_app. cbn [sum_list fold_right]. fold (sum_list post).
  set (t := chunk_len + LO chunk_addr + HI chunk_addr + chunk_type).
  set (p := sum_list pre). set (q := sum_list post).
  unfold is_byte in *. intros H. Z.div_mod_to_equations. lia.
Qed.

Lemma checksum_detects_byte_change_witness :
  checksum ([0x11] ++ 0x22 :: [0x33]) (Z.of_nat (List.length ([0x11] ++ 0x22 :: [0x33])))
    3 0 0
  <> checksum ([0x11] ++ 0x23 :: [0x33]) (Z.of_nat (List.length ([0x11] ++ 0x23 :: [0x33])))
       3 0 0.
Proof.
  apply (checksum_detects_byte_change [0x11] [0x33] 0x22 0x23 3 0 0);
    unfold is_byte; lia.
Defined.

(** X5.  Every store [ihex_read] executes, in a call that succeeds or in one
    that fails later, was made after both range checks passed; when the sum
    [chunk_addr + offset + chunk_len] of its line does not wrap around 2^32,
    the index stored to lies inside the window [0, end - start). *)
Theorem stores_in_window_without_wrap (line file : list ascii) (b : list Z)
    (start end_ : Z) :
  0 <= start ->
  Forall (fun e => checked start end_ e
                   /\ (ev_addr e + ev_offset e + ev_len e < 2 ^ 32 ->
                       in_window start end_ e))
    (outcome_trace (ihex_read line file b start end_)).
Proof.
  intros Hs. pose proof (stores_checked line file b start end_) as H.
  rewrite Forall_forall in *. intros e He. split; [now apply H |].
  intros Hw. apply checked_in_window; auto.
Qed.

Lemma stores_in_window_without_wrap_witness :
  Forall (fun e => checked 0x0E 0x16 e
                   /\ (ev_addr e + ev_offset e + ev_len e < 2 ^ 32 ->
                       in_window 0x0E 0x16 e))
    (outcome_trace
       (ihex_read line_init (lines [":0300100011223387"; ":00000001FF"]%string)
          [0; 0; 0; 0; 0; 0; 0; 0] 0x0E 0x16)).
Proof. apply stores_in_window_without_wrap. lia. Defined.

(** X6.  In any state of the read loop, a well-formed Data line with at least
    one byte whose address (in the decoder's 32-bit arithmetic) lies below
    [start], or whose address plus length lies above [end], ends the call
    with the address error for that line; no byte of the line is stored (the
    stores are those of the earlier lines). *)
Theorem failed_range_check_stores_nothing (start end_ : Z) (w : wire) (fuel : nat)
    (rest line : list ascii) (line_no offset : Z) (s : wstate) :
  wire_ok w = true -> w_type w = 0 -> 1 <= w_len w ->
  uint32 (w_addr w + offset) < start \/ uint32 (w_addr w + offset + w_len w) > end_ ->
  exists e,
    read_loop (S fuel) start end_ (wire_text w ++ rest) line line_no offset s
    = Failed e (trace s)
    /\ (e = AddressError (w_addr w) (uint32 (line_no + 1))
        \/ e = AddressLengthError (w_addr w) (w_len w) (uint32 (line_no + 1))).
Proof. apply range_check_rejects. Qed.

Lemma failed_range_check_stores_nothing_witness :
  exists e,
    read_loop 1 0 2
      (wire_text (mk_wire (str "03000000")
                    [("1", "1"); ("2", "2"); ("3", "3")]%char ("9", "7")%char) ++ [])
      line_init 0 0 (mk_wstate [0; 0] 0 [])
    = Failed e (trace (mk_wstate [0; 0] 0 []))
    /\ (e = AddressError
              (w_addr (mk_wire (str "03000000")
                         [("1", "1"); ("2", "2"); ("3", "3")]%char ("9", "7")%char))
              (uint32 (0 + 1))
        \/ e = AddressLengthError
                 (w_addr (mk_wire (str "03000000")
                            [("1", "1"); ("2", "2"); ("3", "3")]%char ("9", "7")%char))
                 (w_len (mk_wire (str "03000000")
                           [("1", "1"); ("2", "2"); ("3", "3")]%char ("9", "7")%char))
                 (uint32 (0 + 1))).
Proof.
  apply (failed_range_check_stores_nothing 0 2
           (mk_wire (str "03000000")
              [("1", "1"); ("2", "2"); ("3", "3")]%char ("9", "7")%char)
           0 [] line_init 0 0 (mk_wstate [0; 0] 0 []));
    [reflexivity | reflexivity | vm_compute; discriminate | right; vm_compute; reflexivity].
Defined.

(* ------------------------------------------------------------------ *)
(** ** The read loop after a prefix of lines *)

Lemma decode_wires_run (start end_ : Z) (ws : list wire) :
  forall (line_no offset : Z) (s : wstate),
    decode_wires start end_ ws line_no offset s
    = match run_wires start end_ ws line_no offset s with
      | Ok (_, _, s') =>
          Returned (int32 (uint32 (greatest_addr s' - start))) (buf s') (trace s')
      | Err e t => Failed e t
      | NoFuel => Fuel
      end.
Proof.
  induction ws as [| w ws IH]; intros line_no offset s; [reflexivity |].
  cbn [decode_wires run_wires].
  destruct (wire_step start end_ (uint32 (line_no + 1)) w offset s) as [[o s'] | e t |];
    try reflexivity.
  apply IH.
Qed.

Lemma read_loop_prefix (start end_ : Z) (ws : list wire) :
  wires_ok ws = true ->
  forall (fuel : nat) (rest line : list ascii) (line_no offset : Z) (s : wstate),
    exists line',
      read_loop (List.length ws + fuel) start end_ (wires_text ws ++ rest)
        line line_no offset s
      = match run_wires start end_ ws line_no offset s with
        | Ok (line_no', offset', s') =>
            read_loop fuel start end_ rest line' line_no' offset' s'
        | Err e t => Failed e t
        | NoFuel => Fuel
        end.
Proof.
  induction ws as [| w ws IH]; intros H fuel rest line line_no offset s.
  - exists line. reflexivity.
  - cbn [wires_ok forallb] in H. apply andb_prop in H as [Hw Hws].
    apply andb_prop in Hw as [Hok Hext].
    unfold wires_text in *. cbn [flat_map List.length Nat.add run_wires].
    rewrite <- app_assoc.
    rewrite (read_loop_wire start end_ w _ _ line line_no offset s Hok Hext).
    destruct (wire_step start end_ (uint32 (line_no + 1)) w offset s) as [[o s'] | e t |].
    + apply (IH Hws).
    + exists line. reflexivity.
    + exists line. reflexivity.
Qed.

Lemma run_wires_line_no (start end_ : Z) (ws : list wire) :
  forall (line_no offset : Z) (s : wstate) (line_no' offset' : Z) (s' : wstate),
    run_wires start end_ ws line_no offset s = Ok (line_no', offset', s') ->
    0 <= line_no -> line_no + Z.of_nat (List.length ws) < 2 ^ 32 ->
    line_no' = line_no + Z.of_nat (List.length ws).
Proof.
  induction ws as [| w ws IH]; intros line_no offset s line_no' offset' s' H H0 Hlt.
  - injection H as <- _ _. cbn [List.length]. lia.
  - cbn [run_wires] in H. cbn [List.length] in Hlt.
    destruct (wire_step start end_ (uint32 (line_no + 1)) w offset s) as [[o s1] | e t |];
      try discriminate.
    apply IH in H; rewrite ?uint32_small in * by lia; try lia.
    cbn [List.length]. lia.
Qed.

Lemma fgets_chars_cons (n : nat) (c : ascii) (r : list ascii) :
  fgets_chars (S n) (c :: r)
  = if code c =? 10 then ([c], r)
    else let (l, rr) := fgets_chars n r in (c :: l, rr).
Proof. reflexivity. Qed.

(** A line that does not begin with a colon. *)
Lemma read_loop_bad_start (start end_ : Z) (fuel : nat) (c : ascii)
    (r line : list ascii) (line_no offset : Z) (s : wstate) :
  (code c =? 58) = false ->
  read_loop (S fuel) start end_ (c :: r) line line_no offset s
  = Failed (ParseError (uint32 (line_no + 1))) (trace s).
Proof.
  intros Hc. rewrite read_loop_unfold. unfold fgets.
  change (Nat.pred 523) with (S 521). rewrite fgets_chars_cons.
  destruct (code c =? 10).
  - cbv beta iota zeta. rewrite strip_cr_id. cbn [app cstr].
    destruct (code c =? 0); cbn [scan_header]; [reflexivity |].
    rewrite Hc. reflexivity.
  - destruct (fgets_chars 521 r) as [l rr]. cbv beta iota zeta. rewrite strip_cr_id.
    cbn [app cstr].
    destruct (code c =? 0); cbn [scan_header]; [reflexivity |].
    rewrite Hc. reflexivity.
Qed.

Lemma skipn_upd {A : Type} (n m : nat) (v : A) (l : list A) :
  (n < m)%nat -> skipn m (upd n v l) = skipn m l.
Proof.
  revert n m. induction l as [| x l IH]; intros n m H.
  - reflexivity.
  - destruct m as [| m]; [lia |]. destruct n as [| n]; cbn [upd skipn]; [reflexivity |].
    apply IH. lia.
Qed.

(** The array after the stores of one Data line. *)
Lemma store_chunk_buf (start chunk_len chunk_addr offset : Z) (bytes : list Z) :
  forall (k : Z) (s : wstate) (n : nat),
    Z.of_nat n = chunk_addr + offset - start + k ->
    Z.of_nat (List.length (buf s)) < 2 ^ 32 ->
    (n + List.length bytes <= List.length (buf s))%nat ->
    buf (store_chunk start chunk_len chunk_addr offset k bytes s)
    = firstn n (buf s) ++ bytes ++ skipn (n + List.length bytes) (buf s).
Proof.
  induction bytes as [| v r IH]; intros k s n Hn H32 Hlen.
  - cbn [store_chunk List.length app]. rewrite Nat.add_0_r. symmetry. apply firstn_skipn.
  - cbn [store_chunk]. cbn [List.length] in Hlen.
    rewrite (IH (k + 1) _ (S n)); cbn [buf]; rewrite ?store_length; try lia.
    unfold store. rewrite uint32_small by lia.
    replace (chunk_addr + offset - start + k <? Z.of_nat (List.length (buf s)))
      with true by lia.
    rewrite <- Hn, Nat2Z.id, firstn_upd by lia.
    rewrite skipn_upd by lia.
    cbn [List.length].
    replace (S n + List.length r)%nat with (n + S (List.length r))%nat by lia.
    rewrite <- app_assoc. reflexivity.
Qed.

Lemma hexnum_two_bytes (a1 a2 b1 b2 : ascii) :
  hexnum [a1; a2; b1; b2] = 256 * hexnum [a1; a2] + hexnum [b1; b2].
Proof. rewrite hexnum_4, !hexnum_pair. lia. Qed.

(** X7.  After any number of well-formed lines that decode without error, a
    line that does not begin with a colon (a blank line included) ends
    [ihex_read] with the parse error that carries the 1-based number of that
    line; the stores of the lines before it have been made. *)
Theorem bad_line_start_reports_line (ws : list wire) (c : ascii) (r line : list ascii)
    (b b' : list Z) (start end_ ret : Z) (t : list store_event) :
  wires_ok ws = true ->
  Z.of_nat (List.length ws) + 1 < 2 ^ 32 ->
  ihex_read line (wires_text ws) b start end_ = Returned ret b' t ->
  (code c =? 58) = false ->
  ihex_read line (wires_text ws ++ c :: r) b start end_
  = Failed (ParseError (Z.of_nat (List.length ws) + 1)) t.
Proof.
  intros Hok Hn Hpre Hc.
  unfold wires_text in Hpre. rewrite ihex_read_wires, decode_wires_run in Hpre by exact Hok.
  destruct (run_wires start end_ ws 0 0 (mk_wstate b 0 [])) as [[[ln off] s'] | e t' |] eqn:Er;
    try discriminate.
  injection Hpre as _ _ Ht.
  pose proof (run_wires_line_no _ _ _ _ _ _ _ _ _ Er ltac:(lia) ltac:(lia)) as Hln.
  unfold ihex_read.
  assert (Hf : exists fuel,
             List.length (wires_text ws ++ c :: r) = (List.length ws + S fuel)%nat).
  { rewrite length_app. cbn [List.length]. pose proof (wires_length ws) as Hl.
    unfold wires_text.
    exists (List.length (flat_map wire_text ws) - List.length ws + List.length r)%nat. lia. }
  destruct Hf as (fuel & ->).
  destruct (read_loop_prefix start end_ ws Hok (S fuel) (c :: r) line 0 0 (mk_wstate b 0 []))
    as (line' & ->).
  rewrite Er, read_loop_bad_start by exact Hc.
  rewrite Hln, uint32_small, Ht by lia. repeat f_equal; lia.
Qed.

Lemma bad_line_start_reports_line_witness :
  ihex_read line_init
    (wires_text [mk_wire (str "03000000")
                   [("1", "1"); ("2", "2"); ("3", "3")]%char ("9", "7")%char]
     ++ LF :: str ":00000001FF")
    [0; 0; 0] 0 3
  = Failed (ParseError
              (Z.of_nat (List.length
                 [mk_wire (str "03000000")
                    [("1", "1"); ("2", "2"); ("3", "3")]%char ("9", "7")%char]) + 1))
      [mk_event 0 0 3 0 0x11; mk_event 0 0 3 1 0x22; mk_event 0 0 3 2 0x33].
Proof.
  apply (bad_line_start_reports_line _ LF (str ":00000001FF") line_init
           [0; 0; 0] [0x11; 0x22; 0x33] 0 3 3);
    [reflexivity | vm_compute; reflexivity | vm_compute; reflexivity | reflexivity].
Defined.

(** X8.  In any state of the read loop, a well-formed line of a type other
    than 00, 02 and 04 (the End-Of-File type 01 included) changes neither the
    offset nor the array nor the maximum: the loop goes on with the next
    line.  The End-Of-File line does not end the decode. *)
Theorem other_types_skipped (start end_ : Z) (w : wire) (fuel : nat)
    (rest line : list ascii) (line_no offset : Z) (s : wstate) :
  wire_ok w = true ->
  w_type w <> 0 -> w_type w <> 2 -> w_type w <> 4 ->
  exists line',
    read_loop (S fuel) start end_ (wire_text w ++ rest) line line_no offset s
    = read_loop fuel start end_ rest line' (uint32 (line_no + 1)) offset s.
Proof.
  intros Hok H0 H2 H4.
  assert (Hext : ext_ok w = true).
  { unfold ext_ok. replace (w_type w =? 2) with false by lia.
    replace (w_type w =? 4) with false by lia. reflexivity. }
  rewrite (read_loop_wire start end_ w fuel rest line line_no offset s Hok Hext).
  unfold wire_step.
  replace (w_type w =? 0) with false by lia.
  replace (w_type w =? 2) with false by lia.
  replace (w_type w =? 4) with false by lia.
  eexists. reflexivity.
Qed.

Lemma other_types_skipped_witness :
  exists line',
    read_loop 2 0 3
      (wire_text (mk_wire (str "00000001") [] ("F", "F")%char)
       ++ str ":0300000011223397")
      line_init 0 0 (mk_wstate [0; 0; 0] 0 [])
    = read_loop 1 0 3 (str ":0300000011223397") line' (uint32 (0 + 1)) 0
        (mk_wstate [0; 0; 0] 0 []).
Proof.
  apply (other_types_skipped 0 3 (mk_wire (str "00000001") [] ("F", "F")%char));
    [reflexivity | vm_compute; discriminate | vm_compute; discriminate
     | vm_compute; discriminate].
Defined.

(** X9.  In any state of the read loop, a well-formed Extended Segment
    Address line (type 02) with at least two payload bytes sets the offset to
    16 times the 16-bit value of its first two payload bytes (high byte
    first), and an Extended Linear Address line (type 04) to 65536 times
    that value; array, maximum and stores are unchanged and the loop goes on
    with the next line. *)
Theorem extension_line_sets_offset (start end_ : Z) (w : wire) (fuel : nat)
    (rest line : list ascii) (line_no offset : Z) (s : wstate) :
  wire_ok w = true -> 2 <= w_len w ->
  w_type w = 2 \/ w_type w = 4 ->
  let v := 256 * nth 0 (w_bytes w) 0 + nth 1 (w_bytes w) 0 in
  0 <= v < 65536
  /\ exists line',
       read_loop (S fuel) start end_ (wire_text w ++ rest) line line_no offset s
       = read_loop fuel start end_ rest line' (uint32 (line_no + 1))
           (if w_type w =? 2 then v * 16 else v * 65536) s.
Proof.
  intros Hok Hlen Ht v.
  assert (Hext : ext_ok w = true).
  { unfold ext_ok. destruct ((w_type w =? 2) || (w_type w =? 4)); [lia | reflexivity]. }
  pose proof (wire_ok_inv w Hok) as (_ & _ & Hd & _ & Hn).
  assert (Hv : hexnum (flat_map pair_chars (firstn 2 (w_data w))) = v /\ 0 <= v < 65536).
  { unfold v, w_bytes.
    destruct (w_data w) as [| [a1 a2] [| [b1 b2] ps]]; try (cbn [List.length] in Hn; lia).
    cbn [firstn flat_map pair_chars fst snd app map nth].
    rewrite hexnum_two_bytes.
    pose proof (hexnum_pair_range a1 a2). pose proof (hexnum_pair_range b1 b2).
    change (pair_chars (a1, a2)) with [a1; a2].
    change (pair_chars (b1, b2)) with [b1; b2].
    split; lia. }
  destruct Hv as (Hv & Hr). split; [exact Hr |].
  rewrite (read_loop_wire start end_ w fuel rest line line_no offset s Hok Hext).
  unfold wire_step. rewrite Hv.
  destruct Ht as [Ht | Ht]; rewrite Ht.
  - change (2 =? 0) with false. change (2 =? 2) with true. cbv iota.
    rewrite (uint32_small (v * 16)) by lia. eexists. reflexivity.
  - change (4 =? 0) with false. change (4 =? 2) with false. change (4 =? 4) with true.
    cbv iota. rewrite (uint32_small (v * 65536)) by lia. eexists. reflexivity.
Qed.

Lemma extension_line_sets_offset_witness :
  0 <= 256 * nth 0 (w_bytes (mk_wire (str "02000002")
                               [("1", "2"); ("3", "4")]%char ("B", "6")%char)) 0
       + nth 1 (w_bytes (mk_wire (str "02000002")
                           [("1", "2"); ("3", "4")]%char ("B", "6")%char)) 0 < 65536
  /\ exists line',
       read_loop 1 0 3
         (wire_text (mk_wire (str "02000002")
                       [("1", "2"); ("3", "4")]%char ("B", "6")%char) ++ [])
         line_init 0 0 (mk_wstate [0; 0; 0] 0 [])
       = read_loop 0 0 3 [] line' (uint32 (0 + 1))
           (if w_type (mk_wire (str "02000002")
                         [("1", "2"); ("3", "4")]%char ("B", "6")%char) =? 2
            then (256 * nth 0 (w_bytes (mk_wire (str "02000002")
                                 [("1", "2"); ("3", "4")]%char ("B", "6")%char)) 0
                  + nth 1 (w_bytes (mk_wire (str "02000002")
                             [("1", "2"); ("3", "4")]%char ("B", "6")%char)) 0) * 16
            else (256 * nth 0 (w_bytes (mk_wire (str "02000002")
                                 [("1", "2"); ("3", "4")]%char ("B", "6")%char)) 0
                  + nth 1 (w_bytes (mk_wire (str "02000002")
                             [("1", "2"); ("3", "4")]%char ("B", "6")%char)) 0) * 65536)
           (mk_wstate [0; 0; 0] 0 []).
Proof.
  apply (extension_line_sets_offset 0 3
           (mk_wire (str "02000002") [("1", "2"); ("3", "4")]%char ("B", "6")%char)
           0 [] line_init 0 0 (mk_wstate [0; 0; 0] 0 []));
    [reflexivity | vm_compute; discriminate | left; reflexivity].
Defined.

(** X10.  In any state of the read loop, a well-formed Data line whose
    address [chunk_addr + offset] and length lie inside [start, end) stores
    its payload bytes, in order, at the indices from
    [chunk_addr + offset - start] on; every other byte of the array is left
    as it was, the offset is kept, and the maximum becomes at least
    address plus length (it is unchanged for an empty line). *)
Theorem data_line_placed (start end_ : Z) (w : wire) (fuel : nat)
    (rest line : list ascii) (line_no offset : Z) (s : wstate) :
  wire_ok w = true -> w_type w = 0 ->
  0 <= start -> 0 <= offset ->
  start <= w_addr w + offset ->
  w_addr w + offset + w_len w <= end_ ->
  end_ < 2 ^ 32 ->
  end_ - start <= Z.of_nat (List.length (buf s)) < 2 ^ 32 ->
  let n := Z.to_nat (w_addr w + offset - start) in
  exists line' s',
    read_loop (S fuel) start end_ (wire_text w ++ rest) line line_no offset s
    = read_loop fuel start end_ rest line' (uint32 (line_no + 1)) offset s'
    /\ buf s' = firstn n (buf s) ++ w_bytes w
                ++ skipn (n + List.length (w_bytes w)) (buf s)
    /\ greatest_addr s'
       = (if w_len w =? 0 then greatest_addr s
          else Z.max (greatest_addr s) (w_addr w + offset + w_len w)).
Proof.
  intros Hok Ht Hs Ho Hlo Hhi He Hb n.
  assert (Hext : ext_ok w = true) by (unfold ext_ok; now rewrite Ht).
  pose proof (wire_ok_inv w Hok) as (_ & _ & _ & _ & Hn).
  assert (Hbl : List.length (w_bytes w) = List.length (w_data w))
    by (unfold w_bytes; apply length_map).
  rewrite (read_loop_wire start end_ w fuel rest line line_no offset s Hok Hext).
  unfold wire_step. rewrite Ht. change (0 =? 0) with true. cbv iota.
  destruct (w_bytes w) as [| b0 bs] eqn:Eb.
  - exists (wire_text w ++ NUL :: skipn (S (List.length (wire_text w))) line), s.
    repeat split.
    + cbn [app List.length]. rewrite Nat.add_0_r. symmetry. apply firstn_skipn.
    + cbn [List.length] in Hbl. replace (w_len w =? 0) with true by lia. reflexivity.
  - assert (Hpos : 1 <= w_len w) by (cbn [List.length] in Hbl; lia).
    rewrite (uint32_small (w_addr w + offset)) by lia.
    rewrite (uint32_small (w_addr w + offset + w_len w)) by lia.
    replace (w_addr w + offset <? start) with false by lia.
    replace (w_addr w + offset + w_len w >? end_) with false by lia.
    eexists. eexists. split; [reflexivity |]. split.
    + apply store_chunk_buf; [unfold n; lia | lia |].
      unfold n. rewrite Hbl. lia.
    + rewrite store_chunk_greatest, uint32_small by lia.
      replace (w_len w =? 0) with false by lia. reflexivity.
Qed.

Lemma data_line_placed_witness :
  exists line' s',
    read_loop 1 0x0E 0x16
      (wire_text (mk_wire (str "03001000")
                    [("1", "1"); ("2", "2"); ("3", "3")]%char ("8", "7")%char) ++ [])
      line_init 0 0 (mk_wstate [0; 0; 0; 0; 0; 0; 0; 0] 0 [])
    = read_loop 0 0x0E 0x16 [] line' (uint32 (0 + 1)) 0 s'
    /\ buf s' = [0; 0; 0x11; 0x22; 0x33; 0; 0; 0]
    /\ greatest_addr s' = 0x13.
Proof.
  destruct (data_line_placed 0x0E 0x16
              (mk_wire (str "03001000")
                 [("1", "1"); ("2", "2"); ("3", "3")]%char ("8", "7")%char)
              0 [] line_init 0 0 (mk_wstate [0; 0; 0; 0; 0; 0; 0; 0] 0 []))
    as (line' & s' & H1 & H2 & H3);
    [reflexivity | reflexivity | lia | lia | vm_compute; discriminate
     | vm_compute; discriminate | lia | cbn [buf List.length]; lia |].
  exists line', s'. split; [exact H1 |]. split; [exact H2 | exact H3].
Defined.

(* ------------------------------------------------------------------ *)
(** ** Decoding into a larger window *)

Lemma firstn_app_exact {A : Type} (x y : list A) (n : nat) :
  n = List.length x -> firstn n (x ++ y) = x.
Proof.
  intros ->. rewrite firstn_app, Nat.sub_diag, firstn_all. cbn [firstn]. apply app_nil_r.
Qed.

Lemma skipn_app_exact {A : Type} (x y : list A) (n j : nat) :
  n = List.length x -> skipn (n + j) (x ++ y) = skipn j y.
Proof.
  intros ->. rewrite skipn_app, skipn_all2 by lia. cbn [app]. f_equal. lia.
Qed.

Section Window.

(** The encoder works on [start, end), the decoder on the window
    [rstart, rend) that contains it. *)
Variables (b dst : list Z) (start end_ rstart rend : Z).
Hypothesis rstart_nonneg : 0 <= rstart.
Hypothesis rstart_le : rstart <= start.
Hypothesis start_lt : start < end_.
Hypothesis end_le : end_ <= rend.
Hypothesis rend_u32 : rend < 2 ^ 32.
Hypothesis b_length : Z.of_nat (List.length b) = end_ - start.
Hypothesis b_bytes : Forall is_byte b.
Hypothesis dst_length : Z.of_nat (List.length dst) = rend - rstart.

Lemma wire_step_data_window (line_no cs : Z) (s : wstate) :
  start <= cs < end_ ->
  let len := chunk_size cs end_ in
  let r := Data len cs (slice b (cs - start) len)
             (checksum (skipn (Z.to_nat (cs - start)) b) len len (int32 cs) 0) in
  wire_step rstart rend line_no (wire_of r) (cs / 65536 * 65536) s
  = Ok (cs / 65536 * 65536,
        store_chunk rstart len (cs mod 65536) (cs / 65536 * 65536) 0
          (slice b (cs - start) len) s).
Proof.
  intros Hcs len r.
  destruct (chunk_size_bounds cs end_ ltac:(lia)) as (Hl & Hle & Hp). fold len in Hl, Hle, Hp.
  assert (Hgood : rec_good r).
  { pose proof (chunk_records_good b start end_ ltac:(lia) ltac:(lia) b_length b_bytes 0 cs Hcs)
      as H.
    unfold chunk_records in H. apply Forall_app in H as [_ H]. now inversion H. }
  destruct (wire_of_fields r Hgood) as (Hlen & Haddr & Htype & Hbytes).
  unfold wire_step. rewrite Htype, Hbytes, Hlen, Haddr.
  cbn [r rec_type rec_bytes rec_len rec_addr]. change (0 =? 0) with true. cbv iota.
  rewrite land_ffff.
  assert (Hcsd : cs mod 65536 + cs / 65536 * 65536 = cs) by (Z.div_mod_to_equations; lia).
  rewrite Hcsd.
  rewrite (uint32_small cs), (uint32_small (cs + len)) by lia.
  replace (cs <? rstart) with false by lia.
  replace (cs + len >? rend) with false by lia.
  destruct (slice b (cs - start) len) eqn:E; [| reflexivity].
  exfalso. pose proof (slice_length b (cs - start) len) as Hs.
  rewrite E in Hs. simpl in Hs. lia.
Qed.

Lemma partly_step (cs len : Z) :
  start <= cs -> 1 <= len -> cs + len <= end_ ->
  firstn (Z.to_nat (cs - rstart)) (partly b dst start rstart cs)
  ++ slice b (cs - start) len
  ++ skipn (Z.to_nat (cs - rstart) + List.length (slice b (cs - start) len)) (partly b dst start rstart cs)
  = partly b dst start rstart (cs + len).
Proof.
  intros Hcs Hl Hle. unfold partly.
  assert (Hsl : Z.of_nat (List.length (slice b (cs - start) len)) = len)
    by (apply slice_length; lia).
  set (x := firstn (Z.to_nat (start - rstart)) dst).
  set (y := firstn (Z.to_nat (cs - start)) b).
  assert (Hx : List.length x = Z.to_nat (start - rstart))
    by (unfold x; rewrite length_firstn; lia).
  assert (Hy : List.length y = Z.to_nat (cs - start))
    by (unfold y; rewrite length_firstn; lia).
  rewrite (app_assoc x y).
  rewrite (firstn_app_exact (x ++ y)) by (rewrite length_app; lia).
  rewrite (skipn_app_exact (x ++ y)) by (rewrite length_app; lia).
  rewrite skipn_skipn.
  replace (List.length (slice b (cs - start) len) + Z.to_nat (cs - rstart))%nat
    with (Z.to_nat (cs + len - rstart)) by lia.
  rewrite <- !app_assoc. f_equal. rewrite !app_assoc. f_equal.
  unfold y, slice. rewrite firstn_plus. f_equal. lia.
Qed.

Lemma decode_written_window (fuel : nat) (cur cs : Z) :
  start <= cs -> (Z.to_nat (end_ - cs) <= fuel)%nat ->
  exists recs,
    write_loop fuel b start end_ cur cs = Some recs
    /\ forall (line_no offset : Z) (s : wstate),
         cs <= end_ ->
         (uint32 cur = cs / 65536 -> offset = cs / 65536 * 65536) ->
         buf s = partly b dst start rstart cs ->
         greatest_addr s <= cs ->
         (start < cs -> greatest_addr s = cs) ->
         exists t,
           decode_wires rstart rend (map wire_of recs) line_no offset s
           = Returned (int32 (end_ - rstart)) (partly b dst start rstart end_) t.
Proof.
  intros Hcs Hf.
  assert (Hplen : forall c, start <= c <= end_ ->
                            Z.of_nat (List.length (partly b dst start rstart c)) = rend - rstart).
  { intros c Hc. unfold partly. rewrite !length_app, !length_firstn, length_skipn. lia. }
  apply (write_loop_ind b start end_ ltac:(lia) ltac:(lia)
           (fun cur cs recs =>
              forall (line_no offset : Z) (s : wstate),
                cs <= end_ ->
                (uint32 cur = cs / 65536 -> offset = cs / 65536 * 65536) ->
                buf s = partly b dst start rstart cs ->
                greatest_addr s <= cs ->
                (start < cs -> greatest_addr s = cs) ->
                exists t,
                  decode_wires rstart rend (map wire_of recs) line_no offset s
                  = Returned (int32 (end_ - rstart)) (partly b dst start rstart end_) t)); try assumption.
  - clear cur cs Hcs Hf. intros cur cs Hge line_no offset s Hle _ Hbuf _ Hg.
    assert (cs = end_) by lia. subst cs.
    cbn [map decode_wires]. rewrite wire_step_eof.
    exists (trace s). rewrite Hg, Hbuf by lia. rewrite uint32_small by lia. reflexivity.
  - clear cur cs Hcs Hf. intros cur cs rest Hcs IH line_no offset s Hle Hoff Hbuf Hgle Hg.
    destruct (chunk_size_bounds cs end_ ltac:(lia)) as (Hl & Hle' & Hp).
    assert (Hpage : 0 <= cs / 65536 < 65536) by (Z.div_mod_to_equations; lia).
    set (len := chunk_size cs end_) in *.
    set (page := cs / 65536) in *.
    assert (Hdata : forall line_no offset s0,
               offset = page * 65536 ->
               buf s0 = partly b dst start rstart cs ->
               greatest_addr s0 <= cs ->
               exists t,
                 decode_wires rstart rend
                   (wire_of (Data len cs (slice b (cs - start) len)
                      (checksum (skipn (Z.to_nat (cs - start)) b) len len (int32 cs) 0))
                    :: map wire_of rest) line_no offset s0
                 = Returned (int32 (end_ - rstart)) (partly b dst start rstart end_) t).
    { clear line_no offset s Hoff Hbuf Hgle Hg.
      intros line_no offset s -> Hbuf Hgle.
      cbn [decode_wires].
      pose proof (wire_step_data_window (uint32 (line_no + 1)) cs s Hcs) as Hws.
      cbv zeta in Hws. fold len in Hws. fold page in Hws. rewrite Hws. clear Hws.
      set (bytes := slice b (cs - start) len).
      assert (Hbl : Z.of_nat (List.length bytes) = len) by (apply slice_length; lia).
      set (s' := store_chunk _ _ _ _ _ _ _).
      assert (Htop : uint32 (cs mod 65536 + page * 65536 + len) = cs + len).
      { rewrite uint32_small; unfold page; Z.div_mod_to_equations; lia. }
      apply IH.
      - lia.
      - unfold next_ela. fold page. intros Hn.
        assert (uint32 page = page) by (apply uint32_small; lia).
        destruct (uint32 cur =? page) eqn:E; [apply Z.eqb_eq in E |]; lia.
      - unfold s'.
        rewrite (store_chunk_buf _ _ _ _ _ 0 s (Z.to_nat (cs - rstart))).
        + rewrite Hbuf. apply partly_step; lia.
        + unfold page. Z.div_mod_to_equations. lia.
        + rewrite Hbuf, Hplen by lia. lia.
        + rewrite Hbuf.
          assert (E := Hplen cs ltac:(lia)). lia.
      - unfold s'. rewrite store_chunk_greatest.
        destruct bytes; [simpl in Hbl; lia |]. rewrite Htop. lia.
      - intros _. unfold s'. rewrite store_chunk_greatest.
        destruct bytes; [simpl in Hbl; lia |]. rewrite Htop. lia. }
    unfold chunk_records. fold len. fold page.
    destruct (uint32 cur =? page) eqn:E.
    + apply Z.eqb_eq in E. cbn [app map]. apply Hdata; auto.
    + cbn [app map decode_wires].
      rewrite wire_step_ela by exact Hpage.
      apply Hdata; auto.
Qed.

End Window.

(** X11.  Round trip into a larger window: the text [ihex_write] writes for
    [start, end), decoded by [ihex_read] into any window [rstart, rend) that
    contains the range, puts the original bytes at index [start - rstart] of
    the destination, leaves every other byte of the destination as it was,
    and returns [end - rstart]. *)
Theorem write_read_into_window (line : list ascii) (b dst : list Z)
    (start end_ rstart rend : Z) :
  0 <= rstart -> rstart <= start -> start < end_ -> end_ <= rend -> rend < 2 ^ 32 ->
  Z.of_nat (List.length b) = end_ - start ->
  Forall is_byte b ->
  Z.of_nat (List.length dst) = rend - rstart ->
  exists text t,
    ihex_write b start end_ = Some text
    /\ ihex_read line text dst rstart rend
       = Returned (int32 (end_ - rstart))
           (firstn (Z.to_nat (start - rstart)) dst ++ b
            ++ skipn (Z.to_nat (end_ - rstart)) dst) t.
Proof.
  intros Hrs Hle Hlt Hre H32 Hlen Hb Hd.
  destruct (write_records_good b start end_ ltac:(lia) ltac:(lia) Hlen Hb)
    as (recs & Hw & Hgood).
  destruct (decode_written_window b dst start end_ rstart rend Hrs Hle Hlt Hre H32
              Hlen Hb Hd (Z.to_nat (end_ - start))
              (if end_ >? 65535 then -1 else 0) start ltac:(lia) ltac:(lia))
    as (recs' & Hw' & Hdec).
  unfold ihex_write_records in Hw. rewrite Hw in Hw'. injection Hw' as <-.
  destruct (render_wires recs Hgood) as (Htext & Hok).
  destruct (Hdec 0 0 (mk_wstate dst 0 [])) as (t & Ht).
  - lia.
  - intros Hc. destruct (end_ >? 65535) eqn:E.
    + change (uint32 (-1)) with 4294967295 in Hc. Z.div_mod_to_equations. lia.
    + Z.div_mod_to_equations. lia.
  - cbn [buf]. unfold partly. rewrite Z.sub_diag. cbn [firstn app].
    symmetry. apply firstn_skipn.
  - cbn [greatest_addr]. lia.
  - lia.
  - exists (flat_map render recs), t. split.
    + unfold ihex_write, ihex_write_records. now rewrite Hw.
    + rewrite Htext. unfold wires_text. rewrite ihex_read_wires by exact Hok.
      rewrite Ht. unfold partly. do 3 f_equal.
      rewrite <- (firstn_all b) at 2. f_equal. lia.
Qed.

Lemma write_read_into_window_witness :
  exists text t,
    ihex_write [0x11; 0x22; 0x33] 0x10 0x13 = Some text
    /\ ihex_read line_init text [1; 2; 3; 4; 5; 6; 7; 8] 0x0E 0x16
       = Returned (int32 (0x13 - 0x0E))
           (firstn (Z.to_nat (0x10 - 0x0E)) [1; 2; 3; 4; 5; 6; 7; 8]
            ++ [0x11; 0x22; 0x33]
            ++ skipn (Z.to_nat (0x13 - 0x0E)) [1; 2; 3; 4; 5; 6; 7; 8]) t.
Proof.
  apply (write_read_into_window line_init [0x11; 0x22; 0x33] [1; 2; 3; 4; 5; 6; 7; 8]
           0x10 0x13 0x0E 0x16);
    [lia | lia | lia | lia | lia | reflexivity | | reflexivity].
  repeat constructor; unfold is_byte; lia.
Defined.

(* ------------------------------------------------------------------ *)
(** ** Lines with any characters after the checksum field *)

Section AnyEnding.

Variables (start end_ line_no chunk_len chunk_addr offset : Z).
Variables (cc : ascii * ascii) (term stale : list ascii).
Hypothesis cc_hex : pair_hex cc = true.
Hypothesis term_nonul : nonul term = true.
Hypothesis term_nonempty : (1 <= List.length term)%nat.

Lemma tail_with_nonul (pairs : list (ascii * ascii)) :
  forallb pair_hex pairs = true -> nonul (tail_with cc term pairs) = true.
Proof.
  intros H. unfold tail_with. rewrite !nonul_app.
  rewrite (plain_no_nul _ (hexes_plain _ (pairs_hexes _ H))).
  rewrite (plain_no_nul _ (hexes_plain _ (pair_hexes _ cc_hex))).
  exact term_nonul.
Qed.

Lemma tail_with_length (pairs : list (ascii * ascii)) :
  List.length (tail_with cc term pairs)
  = (2 * List.length pairs + 2 + List.length term)%nat.
Proof.
  unfold tail_with. rewrite !length_app, length_pairs.
  destruct cc. cbn [pair_chars List.length]. lia.
Qed.

Lemma scan_tail_with (pairs : list (ascii * ascii)) :
  forallb pair_hex pairs = true ->
  exists rest,
    scan_x 2 (tail_with cc term pairs)
    = Some (hexnum (pair_chars (hd cc pairs)), rest).
Proof.
  intros H. unfold tail_with. destruct pairs as [| p ps].
  - cbn [flat_map app hd]. exists term.
    apply (scan_x_hex (pair_chars cc) term).
    + destruct cc; discriminate.
    + now apply pair_hexes.
  - cbn [flat_map hd]. rewrite <- app_assoc. eexists.
    simpl in H. apply andb_prop in H as [Hp _].
    apply (scan_x_hex (pair_chars p)).
    + destruct p; discriminate.
    + now apply pair_hexes.
Qed.

Lemma data_loop_chunk_with (pairs : list (ascii * ascii)) :
  forall (pre : list ascii) (k : Z) (fuel : nat) (s : wstate) (line : list ascii),
    line = (pre ++ tail_with cc term pairs) ++ NUL :: stale ->
    forallb pair_hex pairs = true ->
    nonul pre = true ->
    Z.of_nat (List.length pre) = 9 + 2 * k -> 0 <= k ->
    chunk_len = k + Z.of_nat (List.length pairs) ->
    (List.length pairs < fuel)%nat ->
    (uint32 (chunk_addr + offset) <? start) = false ->
    (uint32 (chunk_addr + offset + chunk_len) >? end_) = false ->
    data_loop fuel start end_ line line_no chunk_len chunk_addr 0 offset (9 + 2 * k) s
    = Ok (store_chunk start chunk_len chunk_addr offset k
            (map (fun p => hexnum (pair_chars p)) pairs) s).
Proof.
  induction pairs as [| p ps IH]; intros pre k fuel s line HL Hps Hpre Hlen Hk Hcl Hf Hlo Hhi.
  - destruct fuel as [| fuel]; [simpl in Hf; lia |].
    cbn [data_loop map store_chunk].
    assert (Hstr : strlen line = 9 + 2 * k + 2 + Z.of_nat (List.length term)).
    { rewrite HL, strlen_app_nul.
      - rewrite length_app, tail_with_length. simpl List.length. lia.
      - rewrite nonul_app, Hpre. now apply tail_with_nonul. }
    rewrite Hstr.
    replace (9 + 2 * k <? 9 + 2 * k + 2 + Z.of_nat (List.length term) - 1) with true by lia.
    rewrite HL, (cstr_at pre (tail_with cc term []) stale)
      by (try lia; now apply tail_with_nonul).
    destruct (scan_tail_with [] eq_refl) as (rest & ->).
    cbn [negb]. change (0 =? 0) with true. cbn [negb].
    replace ((9 + 2 * k - 9) / 2) with k by (Z.div_mod_to_equations; lia).
    replace (k >=? chunk_len) with true by (simpl in Hcl; lia).
    reflexivity.
  - destruct fuel as [| fuel]; [simpl in Hf; lia |].
    simpl in Hps. apply andb_prop in Hps as [Hp Hps].
    cbn [data_loop map store_chunk].
    assert (Hstr : strlen line
                   = 9 + 2 * k + 2 * Z.of_nat (List.length (p :: ps)) + 2
                     + Z.of_nat (List.length term)).
    { rewrite HL, strlen_app_nul.
      - rewrite length_app, tail_with_length. lia.
      - rewrite nonul_app, Hpre. apply tail_with_nonul. simpl. now rewrite Hp, Hps. }
    rewrite Hstr.
    replace (9 + 2 * k <? 9 + 2 * k + 2 * Z.of_nat (List.length (p :: ps)) + 2
                          + Z.of_nat (List.length term) - 1)
      with true by lia.
    rewrite HL at 1.
    rewrite (cstr_at pre (tail_with cc term (p :: ps)) stale)
      by (try lia; apply tail_with_nonul; simpl; now rewrite Hp, Hps).
    destruct (scan_tail_with (p :: ps)) as (rest & ->); [simpl; now rewrite Hp, Hps |].
    cbn [hd]. change (0 =? 0) with true. cbn [negb].
    replace ((9 + 2 * k - 9) / 2) with k by (Z.div_mod_to_equations; lia).
    replace (k >=? chunk_len) with false by (cbn [List.length] in Hcl; lia).
    rewrite Hlo, Hhi.
    assert (Hb : hexnum (pair_chars p) mod 256 = hexnum (pair_chars p)).
    { destruct p as [a b]. apply Z.mod_small. apply hexnum_pair_range. }
    rewrite Hb.
    replace (9 + 2 * k + 2) with (9 + 2 * (k + 1)) by lia.
    apply (IH (pre ++ pair_chars p)).
    + rewrite HL. unfold tail_with. cbn [flat_map]. now rewrite <- !app_assoc.
    + exact Hps.
    + rewrite nonul_app, Hpre. apply plain_no_nul, hexes_plain. now apply pair_hexes.
    + rewrite length_app. destruct p. simpl List.length. lia.
    + lia.
    + cbn [List.length] in Hcl. lia.
    + simpl in Hf. lia.
    + exact Hlo.
    + exact Hhi.
Qed.

Lemma data_loop_first_with (chunk_type : Z) (pre line : list ascii)
    (pairs : list (ascii * ascii)) (fuel : nat) (s : wstate) :
  forallb pair_hex pairs = true ->
  line = (pre ++ tail_with cc term pairs) ++ NUL :: stale ->
  nonul pre = true ->
  List.length pre = 9%nat ->
  data_loop (S fuel) start end_ line line_no chunk_len chunk_addr chunk_type offset 9 s
  = if negb (chunk_type =? 0) then Ok s
    else if 0 >=? chunk_len then Ok s
    else if uint32 (chunk_addr + offset) <? start then
      Err (AddressError chunk_addr line_no) (trace s)
    else if uint32 (chunk_addr + offset + chunk_len) >? end_ then
      Err (AddressLengthError chunk_addr chunk_len line_no) (trace s)
    else
      let b := hexnum (pair_chars (hd cc pairs)) in
      let top := uint32 (chunk_addr + offset + chunk_len) in
      let idx := uint32 (chunk_addr + offset - start + 0) in
      data_loop fuel start end_ line line_no chunk_len chunk_addr chunk_type offset 11
        (mk_wstate (store idx b (buf s))
           (if top >? greatest_addr s then top else greatest_addr s)
           (trace s ++ [mk_event chunk_addr offset chunk_len idx b])).
Proof.
  intros Hps HL Hpre Hlen.
  cbn [data_loop].
  assert (Hstr : strlen line
                 = 9 + 2 * Z.of_nat (List.length pairs) + 2 + Z.of_nat (List.length term)).
  { rewrite HL, strlen_app_nul.
    - rewrite length_app, tail_with_length, Hlen. lia.
    - rewrite nonul_app, Hpre. now apply tail_with_nonul. }
  rewrite Hstr.
  replace (9 <? 9 + 2 * Z.of_nat (List.length pairs) + 2 + Z.of_nat (List.length term) - 1)
    with true by lia.
  rewrite HL at 1.
  rewrite (cstr_at pre (tail_with cc term pairs) stale)
    by (try lia; now apply tail_with_nonul).
  destruct (scan_tail_with pairs Hps) as (rest & ->).
  change ((9 - 9) / 2) with 0.
  assert (Hb : hexnum (pair_chars (hd cc pairs)) mod 256 = hexnum (pair_chars (hd cc pairs))).
  { destruct (hd cc pairs) as [a b]. apply Z.mod_small. apply hexnum_pair_range. }
  rewrite Hb. reflexivity.
Qed.

End AnyEnding.

Lemma wire_body_split (w : wire) (term : list ascii) :
  wire_body w ++ term = (chr 58 :: w_hdr w) ++ tail_with (w_sum w) term (w_data w).
Proof.
  unfold wire_body, tail_with. cbn [app]. f_equal. now rewrite <- !app_assoc.
Qed.

Lemma wire_text_body_lf (w : wire) : wire_text w = wire_body w ++ [LF].
Proof. apply wire_text_body. Qed.

Lemma scan_header_body (w : wire) (tail : list ascii) :
  wire_ok w = true ->
  scan_header ((chr 58 :: w_hdr w) ++ tail) = Some (w_len w, w_addr w, w_type w).
Proof.
  intros H. apply wire_ok_inv in H as (Hl & Hh & _).
  destruct (length_8 _ Hl) as (a & b & c & d & e & f & g & h & Hhdr).
  unfold w_len, w_addr, w_type. rewrite Hhdr in *.
  cbn [forallb] in Hh.
  repeat (apply andb_prop in Hh as [? Hh]).
  cbn [app scan_header firstn skipn].
  change (code (chr 58) =? 58) with true. cbv iota.
  rewrite scan_x_2 by assumption.
  rewrite scan_x_4 by assumption.
  rewrite scan_x_2 by assumption.
  reflexivity.
Qed.

Lemma ext_offset_with (w : wire) (term stale : list ascii) (offset : Z) :
  wire_ok w = true -> ext_ok w = true -> nonul term = true ->
  ext_offset ((wire_body w ++ term) ++ NUL :: stale) (w_type w) offset
  = Some (let ext := hexnum (flat_map pair_chars (firstn 2 (w_data w))) in
          if w_type w =? 2 then uint32 (ext * 16)
          else if w_type w =? 4 then uint32 (ext * 65536)
          else offset).
Proof.
  intros H He Ht. unfold ext_offset.
  pose proof (wire_ok_inv w H) as (Hl & Hh & Hd & Hs & Hn).
  rewrite wire_body_split.
  rewrite (cstr_at (chr 58 :: w_hdr w) (tail_with (w_sum w) term (w_data w)) stale 9)
    by (try (cbn [List.length]; rewrite Hl; reflexivity);
        now apply tail_with_nonul).
  unfold ext_ok in He.
  destruct (w_type w =? 2) eqn:E2; [| destruct (w_type w =? 4) eqn:E4; [| reflexivity]].
  - cbn [orb] in He. apply Z.leb_le in He.
    destruct (w_data w) as [| [a1 a2] [| [b1 b2] ps]]; try (cbn [List.length] in Hn; lia).
    cbn [forallb] in Hd.
    apply andb_prop in Hd as [Ha Hd]. apply andb_prop in Hd as [Hb _].
    apply andb_prop in Ha as [Ha1 Ha2]. apply andb_prop in Hb as [Hb1 Hb2].
    cbn [fst snd] in *.
    unfold tail_with. cbn [flat_map pair_chars fst snd app firstn].
    rewrite scan_x_4 by assumption.
    replace (w_type w) with 2 by (symmetry; now apply Z.eqb_eq).
    reflexivity.
  - rewrite orb_true_r in He. apply Z.leb_le in He.
    destruct (w_data w) as [| [a1 a2] [| [b1 b2] ps]]; try (cbn [List.length] in Hn; lia).
    cbn [forallb] in Hd.
    apply andb_prop in Hd as [Ha Hd]. apply andb_prop in Hd as [Hb _].
    apply andb_prop in Ha as [Ha1 Ha2]. apply andb_prop in Hb as [Hb1 Hb2].
    cbn [fst snd] in *.
    unfold tail_with. cbn [flat_map pair_chars fst snd app firstn].
    rewrite scan_x_4 by assumption.
    reflexivity.
Qed.

(** One well-formed line, whatever follows its checksum field in the array:
    once [fgets] has put it there, [read_loop] does what [wire_step] says. *)
Lemma read_loop_line_with (start end_ : Z) (w : wire) (term stale : list ascii)
    (fuel : nat) (stream rest line : list ascii) (line_no offset : Z) (s : wstate) :
  wire_ok w = true -> ext_ok w = true ->
  nonul term = true -> (1 <= List.length term)%nat ->
  fgets line 523 stream = Some ((wire_body w ++ term) ++ NUL :: stale, rest) ->
  read_loop (S fuel) start end_ stream line line_no offset s
  = match wire_step start end_ (uint32 (line_no + 1)) w offset s with
    | Ok (offset, s) =>
        read_loop fuel start end_ rest ((wire_body w ++ term) ++ NUL :: stale)
          (uint32 (line_no + 1)) offset s
    | Err e t => Failed e t
    | NoFuel => Fuel
    end.
Proof.
  intros H He Ht Hne Hg.
  rewrite read_loop_unfold, Hg.
  cbv zeta. rewrite strip_cr_id.
  pose proof (wire_ok_inv w H) as (Hl & Hh & Hd & Hs & Hn).
  assert (Hpre : nonul (chr 58 :: w_hdr w) = true).
  { change (nonul (chr 58 :: w_hdr w)) with (true && nonul (w_hdr w)).
    apply plain_no_nul, hexes_plain, Hh. }
  assert (Hnn : nonul (wire_body w ++ term) = true).
  { rewrite wire_body_split, nonul_app, Hpre. now apply tail_with_nonul. }
  rewrite (cstr_app_nul _ stale Hnn).
  rewrite wire_body_split at 1. rewrite (scan_header_body w _ H).
  rewrite (ext_offset_with w term stale offset H He Ht). cbv zeta.
  assert (Hfuel : exists n, List.length ((wire_body w ++ term) ++ NUL :: stale) = S n
                            /\ (List.length (w_data w) <= n)%nat).
  { rewrite length_app, wire_body_split, length_app, (tail_with_length _ _ Hs Hne).
    cbn [List.length]. eexists. split; [rewrite Nat.add_succ_r; reflexivity | lia]. }
  destruct Hfuel as (n & -> & Hn').
  assert (HL : (wire_body w ++ term) ++ NUL :: stale
               = ((chr 58 :: w_hdr w) ++ tail_with (w_sum w) term (w_data w))
                 ++ NUL :: stale)
    by (now rewrite wire_body_split).
  assert (Hplen : List.length (chr 58 :: w_hdr w) = 9%nat)
    by (cbn [List.length]; now rewrite Hl).
  pose proof (fun ct => data_loop_first_with start end_ (uint32 (line_no + 1)) (w_len w)
                 (w_addr w)
                 (let ext := hexnum (flat_map pair_chars (firstn 2 (w_data w))) in
                  if w_type w =? 2 then uint32 (ext * 16)
                  else if w_type w =? 4 then uint32 (ext * 65536) else offset)
                 (w_sum w) term stale Hs Ht Hne ct (chr 58 :: w_hdr w) _ (w_data w) n s
                 Hd HL Hpre Hplen) as Hfirst.
  cbv zeta in Hfirst.
  unfold wire_step.
  destruct (w_type w =? 0) eqn:E0.
  - replace (w_type w =? 2) with false in * by (apply Z.eqb_eq in E0; lia).
    replace (w_type w =? 4) with false in * by (apply Z.eqb_eq in E0; lia).
    cbv iota in Hfirst. cbv iota.
    replace (w_type w) with 0 by (symmetry; now apply Z.eqb_eq).
    destruct (w_bytes w) as [| b0 bs] eqn:Eb.
    + rewrite Hfirst.
      change (0 =? 0) with true. cbn [negb].
      assert (w_len w = 0).
      { rewrite Hn. unfold w_bytes in Eb. destruct (w_data w); [reflexivity | discriminate]. }
      replace (0 >=? w_len w) with true by lia. reflexivity.
    + assert (Hpos : 1 <= w_len w).
      { rewrite Hn. unfold w_bytes in Eb. destruct (w_data w); [discriminate |].
        cbn [List.length]. lia. }
      destruct (uint32 (w_addr w + offset) <? start) eqn:Elo.
      { rewrite Hfirst.
        change (0 =? 0) with true. cbn [negb].
        replace (0 >=? w_len w) with false by lia. rewrite ?Elo. reflexivity. }
      destruct (uint32 (w_addr w + offset + w_len w) >? end_) eqn:Ehi.
      { rewrite Hfirst.
        change (0 =? 0) with true. cbn [negb].
        replace (0 >=? w_len w) with false by lia. rewrite ?Elo, ?Ehi. reflexivity. }
      change 9 with (9 + 2 * 0).
      rewrite (data_loop_chunk_with start end_ (uint32 (line_no + 1)) (w_len w) (w_addr w)
                 offset (w_sum w) term stale Hs Ht Hne (w_data w) (chr 58 :: w_hdr w) 0
                 (S n) s _ HL Hd Hpre); try assumption; try lia;
        try (rewrite Hplen; reflexivity).
      rewrite <- Eb. reflexivity.
  - rewrite Hfirst. rewrite E0. cbn [negb].
    destruct (w_type w =? 2); [reflexivity |].
    destruct (w_type w =? 4); reflexivity.
Qed.

(* ------------------------------------------------------------------ *)
(** ** Lines that end with carriage return and newline *)

Lemma wire_body_plain (w : wire) :
  wire_ok w = true -> forallb plain (wire_body w) = true.
Proof.
  intros H. apply wire_ok_inv in H as (Hl & Hh & Hd & Hs & Hn).
  unfold wire_body. cbn [forallb]. change (plain (chr 58)) with true. cbn [andb].
  rewrite !forallb_app.
  rewrite (hexes_plain _ Hh), (hexes_plain _ (pairs_hexes _ Hd)),
    (hexes_plain _ (pair_hexes _ Hs)). reflexivity.
Qed.

Lemma wire_body_length (w : wire) :
  wire_ok w = true ->
  List.length (wire_body w) = (11 + 2 * List.length (w_data w))%nat.
Proof.
  intros H. apply wire_ok_inv in H as (Hl & _ & _ & _ & _).
  unfold wire_body. cbn [List.length]. rewrite !length_app, length_pairs, Hl.
  destruct (w_sum w). cbn [pair_chars List.length]. lia.
Qed.

Lemma fgets_crlf (line : list ascii) (w : wire) (rest : list ascii) :
  wire_ok w = true -> w_len w <= 254 ->
  exists stale,
    fgets line 523 (wire_text_crlf w ++ rest)
    = Some ((wire_body w ++ [CR; LF]) ++ NUL :: stale, rest).
Proof.
  intros H Hlen. pose proof (wire_ok_inv w H) as (_ & _ & _ & _ & Hn).
  unfold wire_text_crlf.
  replace ((wire_body w ++ [CR; LF]) ++ rest)
    with ((wire_body w ++ [CR]) ++ LF :: rest) by (now rewrite <- !app_assoc).
  rewrite fgets_line.
  - eexists. rewrite <- !app_assoc. reflexivity.
  - rewrite forallb_app, (wire_body_plain w H). reflexivity.
  - rewrite length_app, (wire_body_length w H). cbn [List.length]. lia.
Qed.

Lemma read_loop_crlf (start end_ : Z) (w : wire) (fuel : nat)
    (rest line : list ascii) (line_no offset : Z) (s : wstate) :
  wire_ok w = true -> ext_ok w = true -> w_len w <= 254 ->
  exists line',
    read_loop (S fuel) start end_ (wire_text_crlf w ++ rest) line line_no offset s
    = match wire_step start end_ (uint32 (line_no + 1)) w offset s with
      | Ok (offset, s) =>
          read_loop fuel start end_ rest line' (uint32 (line_no + 1)) offset s
      | Err e t => Failed e t
      | NoFuel => Fuel
      end.
Proof.
  intros H He Hlen.
  destruct (fgets_crlf line w rest H Hlen) as (stale & Hg).
  eexists.
  apply (read_loop_line_with start end_ w [CR; LF] stale fuel _ rest line line_no offset s
           H He eq_refl ltac:(cbn [List.length]; lia) Hg).
Qed.

Lemma read_loop_crlf_wires (start end_ : Z) (ws : list wire) :
  wires_ok ws = true ->
  Forall (fun w => w_len w <= 254) ws ->
  forall (fuel : nat) (line : list ascii) (line_no offset : Z) (s : wstate),
    (List.length ws <= fuel)%nat ->
    read_loop fuel start end_ (flat_map wire_text_crlf ws) line line_no offset s
    = decode_wires start end_ ws line_no offset s.
Proof.
  induction ws as [| w ws IH]; intros H Hl fuel line line_no offset s Hf.
  - destruct fuel; reflexivity.
  - destruct fuel as [| fuel]; [simpl in Hf; lia |].
    cbn [wires_ok forallb] in H. apply andb_prop in H as [Hw Hws].
    apply andb_prop in Hw as [Hok Hext].
    inversion Hl as [| ? ? Hw254 Hl']; subst.
    cbn [flat_map decode_wires].
    destruct (read_loop_crlf start end_ w fuel (flat_map wire_text_crlf ws) line line_no
                offset s Hok Hext Hw254) as (line' & ->).
    destruct (wire_step start end_ (uint32 (line_no + 1)) w offset s) as [[o s'] | e t |];
      try reflexivity.
    apply IH; [exact Hws | exact Hl' | simpl in Hf; lia].
Qed.

(** X12.  A text of well-formed lines that end with carriage return and
    newline decodes exactly as the same lines ended by a newline alone (same
    destination, return value, stores and errors), although the carriage
    return is never stripped, as long as no line carries more than 254 payload
    bytes. *)
Theorem crlf_decodes_like_lf (ws : list wire) (line1 line2 : list ascii)
    (b : list Z) (start end_ : Z) :
  wires_ok ws = true ->
  Forall (fun w => w_len w <= 254) ws ->
  ihex_read line1 (flat_map wire_text_crlf ws) b start end_
  = ihex_read line2 (wires_text ws) b start end_.
Proof.
  intros Hok Hl. unfold wires_text. rewrite (ihex_read_wires line2) by exact Hok.
  unfold ihex_read. apply read_loop_crlf_wires; [exact Hok | exact Hl |].
  clear. induction ws as [| w ws IH]; [simpl; lia |].
  cbn [flat_map]. rewrite length_app. unfold wire_text_crlf at 1, wire_body.
  cbn [List.length app]. lia.
Qed.

Lemma crlf_decodes_like_lf_witness :
  ihex_read line_init
    (flat_map wire_text_crlf
       [mk_wire (str "03000000") [("1", "1"); ("2", "2"); ("3", "3")]%char ("9", "7")%char;
        mk_wire (str "00000001") [] ("F", "F")%char])
    [0; 0; 0] 0 3
  = ihex_read line_init
      (wires_text
         [mk_wire (str "03000000") [("1", "1"); ("2", "2"); ("3", "3")]%char ("9", "7")%char;
          mk_wire (str "00000001") [] ("F", "F")%char])
      [0; 0; 0] 0 3.
Proof.
  apply crlf_decodes_like_lf; [reflexivity |].
  repeat constructor; vm_compute; discriminate.
Defined.

Lemma fgets_chars_full (l rest : list ascii) :
  forallb plain l = true ->
  fgets_chars (List.length l) (l ++ rest) = (l, rest).
Proof.
  induction l as [| c l IH]; intros H.
  - destruct rest; reflexivity.
  - simpl in H. apply andb_prop in H as [Hc Hl].
    cbn [List.length app]. rewrite fgets_chars_cons.
    replace (code c =? 10) with false by (unfold plain in Hc; lia).
    now rewrite IH.
Qed.

(** X13.  A well-formed line with 255 payload bytes that ends with carriage
    return and newline always makes the decode fail: the array [line] holds
    522 characters, so [fgets] stops after the carriage return and the
    newline is read as a line of its own, which has no header. *)
Theorem longest_line_crlf_fails (start end_ : Z) (w : wire) (fuel : nat)
    (rest line : list ascii) (line_no offset : Z) (s : wstate) :
  wire_ok w = true -> ext_ok w = true -> w_len w = 255 ->
  exists e t,
    read_loop (S (S fuel)) start end_ (wire_text_crlf w ++ rest) line line_no offset s
    = Failed e t.
Proof.
  intros H He Hlen. pose proof (wire_ok_inv w H) as (_ & _ & _ & _ & Hn).
  assert (Hg : exists stale,
             fgets line 523 (wire_text_crlf w ++ rest)
             = Some ((wire_body w ++ [CR]) ++ NUL :: stale, LF :: rest)).
  { unfold wire_text_crlf, fgets.
    replace ((wire_body w ++ [CR; LF]) ++ rest)
      with ((wire_body w ++ [CR]) ++ LF :: rest) by (now rewrite <- !app_assoc).
    assert (Hlen' : List.length (wire_body w ++ [CR]) = Nat.pred 523).
    { rewrite length_app, (wire_body_length w H). cbn [List.length]. lia. }
    rewrite <- Hlen', fgets_chars_full
      by (rewrite forallb_app, (wire_body_plain w H); reflexivity).
    destruct ((wire_body w ++ [CR]) ++ LF :: rest) eqn:E.
    - destruct (wire_body w); discriminate.
    - eexists. reflexivity. }
  destruct Hg as (stale & Hg).
  rewrite (read_loop_line_with start end_ w [CR] stale (S fuel) _ (LF :: rest) line
             line_no offset s H He eq_refl ltac:(cbn [List.length]; lia) Hg).
  unfold wire_step.
  destruct (w_type w =? 0).
  - destruct (w_bytes w).
    + rewrite read_loop_bad_start by reflexivity. eexists. eexists. reflexivity.
    + destruct (uint32 (w_addr w + offset) <? start); [eexists; eexists; reflexivity |].
      destruct (uint32 (w_addr w + offset + w_len w) >? end_);
        [eexists; eexists; reflexivity |].
      rewrite read_loop_bad_start by reflexivity. eexists. eexists. reflexivity.
  - destruct (w_type w =? 2); [| destruct (w_type w =? 4)];
      rewrite read_loop_bad_start by reflexivity; eexists; eexists; reflexivity.
Qed.

Lemma longest_line_crlf_fails_witness :
  exists e t,
    read_loop 2 0 255
      (wire_text_crlf (mk_wire (str "FF000000") (repeat ("0", "0")%char 255)
                         ("0", "1")%char) ++ [])
      line_init 0 0 (mk_wstate (repeat 0 255%nat) 0 [])
    = Failed e t.
Proof.
  apply (longest_line_crlf_fails 0 255
           (mk_wire (str "FF000000") (repeat ("0", "0")%char 255) ("0", "1")%char)
           0 [] line_init 0 0 (mk_wstate (repeat 0 255%nat) 0 []));
    vm_compute; reflexivity.
Defined.

(* ------------------------------------------------------------------ *)
(** ** Lines cut short *)

Lemma data_loop_short (start end_ line_no chunk_len chunk_addr offset : Z)
    (stale : list ascii) (pairs : list (ascii * ascii)) :
  forall (pre : list ascii) (k : Z) (fuel : nat) (s : wstate) (line : list ascii),
    line = (pre ++ flat_map pair_chars pairs ++ [LF]) ++ NUL :: stale ->
    forallb pair_hex pairs = true ->
    nonul pre = true ->
    Z.of_nat (List.length pre) = 9 + 2 * k -> 0 <= k ->
    k + Z.of_nat (List.length pairs) <= chunk_len ->
    (List.length pairs <= fuel)%nat ->
    (uint32 (chunk_addr + offset) <? start) = false ->
    (uint32 (chunk_addr + offset + chunk_len) >? end_) = false ->
    data_loop fuel start end_ line line_no chunk_len chunk_addr 0 offset (9 + 2 * k) s
    = Ok (store_chunk start chunk_len chunk_addr offset k
            (map (fun p => hexnum (pair_chars p)) pairs) s).
Proof.
  induction pairs as [| p ps IH]; intros pre k fuel s line HL Hps Hpre Hlen Hk Hcl Hf Hlo Hhi.
  - assert (Hstr : strlen line = 9 + 2 * k + 1).
    { rewrite HL, strlen_app_nul.
      - rewrite length_app. cbn [flat_map app List.length]. lia.
      - rewrite nonul_app, Hpre. reflexivity. }
    destruct fuel; cbn [data_loop map store_chunk]; rewrite Hstr;
      replace (9 + 2 * k <? 9 + 2 * k + 1 - 1) with false by lia; reflexivity.
  - destruct fuel as [| fuel]; [simpl in Hf; lia |].
    simpl in Hps. apply andb_prop in Hps as [Hp Hps].
    assert (Hnn : nonul (flat_map pair_chars (p :: ps) ++ [LF]) = true).
    { rewrite nonul_app.
      rewrite (plain_no_nul _ (hexes_plain _ (pairs_hexes (p :: ps) ltac:(simpl; now rewrite Hp, Hps)))).
      reflexivity. }
    cbn [data_loop map store_chunk].
    assert (Hstr : strlen line = 9 + 2 * k + 2 * Z.of_nat (List.length (p :: ps)) + 1).
    { rewrite HL, strlen_app_nul.
      - rewrite !length_app, length_pairs. cbn [List.length]. lia.
      - rewrite nonul_app, Hpre. exact Hnn. }
    rewrite Hstr.
    assert (Hpos : 1 <= Z.of_nat (List.length (p :: ps))) by (cbn [List.length]; lia).
    replace (9 + 2 * k <? 9 + 2 * k + 2 * Z.of_nat (List.length (p :: ps)) + 1 - 1)
      with true by lia.
    rewrite HL at 1.
    rewrite (cstr_at pre (flat_map pair_chars (p :: ps) ++ [LF]) stale) by (try lia; exact Hnn).
    destruct p as [a b]. unfold pair_hex in Hp. cbn [fst snd] in Hp.
    apply andb_prop in Hp as [Ha Hb].
    cbn [flat_map pair_chars fst snd app].
    rewrite scan_x_2 by assumption.
    change (0 =? 0) with true. cbn [negb].
    replace ((9 + 2 * k - 9) / 2) with k by (Z.div_mod_to_equations; lia).
    replace (k >=? chunk_len) with false by (cbn [List.length] in Hcl; lia).
    rewrite Hlo, Hhi.
    rewrite (Z.mod_small (hexnum [a; b])) by apply hexnum_pair_range.
    replace (9 + 2 * k + 2) with (9 + 2 * (k + 1)) by lia.
    apply (IH (pre ++ [a; b])).
    + rewrite HL. cbn [flat_map pair_chars fst snd app].
      rewrite <- !app_assoc. cbn [app]. rewrite <- !app_assoc. reflexivity.
    + exact Hps.
    + rewrite nonul_app, Hpre. cbn [andb]. apply plain_no_nul, hexes_plain.
      cbn [forallb]. rewrite Ha, Hb. reflexivity.
    + rewrite length_app. cbn [List.length]. lia.
    + lia.
    + cbn [List.length] in Hcl. lia.
    + simpl in Hf. lia.
    + exact Hlo.
    + exact Hhi.
Qed.

(** X14.  A Data line that is cut off after some of its payload bytes (fewer
    pairs than the length field says, no checksum field, then the newline) is
    not rejected: in any state of the read loop, when the address and the
    length field pass the range checks, the bytes that are there are stored
    at their indices and the loop goes on with the next line. *)
Theorem short_data_line_accepted (start end_ : Z) (w : wire) (fuel : nat)
    (rest line : list ascii) (line_no offset : Z) (s : wstate) :
  digits_ok w = true -> w_type w = 0 ->
  Z.of_nat (List.length (w_data w)) <= w_len w ->
  0 <= start -> 0 <= offset ->
  start <= w_addr w + offset ->
  w_addr w + offset + w_len w <= end_ ->
  end_ < 2 ^ 32 ->
  end_ - start <= Z.of_nat (List.length (buf s)) < 2 ^ 32 ->
  let n := Z.to_nat (w_addr w + offset - start) in
  exists line' s',
    read_loop (S fuel) start end_ (short_text w ++ rest) line line_no offset s
    = read_loop fuel start end_ rest line' (uint32 (line_no + 1)) offset s'
    /\ buf s' = firstn n (buf s) ++ w_bytes w
                ++ skipn (n + List.length (w_bytes w)) (buf s).
Proof.
  intros Hok Ht Hm Hs Ho Hlo Hhi He Hb n.
  unfold digits_ok in Hok. apply andb_prop in Hok as [Hok Hd].
  apply andb_prop in Hok as [Hl Hh]. apply Nat.eqb_eq in Hl.
  assert (Hlen : 0 <= w_len w < 256).
  { destruct (length_8 _ Hl) as (a & b & c & d & e & f & g & h & Hhdr).
    unfold w_len. rewrite Hhdr. cbn [firstn]. apply hexnum_pair_range. }
  set (body := chr 58 :: w_hdr w ++ flat_map pair_chars (w_data w)).
  assert (Hbody : short_text w ++ rest = body ++ LF :: rest).
  { unfold short_text, body. cbn [app]. f_equal. now rewrite <- !app_assoc. }
  assert (Hplain : forallb plain body = true).
  { unfold body. cbn [forallb]. change (plain (chr 58)) with true. cbn [andb].
    rewrite forallb_app, (hexes_plain _ Hh), (hexes_plain _ (pairs_hexes _ Hd)).
    reflexivity. }
  assert (Hblen : List.length body = (9 + 2 * List.length (w_data w))%nat).
  { unfold body. cbn [List.length]. rewrite length_app, length_pairs, Hl. lia. }
  rewrite read_loop_unfold, Hbody, fgets_line by (try exact Hplain; lia).
  cbv zeta. rewrite strip_cr_id.
  set (stale := skipn _ line).
  assert (Hnn : nonul (body ++ [LF]) = true).
  { rewrite nonul_app, (plain_no_nul _ Hplain). reflexivity. }
  rewrite (cstr_app_nul _ stale Hnn).
  assert (Hsplit : body ++ [LF]
                   = (chr 58 :: w_hdr w) ++ flat_map pair_chars (w_data w) ++ [LF]).
  { unfold body. cbn [app]. f_equal. now rewrite <- !app_assoc. }
  assert (Hhead : scan_header (body ++ [LF]) = Some (w_len w, w_addr w, w_type w)).
  { rewrite Hsplit.
    destruct (length_8 _ Hl) as (a & b & c & d & e & f & g & h & Hhdr).
    unfold w_len, w_addr, w_type. rewrite Hhdr in *.
    cbn [forallb] in Hh. repeat (apply andb_prop in Hh as [? Hh]).
    cbn [app scan_header firstn skipn].
    change (code (chr 58) =? 58) with true. cbv iota.
    rewrite scan_x_2 by assumption.
    rewrite scan_x_4 by assumption.
    rewrite scan_x_2 by assumption.
    reflexivity. }
  rewrite Hhead, Ht.
  unfold ext_offset. change (0 =? 2) with false. change (0 =? 4) with false. cbv iota.
  assert (Hpre : nonul (chr 58 :: w_hdr w) = true).
  { change (nonul (chr 58 :: w_hdr w)) with (true && nonul (w_hdr w)).
    apply plain_no_nul, hexes_plain, Hh. }
  change 9 with (9 + 2 * 0).
  rewrite (data_loop_short start end_ (uint32 (line_no + 1)) (w_len w) (w_addr w) offset
             stale (w_data w) (chr 58 :: w_hdr w) 0 _ s).
  - eexists. eexists. split; [reflexivity |].
    apply store_chunk_buf; [unfold n; lia | lia |].
    unfold n, w_bytes. rewrite length_map. lia.
  - now rewrite Hsplit.
  - exact Hd.
  - exact Hpre.
  - cbn [List.length]. rewrite Hl. reflexivity.
  - lia.
  - lia.
  - rewrite length_app, Hsplit, length_app, length_app, length_pairs.
    cbn [List.length]. lia.
  - rewrite uint32_small by lia. lia.
  - rewrite uint32_small by lia. lia.
Qed.

Lemma short_data_line_accepted_witness :
  exists line' s',
    read_loop 1 0 3
      (short_text (mk_wire (str "03000000") [("1", "1"); ("2", "2")]%char ("0", "0")%char)
       ++ [])
      line_init 0 0 (mk_wstate [0; 0; 0] 0 [])
    = read_loop 0 0 3 [] line' (uint32 (0 + 1)) 0 s'
    /\ buf s' = [0x11; 0x22; 0].
Proof.
  destruct (short_data_line_accepted 0 3
              (mk_wire (str "03000000") [("1", "1"); ("2", "2")]%char ("0", "0")%char)
              0 [] line_init 0 0 (mk_wstate [0; 0; 0] 0 []))
    as (line' & s' & H1 & H2);
    [reflexivity | reflexivity | vm_compute; discriminate | lia | lia
     | vm_compute; discriminate | vm_compute; discriminate | lia
     | cbn [buf List.length]; lia |].
  exists line', s'. split; [exact H1 | exact H2].
Defined.

(* ------------------------------------------------------------------ *)
(** ** Case of the digits *)

Lemma hexval_lower (c : ascii) : hexval (lower c) = hexval c.
Proof.
  destruct c as [[] [] [] [] [] [] [] []]; vm_compute; reflexivity.
Qed.

Lemma digit_lower (c : ascii) : digit (lower c) = digit c.
Proof. unfold digit. now rewrite hexval_lower. Qed.

Lemma is_hex_lower (c : ascii) : is_hex (lower c) = is_hex c.
Proof. unfold is_hex. now rewrite hexval_lower. Qed.

Lemma hexnum_lower (l : list ascii) : hexnum (map lower l) = hexnum l.
Proof.
  unfold hexnum. generalize 0.
  induction l as [| c l IH]; intros acc; [reflexivity |].
  cbn [map fold_left]. rewrite digit_lower. apply IH.
Qed.

Lemma forallb_hex_lower (l : list ascii) :
  forallb is_hex (map lower l) = forallb is_hex l.
Proof.
  induction l as [| c l IH]; [reflexivity |].
  cbn [map forallb]. now rewrite is_hex_lower, IH.
Qed.

Lemma pair_hex_lower (p : ascii * ascii) : pair_hex (lower_pair p) = pair_hex p.
Proof. unfold pair_hex, lower_pair. cbn [fst snd]. now rewrite !is_hex_lower. Qed.

Lemma forallb_pair_lower (ps : list (ascii * ascii)) :
  forallb pair_hex (map lower_pair ps) = forallb pair_hex ps.
Proof.
  induction ps as [| p ps IH]; [reflexivity |].
  cbn [map forallb]. now rewrite pair_hex_lower, IH.
Qed.

Lemma pairs_lower (ps : list (ascii * ascii)) :
  flat_map pair_chars (map lower_pair ps) = map lower (flat_map pair_chars ps).
Proof.
  induction ps as [| p ps IH]; [reflexivity |].
  cbn [map flat_map]. rewrite IH, map_app. reflexivity.
Qed.

Lemma w_len_lower (w : wire) : w_len (wire_lower w) = w_len w.
Proof. unfold w_len, wire_lower. cbn [w_hdr]. now rewrite firstn_map, hexnum_lower. Qed.

Lemma w_addr_lower (w : wire) : w_addr (wire_lower w) = w_addr w.
Proof.
  unfold w_addr, wire_lower. cbn [w_hdr].
  now rewrite skipn_map, firstn_map, hexnum_lower.
Qed.

Lemma w_type_lower (w : wire) : w_type (wire_lower w) = w_type w.
Proof. unfold w_type, wire_lower. cbn [w_hdr]. now rewrite skipn_map, hexnum_lower. Qed.

Lemma w_bytes_lower (w : wire) : w_bytes (wire_lower w) = w_bytes w.
Proof.
  unfold w_bytes, wire_lower. cbn [w_data]. rewrite map_map.
  apply map_ext. intros p. unfold lower_pair, pair_chars. cbn [fst snd].
  apply (hexnum_lower [fst p; snd p]).
Qed.

Lemma wire_ok_lower (w : wire) : wire_ok (wire_lower w) = wire_ok w.
Proof.
  unfold wire_ok. rewrite w_len_lower. unfold wire_lower. cbn [w_hdr w_data w_sum].
  now rewrite !length_map, forallb_hex_lower, forallb_pair_lower, pair_hex_lower.
Qed.

Lemma ext_ok_lower (w : wire) : ext_ok (wire_lower w) = ext_ok w.
Proof. unfold ext_ok. now rewrite w_type_lower, w_len_lower. Qed.

Lemma wires_ok_lower (ws : list wire) : wires_ok (map wire_lower ws) = wires_ok ws.
Proof.
  unfold wires_ok. induction ws as [| w ws IH]; [reflexivity |].
  cbn [map forallb]. now rewrite wire_ok_lower, ext_ok_lower, IH.
Qed.

Lemma wire_step_lower (start end_ line_no : Z) (w : wire) (offset : Z) (s : wstate) :
  wire_step start end_ line_no (wire_lower w) offset s
  = wire_step start end_ line_no w offset s.
Proof.
  unfold wire_step.
  rewrite w_type_lower, w_bytes_lower, w_addr_lower, w_len_lower.
  replace (hexnum (flat_map pair_chars (firstn 2 (w_data (wire_lower w)))))
    with (hexnum (flat_map pair_chars (firstn 2 (w_data w)))); [reflexivity |].
  unfold wire_lower. cbn [w_data].
  now rewrite firstn_map, pairs_lower, hexnum_lower.
Qed.

Lemma decode_wires_lower (start end_ : Z) (ws : list wire) :
  forall (line_no offset : Z) (s : wstate),
    decode_wires start end_ (map wire_lower ws) line_no offset s
    = decode_wires start end_ ws line_no offset s.
Proof.
  induction ws as [| w ws IH]; intros line_no offset s; [reflexivity |].
  cbn [map decode_wires]. rewrite wire_step_lower.
  destruct (wire_step start end_ (uint32 (line_no + 1)) w offset s) as [[o s'] | e t |];
    try reflexivity.
  apply IH.
Qed.

(** X15.  The case of the hexadecimal digits does not matter to the reader:
    a file of well-formed lines whose letters A-F are all written in lower
    case is decoded exactly like the same file in upper case (same return
    value or error, same buffer, same stores). *)
Theorem lower_case_digits_read_alike (line : list ascii) (ws : list wire) (b : list Z)
    (start end_ : Z) :
  wires_ok ws = true ->
  ihex_read line (wires_text (map wire_lower ws)) b start end_
  = ihex_read line (wires_text ws) b start end_.
Proof.
  intros H. unfold wires_text.
  rewrite !ihex_read_wires by (try rewrite wires_ok_lower; exact H).
  apply decode_wires_lower.
Qed.

Lemma lower_case_digits_read_alike_witness :
  wires_text (map wire_lower
    [mk_wire (str "02000000") [("A", "B"); ("C", "D")]%char ("8", "6")%char])
  = str ":02000000abcd86" ++ [LF]
  /\ ihex_read line_init (str ":02000000abcd86" ++ [LF]) [0; 0] 0 2
     = ihex_read line_init (str ":02000000ABCD86" ++ [LF]) [0; 0] 0 2.
Proof.
  split; [reflexivity |].
  apply (lower_case_digits_read_alike line_init
           [mk_wire (str "02000000") [("A", "B"); ("C", "D")]%char ("8", "6")%char]
           [0; 0] 0 2).
  reflexivity.
Defined.

(** X16.  The macros [HI] and [LO] give the two bytes of the low 16 bits of
    their argument, whatever the argument (negative values of C [int]
    included): each result is a byte, and 256 times the high byte plus the
    low byte is the argument modulo 65536. *)
Theorem HI_LO_bytes (x : Z) :
  0 <= HI x < 256 /\ 0 <= LO x < 256 /\ 256 * HI x + LO x = x mod 65536.
Proof.
  rewrite HI_mod, LO_mod. Z.div_mod_to_equations. lia.
Qed.
